(** * pu_qstat: a verification development for the PBS jobs viewer

    The development embeds the computational core of [src/pu_qstat.py]:
    the line-oriented JSON repair pass, the routing-queue expansion, the
    job-score extraction, the value classifier and its sort keys, and the
    row-building loop of [print_jobs].

    Text is modelled as [string] over the ASCII range; Python integers are
    [Z]; dictionaries whose order matters are association lists; the
    routing map and the visited set are [gmap] and [gset]. *)

From Stdlib Require Import ZArith Ascii String List Bool Lia SpecFloat.
From Stdlib Require Import Sorting.Sorted Sorting.Permutation.
From stdpp Require Import gmap strings list fin_maps sorting.

Local Open Scope string_scope.
Local Open Scope list_scope.
Local Open Scope Z_scope.

(** ** Characters and text primitives *)

Module Text.

Definition nl : ascii := ascii_of_nat 10.

(** [str.isspace] on the ASCII range: TAB, LF, VT, FF, CR, FS, GS, RS, US
    and the space. *)
Definition is_space (c : ascii) : bool :=
  let n := nat_of_ascii c in
  ((9 <=? n)%nat && (n <=? 13)%nat) || ((28 <=? n)%nat && (n <=? 32)%nat).

Definition is_digit (c : ascii) : bool :=
  let n := nat_of_ascii c in (48 <=? n)%nat && (n <=? 57)%nat.

Definition is_lower_hex (c : ascii) : bool :=
  let n := nat_of_ascii c in
  is_digit c || ((97 <=? n)%nat && (n <=? 102)%nat).

Definition is_upper (c : ascii) : bool :=
  let n := nat_of_ascii c in (65 <=? n)%nat && (n <=? 90)%nat.

Definition is_lower (c : ascii) : bool :=
  let n := nat_of_ascii c in (97 <=? n)%nat && (n <=? 122)%nat.

Definition is_alpha (c : ascii) : bool := is_upper c || is_lower c.

Definition ascii_eqb (a b : ascii) : bool := Ascii.eqb a b.

Definition lower_char (c : ascii) : ascii :=
  if is_upper c then ascii_of_nat (nat_of_ascii c + 32) else c.

Definition upper_char (c : ascii) : ascii :=
  if is_lower c then ascii_of_nat (nat_of_ascii c - 32) else c.

(** [s.lower()] and [s.upper()]. Text is kept in the ASCII range, where
    the two change the twenty-six letters and nothing else. *)
Fixpoint lower (s : string) : string :=
  match s with
  | EmptyString => EmptyString
  | String c r => String (lower_char c) (lower r)
  end.

Fixpoint upper (s : string) : string :=
  match s with
  | EmptyString => EmptyString
  | String c r => String (upper_char c) (upper r)
  end.

(** [s.lstrip()], [s.rstrip()], [s.strip()] *)
Fixpoint lstrip (s : string) : string :=
  match s with
  | EmptyString => EmptyString
  | String c r => if is_space c then lstrip r else s
  end.

Fixpoint rstrip (s : string) : string :=
  match s with
  | EmptyString => EmptyString
  | String c r =>
      match rstrip r with
      | EmptyString => if is_space c then EmptyString else String c EmptyString
      | r' => String c r'
      end
  end.

Definition strip (s : string) : string := rstrip (lstrip s).

(** [s.count(c)] for a one-character needle *)
Fixpoint count (c : ascii) (s : string) : Z :=
  match s with
  | EmptyString => 0
  | String d r => (if ascii_eqb c d then 1 else 0) + count c r
  end.

(** [s.split(sep)] for a one-character separator: never the empty list. *)
Fixpoint split (sep : ascii) (s : string) : list string :=
  match s with
  | EmptyString => [EmptyString]
  | String c r =>
      if ascii_eqb c sep then EmptyString :: split sep r
      else match split sep r with
           | h :: t => String c h :: t
           | [] => [String c EmptyString]
           end
  end.

(** [sep.join(parts)] for a one-character separator *)
Fixpoint join (sep : ascii) (parts : list string) : string :=
  match parts with
  | [] => EmptyString
  | [p] => p
  | p :: rest => String.append p (String sep (join sep rest))
  end.

(** [needle in hay] *)
Fixpoint contains (needle hay : string) : bool :=
  String.prefix needle hay ||
  match hay with
  | EmptyString => false
  | String _ r => contains needle r
  end.

Definition is_empty (s : string) : bool :=
  match s with EmptyString => true | _ => false end.

End Text.

(** ** Regular expressions

    The patterns of the source are kept as data and run by one
    backtracking matcher with Python's priorities: alternatives left to
    right, quantifiers greedy. [rmatch r s] lists, in that priority order,
    the suffixes of [s] left after a match of [r] at the head of [s]. *)

Module Re.

Inductive regex :=
| Eps
| Class (p : ascii -> bool)
| Seq (r1 r2 : regex)
| Alt (r1 r2 : regex)
| Star (r : regex)
| Group (name : string) (r : regex)
| Eol.

Definition Chr (c : ascii) : regex := Class (Text.ascii_eqb c).

(** One letter under [re.IGNORECASE]. *)
Definition IChr (c : ascii) : regex :=
  Class (fun d => Text.ascii_eqb (Text.lower_char d) (Text.lower_char c)).

Fixpoint Lit (s : string) : regex :=
  match s with
  | EmptyString => Eps
  | String c r => Seq (Chr c) (Lit r)
  end.

Fixpoint ILit (s : string) : regex :=
  match s with
  | EmptyString => Eps
  | String c r => Seq (IChr c) (ILit r)
  end.

Fixpoint Rep (n : nat) (r : regex) : regex :=
  match n with O => Eps | S k => Seq r (Rep k r) end.

Fixpoint Seqs (rs : list regex) : regex :=
  match rs with
  | [] => Eps
  | [r] => r
  | r :: rest => Seq r (Seqs rest)
  end.

(** [r1|r2|...]; the empty alternation matches nothing. *)
Fixpoint Alts (rs : list regex) : regex :=
  match rs with
  | [] => Class (fun _ => false)
  | [r] => r
  | r :: rest => Alt r (Alts rest)
  end.

Definition Plus (r : regex) : regex := Seq r (Star r).
(** [r{n,}] *)
Definition AtLeast (n : nat) (r : regex) : regex := Seq (Rep n r) (Star r).

Definition ws : regex := Class Text.is_space.
Definition digit : regex := Class Text.is_digit.
Definition range (a b : ascii) : regex :=
  Class (fun c => (nat_of_ascii a <=? nat_of_ascii c)%nat
                  && (nat_of_ascii c <=? nat_of_ascii b)%nat).

(** The groups captured so far, latest first, and the text left. *)
Definition captures := list (string * string).
Definition outcome := (captures * string)%type.

(** The text of [s] before its suffix [rest]. *)
Definition consumed (s rest : string) : string :=
  String.substring 0 (String.length s - String.length rest) s.

(** Greedy iteration; an iteration that consumes nothing is cut, as the
    engine of [re] does. The fuel bounds the number of iterations by the
    length of the subject. *)
Fixpoint star_with (step : outcome -> list outcome) (fuel : nat)
  (o : outcome) : list outcome :=
  match fuel with
  | O => [o]
  | S k =>
      flat_map (fun o' =>
                  if (String.length (snd o') <? String.length (snd o))%nat
                  then star_with step k o' else [])
               (step o) ++ [o]
  end.

Fixpoint rmatch (r : regex) (o : outcome) : list outcome :=
  match r with
  | Eps => [o]
  | Class p =>
      match snd o with
      | String c s' => if p c then [(fst o, s')] else []
      | EmptyString => []
      end
  | Seq r1 r2 => flat_map (rmatch r2) (rmatch r1 o)
  | Alt r1 r2 => rmatch r1 o ++ rmatch r2 o
  | Star r1 => star_with (rmatch r1) (String.length (snd o)) o
  | Group name r1 =>
      map (fun o' => ((name, consumed (snd o) (snd o')) :: fst o', snd o'))
          (rmatch r1 o)
  | Eol =>
      (* [$]: the end, or just before a final newline *)
      if Text.is_empty (snd o) || String.eqb (snd o) (String Text.nl EmptyString)
      then [o] else []
  end.

(** [re.match(r, s)]: the groups and the remainder of the preferred match
    at the start of [s]. A leading [^] of a pattern is implied here. *)
Definition match_at (r : regex) (s : string) : option outcome :=
  head (rmatch r ([], s)).

Definition matches (r : regex) (s : string) : bool :=
  match match_at r s with Some _ => true | None => false end.

(** [m.group(name)] *)
Fixpoint group (name : string) (c : captures) : option string :=
  match c with
  | [] => None
  | (n, v) :: rest => if String.eqb n name then Some v else group name rest
  end.

(** [re.search(r, s)] as a truth value *)
Fixpoint search (r : regex) (s : string) : bool :=
  matches r s ||
  match s with
  | EmptyString => false
  | String _ s' => search r s'
  end.

(** [re.sub(r, repl, s)] for a pattern that never matches the empty
    string; [repl] builds the replacement from the groups. [skip] counts
    the characters of the subject still covered by the last match. *)
Fixpoint sub_go (r : regex) (repl : captures -> string) (skip : nat)
  (s : string) : string :=
  match s with
  | EmptyString => EmptyString
  | String c s' =>
      match skip with
      | S k => sub_go r repl k s'
      | O =>
          match match_at r s with
          | Some (caps, rest) =>
              String.append (repl caps)
                (sub_go r repl (String.length (consumed s rest) - 1) s')
          | None => String c (sub_go r repl 0 s')
          end
      end
  end.

Definition sub (r : regex) (repl : captures -> string) (s : string) : string :=
  sub_go r repl 0 s.

End Re.

(** ** The JSON repair pass ([repair_qstat_json]) *)

Module Repair.
Import Text Re.

Definition dq : ascii := ascii_of_nat 34.

(** Example texts are written with apostrophes; [q] turns each into a
    double quote. *)
Fixpoint q (s : string) : string :=
  match s with
  | EmptyString => EmptyString
  | String c r => String (if ascii_eqb c "'"%char then dq else c) (q r)
  end.

(** Line 119, with Q for the double quote: [^QJobsQ\s*:\s*{] *)
Definition re_jobs_open : regex :=
  Seq (Chr dq) (Seq (Lit "Jobs") (Seq (Chr dq)
    (Seq (Star ws) (Seq (Chr ":"%char) (Seq (Star ws) (Chr "{"%char)))))).

(** Line 132: [^Q[0-9]+\.] *)
Definition re_job_start : regex :=
  Seq (Chr dq) (Seq (Plus digit) (Chr "."%char)).

(** Line 153: [^\s*Q[0-9]+\.] *)
Definition re_next_job : regex := Seq (Star ws) re_job_start.

(** [,\s*$] *)
Definition re_trailing_comma : regex :=
  Seq (Chr ","%char) (Seq (Star ws) Eol).

(** [:([0-9a-f]{32,})] *)
Definition re_long_hex : regex :=
  Seq (Chr ":"%char) (Group "1" (AtLeast 32 (Class is_lower_hex))).

(** [:([0-9]{10,})] *)
Definition re_long_num : regex :=
  Seq (Chr ":"%char) (Group "1" (AtLeast 10 digit)).

(** [,(\s*[}\]])] *)
Definition re_comma_close : regex :=
  Seq (Chr ","%char)
    (Group "1"
       (Seq (Star ws)
          (Class (fun c => ascii_eqb c "}"%char || ascii_eqb c "]"%char)))).

Definition group1 (c : captures) : string :=
  match group "1" c with Some g => g | None => EmptyString end.

(** Replacement [:Q\1Q] *)
Definition quote_group (c : captures) : string :=
  String ":"%char (String dq (String.append (group1 c) (String dq EmptyString))).

(** Replacement [\1] *)
Definition drop_comma (c : captures) : string := group1 c.

Inductive mstate := OUTSIDE_JOBS | INSIDE_JOBS | INSIDE_JOB.

Definition mstate_eqb (a b : mstate) : bool :=
  match a, b with
  | OUTSIDE_JOBS, OUTSIDE_JOBS | INSIDE_JOBS, INSIDE_JOBS
  | INSIDE_JOB, INSIDE_JOB => true
  | _, _ => false
  end.

(** The variables of the loop. *)
Record machine := Machine {
  state : mstate;
  job_brace_level : Z;
  repaired_lines : list string;
  fix_count : Z
}.

Definition closing_line : string := "        },".

(** The look-ahead of lines 152-157 over [lines[i+1 : min(i+5, len)]]. *)
Fixpoint next_job_found (ahead : list string) : bool :=
  match ahead with
  | [] => false
  | l :: rest =>
      if matches re_next_job (strip l) then true
      else if String.eqb (strip l) "}" then false
      else next_job_found rest
  end.

(** One iteration of the [for i, line in enumerate(lines)] loop; [later]
    is [lines[i+1:]]. *)
Definition step (m : machine) (line : string) (later : list string)
  : machine :=
  let stripped_line := strip line in
  if matches re_jobs_open stripped_line then
    Machine INSIDE_JOBS 0 (repaired_lines m ++ [line]) (fix_count m)
  else if mstate_eqb (state m) INSIDE_JOBS && String.eqb stripped_line "}" then
    Machine OUTSIDE_JOBS (job_brace_level m) (repaired_lines m ++ [line])
            (fix_count m)
  else if mstate_eqb (state m) INSIDE_JOBS && matches re_job_start stripped_line
  then
    let m1 :=
      if mstate_eqb (state m) INSIDE_JOB && (0 <? job_brace_level m)
      then Machine (state m) (job_brace_level m)
                   (repaired_lines m ++ [closing_line]) (fix_count m + 1)
      else m in
    Machine INSIDE_JOB 0 (repaired_lines m1 ++ [line]) (fix_count m1)
  else if mstate_eqb (state m) INSIDE_JOB then
    let lvl := job_brace_level m + (count "{"%char line - count "}"%char line) in
    if lvl =? 0 then
      if next_job_found (firstn 4 later) && negb (search re_trailing_comma line)
      then Machine INSIDE_JOBS lvl
             (repaired_lines m ++ [String.append (rstrip line) ","])
             (fix_count m + 1)
      else Machine INSIDE_JOBS lvl (repaired_lines m ++ [line]) (fix_count m)
    else Machine (state m) lvl (repaired_lines m ++ [line]) (fix_count m)
  else Machine (state m) (job_brace_level m) (repaired_lines m ++ [line])
               (fix_count m).

Fixpoint run (m : machine) (lines : list string) : machine :=
  match lines with
  | [] => m
  | line :: later => run (step m line later) later
  end.

Definition initial : machine := Machine OUTSIDE_JOBS 0 [] 0.

(** The line-based pass: the machine after the last line. *)
Definition line_pass (json_text : string) : machine :=
  run initial (split nl json_text).

(** The three global substitutions of lines 178-182. *)
Definition text_fixes (t : string) : string :=
  let t1 := sub re_long_hex quote_group t in
  let t2 := sub re_long_num quote_group t1 in
  sub re_comma_close drop_comma t2.

Definition repair_qstat_json (json_text : string) : string :=
  text_fixes (join nl (repaired_lines (line_pass json_text))).

(** Lines of an example text are written one per list element. *)
Definition text_of (ls : list string) : string := join nl (map q ls).

End Repair.

(** ** Python values, exceptions and numbers *)

Module Py.
Import Text.

(** The exception classes that occur; all of them derive from
    [Exception]. *)
Inductive exn :=
| KeyError | ValueError | TypeError | ZeroDivisionError | IndexError
| AttributeError | NameError | SyntaxError | OverflowError | OSError
| UnboundLocalError.

Definition exn_eqb (a b : exn) : bool :=
  match a, b with
  | KeyError, KeyError | ValueError, ValueError | TypeError, TypeError
  | ZeroDivisionError, ZeroDivisionError | IndexError, IndexError
  | AttributeError, AttributeError | NameError, NameError
  | SyntaxError, SyntaxError | OverflowError, OverflowError
  | OSError, OSError | UnboundLocalError, UnboundLocalError => true
  | _, _ => false
  end.

(** [except (e1, e2, ...)] *)
Definition one_of (classes : list exn) (e : exn) : bool :=
  existsb (exn_eqb e) classes.

(** [except Exception] *)
Definition any_exception (e : exn) : bool := true.

(** A computation returns, raises, or leaves the part of Python that is
    modelled here ([Beyond]); what it does then is not stated, and no
    handler of the model catches it. *)
Inductive res (A : Type) :=
| Ok (a : A)
| Raise (e : exn)
| Beyond.
Arguments Ok {A} a.
Arguments Raise {A} e.
Arguments Beyond {A}.

Definition bind {A B : Type} (x : res A) (k : A -> res B) : res B :=
  match x with
  | Ok a => k a
  | Raise e => Raise e
  | Beyond => Beyond
  end.

Declare Scope py_scope.
Delimit Scope py_scope with py.
Notation "'let!' x ':=' c 'in' k" := (bind c (fun x => k))
  (at level 10, x name, c at level 100, k at level 200) : py_scope.
Notation "'let!' ' p ':=' c 'in' k" :=
  (bind c (fun x => let 'p := x in k))
  (at level 10, p pattern, c at level 100, k at level 200) : py_scope.

(** [try: body except classes: handler] *)
Definition try_except {A : Type} (body : res A) (caught : exn -> bool)
  (handler : exn -> res A) : res A :=
  match body with
  | Raise e => if caught e then handler e else Raise e
  | r => r
  end.

(** Values as [json.loads] builds them, and floats as computed results.
    A [dict] keeps its insertion order. *)
#[warnings="-register-all"]
Inductive pyval :=
| VNone
| VBool (b : bool)
| VInt (z : Z)
| VFloat (f : spec_float)
| VStr (s : string)
| VList (l : list pyval)
| VDict (d : list (string * pyval)).

(** *** Floats: IEEE binary64 *)

Definition prec : Z := 53.
Definition emax : Z := 1024.

Definition fzero : spec_float := S754_zero false.

Definition is_finite (f : spec_float) : bool :=
  match f with
  | S754_zero _ | S754_finite _ _ _ => true
  | _ => false
  end.

Definition is_nan (f : spec_float) : bool :=
  match f with S754_nan => true | _ => false end.

Definition signed (neg : bool) (m : Z) : Z := if neg then - m else m.

(** The float nearest to an integer, ties to even. *)
Definition float_of_Z (z : Z) : spec_float :=
  binary_normalize prec emax z 0 false.

(** The float nearest to [m * 10^e], [0 <= m], ties to even: for a
    negative exponent the quotient is taken with more than [prec + 2] bits
    and a sticky last bit, which rounds as the exact quotient does. *)
Definition float_of_decimal (neg : bool) (m e : Z) : spec_float :=
  if m =? 0 then S754_zero neg
  else if 0 <=? e then
    binary_normalize prec emax (signed neg (m * 10 ^ e)) 0 false
  else
    let qd := 10 ^ (- e) in
    let k := Z.max 0 (64 + Z.log2 qd - Z.log2 m) in
    let num := m * 2 ^ k in
    let sticky := if num mod qd =? 0 then 0 else 1 in
    binary_normalize prec emax (signed neg (2 * (num / qd) + sticky))
                     (- k - 1) false.

(** [float(z)] for an [int]: [OverflowError] beyond the finite range. *)
Definition float_of_int (z : Z) : res spec_float :=
  let f := float_of_Z z in
  if is_finite f then Ok f else Raise OverflowError.

Definition digit_val (c : ascii) : Z := Z.of_nat (nat_of_ascii c) - 48.

(** [digit (_? digit)*] after its first digit: the value so far, the
    number of digits, and what follows. *)
Fixpoint scan_digits_from (acc : Z) (n : nat) (s : string)
  : Z * nat * string :=
  match s with
  | String c r =>
      if is_digit c then scan_digits_from (acc * 10 + digit_val c) (S n) r
      else if ascii_eqb c "_"%char then
        match r with
        | String d r' =>
            if is_digit d
            then scan_digits_from (acc * 10 + digit_val d) (S n) r'
            else (acc, n, s)
        | EmptyString => (acc, n, s)
        end
      else (acc, n, s)
  | EmptyString => (acc, n, s)
  end.

Definition scan_digits (s : string) : option (Z * nat * string) :=
  match s with
  | String c r =>
      if is_digit c then Some (scan_digits_from (digit_val c) 1 r) else None
  | EmptyString => None
  end.

Definition scan_sign (s : string) : bool * string :=
  match s with
  | String c r =>
      if ascii_eqb c "-"%char then (true, r)
      else if ascii_eqb c "+"%char then (false, r)
      else (false, s)
  | EmptyString => (false, s)
  end.

(** The blanks that [int] and [float] skip at both ends of a text: the
    space and the controls TAB to CR. The separators FS to US, which
    [str.strip] removes, are not among them. *)
Definition is_blank (c : ascii) : bool :=
  let n := nat_of_ascii c in
  ((9 <=? n)%nat && (n <=? 13)%nat) || (n =? 32)%nat.

Fixpoint skip_blanks (s : string) : string :=
  match s with
  | EmptyString => EmptyString
  | String c r => if is_blank c then skip_blanks r else s
  end.

Fixpoint drop_blanks (s : string) : string :=
  match s with
  | EmptyString => EmptyString
  | String c r =>
      match drop_blanks r with
      | EmptyString => if is_blank c then EmptyString else String c EmptyString
      | r' => String c r'
      end
  end.

Definition trim_blanks (s : string) : string := drop_blanks (skip_blanks s).

(** [int(s)] for a string, base ten. (The cap that recent versions put on
    the number of digits is not modelled.) *)
Definition int_of_string (s : string) : res Z :=
  let '(neg, r) := scan_sign (trim_blanks s) in
  match scan_digits r with
  | Some (z, _, EmptyString) => Ok (signed neg z)
  | _ => Raise ValueError
  end.

(** The optional exponent of a float literal. *)
Definition scan_exponent (s : string) : option (Z * string) :=
  match s with
  | String c r =>
      if ascii_eqb c "e"%char || ascii_eqb c "E"%char then
        let '(neg, r1) := scan_sign r in
        match scan_digits r1 with
        | Some (z, _, r2) => Some (signed neg z, r2)
        | None => None
        end
      else Some (0, s)
  | EmptyString => Some (0, s)
  end.

(** Mantissa digits: [digits [. [digits]]] or [. digits]; the value as an
    integer and the number of digits after the point. *)
Definition scan_mantissa (s : string) : option (Z * nat * string) :=
  match scan_digits s with
  | Some (mi, _, String c r) =>
      if ascii_eqb c "."%char then
        match scan_digits r with
        | Some (mf, nf, r') => Some (mi * 10 ^ Z.of_nat nf + mf, nf, r')
        | None => Some (mi, O, r)
        end
      else Some (mi, O, String c r)
  | Some (mi, _, EmptyString) => Some (mi, O, EmptyString)
  | None =>
      match s with
      | String c r =>
          if ascii_eqb c "."%char then
            match scan_digits r with
            | Some (mf, nf, r') => Some (mf, nf, r')
            | None => None
            end
          else None
      | EmptyString => None
      end
  end.

(** [float(s)] for a string. *)
Definition float_of_string (s : string) : res spec_float :=
  let '(neg, r) := scan_sign (trim_blanks s) in
  let w := lower r in
  if String.eqb w "inf" || String.eqb w "infinity" then Ok (S754_infinity neg)
  else if String.eqb w "nan" then Ok S754_nan
  else
    match scan_mantissa r with
    | Some (m, nf, r1) =>
        match scan_exponent r1 with
        | Some (ex, EmptyString) =>
            Ok (float_of_decimal neg m (ex - Z.of_nat nf))
        | _ => Raise ValueError
        end
    | None => Raise ValueError
    end.

(** [float(v)] *)
Definition py_float (v : pyval) : res spec_float :=
  match v with
  | VFloat f => Ok f
  | VInt z => float_of_int z
  | VBool b => Ok (float_of_Z (if b then 1 else 0))
  | VStr s => float_of_string s
  | VNone | VList _ | VDict _ => Raise TypeError
  end.

(** *** Text of values: [str] and [repr] *)

Definition digit_char (d : Z) : ascii := ascii_of_nat (Z.to_nat (48 + d)).

Fixpoint pos_digits (fuel : nat) (z : Z) (acc : string) : string :=
  match fuel with
  | O => acc
  | S k =>
      let acc' := String (digit_char (z mod 10)) acc in
      if z <? 10 then acc' else pos_digits k (z / 10) acc'
  end.

(** The decimal numeral of a natural number. *)
Definition digits_of (z : Z) : string :=
  pos_digits (S (Z.to_nat (Z.log2 z))) z EmptyString.

(** [str(z)] for an [int] *)
Definition str_of_int (z : Z) : string :=
  if z <? 0 then String "-"%char (digits_of (- z)) else digits_of z.

(** The exact value of a positive finite float [m * 2^e] as a fraction. *)
Definition fraction_of (m : positive) (e : Z) : Z * Z :=
  if 0 <=? e then (Zpos m * 2 ^ e, 1) else (Zpos m, 2 ^ (- e)).

(** [num/den < 10^d] *)
Definition below_pow10 (num den d : Z) : bool :=
  if 0 <=? d then num <? 10 ^ d * den else num * 10 ^ (- d) <? den.

(** The position of the decimal point: the [d] with
    [10^(d-1) <= num/den < 10^d]. *)
Fixpoint find_decpt (fuel : nat) (num den d : Z) : Z :=
  match fuel with
  | O => d
  | S k =>
      if below_pow10 num den (d - 1) then find_decpt k num den (d - 1)
      else if below_pow10 num den d then d
      else find_decpt k num den (d + 1)
  end.

Definition float_eqb_bits (a b : spec_float) : bool :=
  match a, b with
  | S754_finite s1 m1 e1, S754_finite s2 m2 e2 =>
      Bool.eqb s1 s2 && Pos.eqb m1 m2 && (e1 =? e2)
  | S754_zero s1, S754_zero s2 => Bool.eqb s1 s2
  | S754_infinity s1, S754_infinity s2 => Bool.eqb s1 s2
  | S754_nan, S754_nan => true
  | _, _ => false
  end.

(** The shortest decimal [c * 10^x] that reads back as the float, tried
    with 1, 2, ... significant digits; of the two neighbours at a given
    length the nearer one is tried first. *)
Fixpoint shortest_digits (todo : nat) (p : Z) (f : spec_float)
  (num den decpt : Z) : Z * Z :=
  let x := decpt - p in
  let '(n, d) := if 0 <=? x then (num, den * 10 ^ x)
                 else (num * 10 ^ (- x), den) in
  let lo := n / d in
  let r := n mod d in
  let prefer_hi := (d <? 2 * r) || ((d =? 2 * r) && Z.odd lo) in
  let c1 := if prefer_hi then lo + 1 else lo in
  let c2 := if prefer_hi then lo else lo + 1 in
  match todo with
  | O => (c1, x)
  | S k =>
      if float_eqb_bits (float_of_decimal false c1 x) f then (c1, x)
      else if float_eqb_bits (float_of_decimal false c2 x) f then (c2, x)
      else shortest_digits k (p + 1) f num den decpt
  end.

Fixpoint strip_zeros (fuel : nat) (c x : Z) : Z * Z :=
  match fuel with
  | O => (c, x)
  | S k => if (c mod 10 =? 0) && negb (c =? 0)
           then strip_zeros k (c / 10) (x + 1) else (c, x)
  end.

Fixpoint zeros (n : nat) : string :=
  match n with O => EmptyString | S k => String "0"%char (zeros k) end.

(** [repr] of a positive finite float from its shortest digits [ds] and
    the position [decpt] of the point: plain notation for
    [-4 < decpt <= 16], exponent notation otherwise. *)
Definition format_short (ds : string) (decpt : Z) : string :=
  let n := Z.of_nat (String.length ds) in
  if (-4 <? decpt) && (decpt <=? 16) then
    if decpt <=? 0 then
      String.append "0." (String.append (zeros (Z.to_nat (- decpt))) ds)
    else if n <=? decpt then
      String.append ds (String.append (zeros (Z.to_nat (decpt - n))) ".0")
    else
      String.append (String.substring 0 (Z.to_nat decpt) ds)
        (String "."%char
           (String.substring (Z.to_nat decpt) (Z.to_nat (n - decpt)) ds))
  else
    let ex := decpt - 1 in
    let head :=
      match ds with
      | String c EmptyString => String c EmptyString
      | String c r => String c (String "."%char r)
      | EmptyString => EmptyString
      end in
    let exs := digits_of (Z.abs ex) in
    let exs2 := if Z.abs ex <? 10 then String "0"%char exs else exs in
    String.append head
      (String "e"%char (String (if ex <? 0 then "-"%char else "+"%char) exs2)).

(** [repr(f)] and [str(f)] for a float *)
Definition repr_float (f : spec_float) : string :=
  match f with
  | S754_nan => "nan"
  | S754_infinity neg => if neg then "-inf" else "inf"
  | S754_zero neg => if neg then "-0.0" else "0.0"
  | S754_finite neg m e =>
      let '(num, den) := fraction_of m e in
      let decpt := find_decpt 700 num den 0 in
      let '(c, x) := shortest_digits 16 1 (S754_finite false m e) num den decpt in
      let '(c', x') := strip_zeros 20 c x in
      let ds := digits_of c' in
      let body := format_short ds (Z.of_nat (String.length ds) + x') in
      if neg then String "-"%char body else body
  end.

Definition hex_char (d : Z) : ascii :=
  if d <? 10 then digit_char d else ascii_of_nat (Z.to_nat (87 + d)).

(** [repr(s)] for a string over the ASCII range *)
Definition repr_char (quote c : ascii) : string :=
  let n := Z.of_nat (nat_of_ascii c) in
  if ascii_eqb c "\"%char then "\\"
  else if ascii_eqb c quote then String "\"%char (String c EmptyString)
  else if n =? 10 then "\n"
  else if n =? 13 then "\r"
  else if n =? 9 then "\t"
  else if (n <? 32) || (n =? 127) then
    String "\"%char (String "x"%char
      (String (hex_char (n / 16)) (String (hex_char (n mod 16)) EmptyString)))
  else String c EmptyString.

Fixpoint repr_chars (quote : ascii) (s : string) : string :=
  match s with
  | EmptyString => EmptyString
  | String c r => String.append (repr_char quote c) (repr_chars quote r)
  end.

Definition dq : ascii := ascii_of_nat 34.
Definition sq : ascii := "'"%char.

Definition repr_str (s : string) : string :=
  let quote :=
    if (0 <? count sq s) && (count dq s =? 0) then dq else sq in
  String quote (String.append (repr_chars quote s) (String quote EmptyString)).

Fixpoint join_comma (parts : list string) : string :=
  match parts with
  | [] => EmptyString
  | [p] => p
  | p :: rest => String.append p (String.append ", " (join_comma rest))
  end.

Fixpoint repr (v : pyval) : string :=
  match v with
  | VNone => "None"
  | VBool b => if b then "True" else "False"
  | VInt z => str_of_int z
  | VFloat f => repr_float f
  | VStr s => repr_str s
  | VList l =>
      String.append "[" (String.append (join_comma (map repr l)) "]")
  | VDict d =>
      String.append "{"
        (String.append
           (join_comma
              (map (fun kv => String.append (repr_str (fst kv))
                                (String.append ": " (repr (snd kv)))) d))
           "}")
  end.

(** [str(v)] *)
Definition py_str (v : pyval) : string :=
  match v with
  | VStr s => s
  | _ => repr v
  end.

(** *** Truth, dictionaries, comparisons *)

(** [bool(v)] *)
Definition truthy (v : pyval) : bool :=
  match v with
  | VNone => false
  | VBool b => b
  | VInt z => negb (z =? 0)
  | VFloat f => match f with S754_zero _ => false | _ => true end
  | VStr s => negb (is_empty s)
  | VList l => match l with [] => false | _ => true end
  | VDict d => match d with [] => false | _ => true end
  end.

Fixpoint dict_lookup (d : list (string * pyval)) (k : string) : option pyval :=
  match d with
  | [] => None
  | (k', v) :: rest => if String.eqb k' k then Some v else dict_lookup rest k
  end.

(** [d[k] = v]: an existing key keeps its place. *)
Fixpoint dict_set (d : list (string * pyval)) (k : string) (v : pyval)
  : list (string * pyval) :=
  match d with
  | [] => [(k, v)]
  | (k', v') :: rest =>
      if String.eqb k' k then (k, v) :: rest else (k', v') :: dict_set rest k v
  end.

(** [obj.get(k, default)]: only a [dict] has the method. *)
Definition get (obj : pyval) (k : string) (default : pyval) : res pyval :=
  match obj with
  | VDict d =>
      Ok (match dict_lookup d k with Some v => v | None => default end)
  | _ => Raise AttributeError
  end.

(** [v == s] for a string constant [s] *)
Definition eq_str (v : pyval) (s : string) : bool :=
  match v with VStr t => String.eqb t s | _ => false end.

(** [isinstance(v, dict)] *)
Definition is_dict (v : pyval) : bool :=
  match v with VDict _ => true | _ => false end.

(** [hash(v)] succeeds: lists and dicts are unhashable. *)
Definition hashable (v : pyval) : bool :=
  match v with VList _ | VDict _ => false | _ => true end.

(** Numbers compare exactly across [int] and [float]; [None] when a NaN
    is involved. *)
Definition compare_Z_float (z : Z) (f : spec_float) : option comparison :=
  match f with
  | S754_nan => None
  | S754_infinity neg => Some (if neg then Gt else Lt)
  | S754_zero _ => Some (z ?= 0)
  | S754_finite neg m e =>
      if 0 <=? e then Some (z ?= signed neg (Zpos m) * 2 ^ e)
      else Some (z * 2 ^ (- e) ?= signed neg (Zpos m))
  end.

Inductive num := NInt (z : Z) | NFloat (f : spec_float).

Definition as_num (v : pyval) : option num :=
  match v with
  | VBool b => Some (NInt (if b then 1 else 0))
  | VInt z => Some (NInt z)
  | VFloat f => Some (NFloat f)
  | _ => None
  end.

Definition num_compare (a b : num) : option comparison :=
  match a, b with
  | NInt x, NInt y => Some (x ?= y)
  | NInt x, NFloat g => compare_Z_float x g
  | NFloat f, NInt y => option_map CompOpp (compare_Z_float y f)
  | NFloat f, NFloat g => SFcompare f g
  end.

Definition is_Lt (c : option comparison) : bool :=
  match c with Some Lt => true | _ => false end.
Definition is_Eq (c : option comparison) : bool :=
  match c with Some Eq => true | _ => false end.

Definition str_ltb (a b : string) : bool :=
  match String.compare a b with Lt => true | _ => false end.

(** [a == b] *)
Fixpoint py_eq (a b : pyval) : bool :=
  match as_num a, as_num b with
  | Some x, Some y => is_Eq (num_compare x y)
  | _, _ =>
      match a, b with
      | VNone, VNone => true
      | VStr s, VStr t => String.eqb s t
      | VList l1, VList l2 =>
          (fix all2 (l1 l2 : list pyval) : bool :=
             match l1, l2 with
             | [], [] => true
             | x :: xs, y :: ys => py_eq x y && all2 xs ys
             | _, _ => false
             end) l1 l2
      | VDict d1, VDict d2 =>
          (length d1 =? length d2)%nat &&
          (fix each (d : list (string * pyval)) : bool :=
             match d with
             | [] => true
             | (k, v) :: rest =>
                 match dict_lookup d2 k with
                 | Some v' => py_eq v v'
                 | None => false
                 end && each rest
             end) d1
      | _, _ => false
      end
  end.

(** [a < b]: numbers with numbers, strings with strings, lists with lists
    by their first differing items; anything else is a [TypeError]. *)
Fixpoint py_lt (a b : pyval) : res bool :=
  match as_num a, as_num b with
  | Some x, Some y => Ok (is_Lt (num_compare x y))
  | _, _ =>
      match a, b with
      | VStr s, VStr t => Ok (str_ltb s t)
      | VList l1, VList l2 =>
          (fix lex (l1 l2 : list pyval) : res bool :=
             match l1, l2 with
             | [], [] => Ok false
             | [], _ :: _ => Ok true
             | _ :: _, [] => Ok false
             | x :: xs, y :: ys =>
                 if py_eq x y then lex xs ys else py_lt x y
             end) l1 l2
      | _, _ => Raise TypeError
      end
  end.

End Py.

(** ** [json.loads] over the ASCII range

    [None] stands for [JSONDecodeError]. Unicode escapes above code 255
    have no character in this model and are rejected. *)

Module Json.
Import Text Py.

Definition json_ws (c : ascii) : bool :=
  let n := nat_of_ascii c in
  (n =? 32)%nat || (n =? 9)%nat || (n =? 10)%nat || (n =? 13)%nat.

Fixpoint skip_ws (s : string) : string :=
  match s with
  | String c r => if json_ws c then skip_ws r else s
  | EmptyString => s
  end.

Definition hex_val (c : ascii) : option Z :=
  let n := Z.of_nat (nat_of_ascii c) in
  if is_digit c then Some (n - 48)
  else if (97 <=? n) && (n <=? 102) then Some (n - 87)
  else if (65 <=? n) && (n <=? 70) then Some (n - 55)
  else None.

Definition unescape_u (s : string) : option (ascii * string) :=
  match s with
  | String a (String b (String c (String d r))) =>
      match hex_val a, hex_val b, hex_val c, hex_val d with
      | Some x3, Some x2, Some x1, Some x0 =>
          if (x3 =? 0) && (x2 =? 0)
          then Some (ascii_of_nat (Z.to_nat (16 * x1 + x0)), r)
          else None
      | _, _, _, _ => None
      end
  | _ => None
  end.

(** The body of a string literal after its opening quote. *)
Fixpoint scan_string (s : string) : option (string * string) :=
  match s with
  | EmptyString => None
  | String c r =>
      if ascii_eqb c dq then Some (EmptyString, r)
      else if (nat_of_ascii c <? 32)%nat then None
      else if ascii_eqb c "\"%char then
        match r with
        | String e r' =>
            let plain (x : ascii) :=
              match scan_string r' with
              | Some (t, rest) => Some (String x t, rest)
              | None => None
              end in
            if ascii_eqb e dq then plain dq
            else if ascii_eqb e "\"%char then plain "\"%char
            else if ascii_eqb e "/"%char then plain "/"%char
            else if ascii_eqb e "b"%char then plain (ascii_of_nat 8)
            else if ascii_eqb e "f"%char then plain (ascii_of_nat 12)
            else if ascii_eqb e "n"%char then plain (ascii_of_nat 10)
            else if ascii_eqb e "r"%char then plain (ascii_of_nat 13)
            else if ascii_eqb e "t"%char then plain (ascii_of_nat 9)
            else if ascii_eqb e "u"%char then
              match r' with
              | String a (String b (String c' (String d r'')) as four) =>
                  match unescape_u (String a four) with
                  | Some (x, _) =>
                      match scan_string r'' with
                      | Some (t, rest) => Some (String x t, rest)
                      | None => None
                      end
                  | None => None
                  end
              | _ => None
              end
            else None
        | EmptyString => None
        end
      else
        match scan_string r with
        | Some (t, rest) => Some (String c t, rest)
        | None => None
        end
  end.

Fixpoint take_digits (s : string) : string * string :=
  match s with
  | String c r =>
      if is_digit c then let '(d, rest) := take_digits r in (String c d, rest)
      else (EmptyString, s)
  | EmptyString => (EmptyString, s)
  end.

(** A number literal (optional minus; 0 or a numeral without leading zero;
    optional fraction; optional exponent) and what follows it. An integer
    literal gives an [int], any other a [float]. *)
Definition scan_number (s : string) : option (pyval * string) :=
  let '(neg, r0) :=
    match s with
    | String c r => if ascii_eqb c "-"%char then (true, r) else (false, s)
    | EmptyString => (false, s)
    end in
  let '(ds, r1) := take_digits r0 in
  let '(ip, r2) :=
    match ds with
    | String c _ =>
        if ascii_eqb c "0"%char
        then ("0", String.substring 1 (String.length r0 - 1) r0)
        else (ds, r1)
    | EmptyString => (EmptyString, r0)
    end in
  if is_empty ip then None
  else
    let '(frac, r3) :=
      match r2 with
      | String c r =>
          if ascii_eqb c "."%char then
            let '(fd, rest) := take_digits r in
            if is_empty fd then (EmptyString, r2)
            else (String "."%char fd, rest)
          else (EmptyString, r2)
      | EmptyString => (EmptyString, r2)
      end in
    let '(ex, r4) :=
      match r3 with
      | String c r =>
          if ascii_eqb c "e"%char || ascii_eqb c "E"%char then
            let '(sg, r') :=
              match r with
              | String g r'' =>
                  if ascii_eqb g "-"%char || ascii_eqb g "+"%char
                  then (String g EmptyString, r'') else (EmptyString, r)
              | EmptyString => (EmptyString, r)
              end in
            let '(ed, rest) := take_digits r' in
            if is_empty ed then (EmptyString, r3)
            else (String c (String.append sg ed), rest)
          else (EmptyString, r3)
      | EmptyString => (EmptyString, r3)
      end in
    let lit := String.append (if neg then "-" else EmptyString) ip in
    if is_empty frac && is_empty ex then
      match int_of_string lit with
      | Ok z => Some (VInt z, r4)
      | _ => None
      end
    else
      match float_of_string (String.append lit (String.append frac ex)) with
      | Ok f => Some (VFloat f, r4)
      | _ => None
      end.

Definition after_prefix (p s : string) : option string :=
  if String.prefix p s
  then Some (String.substring (String.length p)
               (String.length s - String.length p) s)
  else None.

(** A value at the head of [s]; then the members of an object after its
    first key's quote position, and the items of an array. *)
Fixpoint parse_value (fuel : nat) (s : string) : option (pyval * string) :=
  match fuel with
  | O => None
  | S k =>
      match s with
      | EmptyString => None
      | String c r =>
          if ascii_eqb c dq then
            match scan_string r with
            | Some (t, rest) => Some (VStr t, rest)
            | None => None
            end
          else if ascii_eqb c "{"%char then
            match skip_ws r with
            | String c' r' =>
                if ascii_eqb c' "}"%char then Some (VDict [], r')
                else parse_members k (String c' r') []
            | EmptyString => None
            end
          else if ascii_eqb c "["%char then
            match skip_ws r with
            | String c' r' =>
                if ascii_eqb c' "]"%char then Some (VList [], r')
                else parse_items k (String c' r') []
            | EmptyString => None
            end
          else
            match after_prefix "null" s, after_prefix "true" s,
                  after_prefix "false" s with
            | Some rest, _, _ => Some (VNone, rest)
            | _, Some rest, _ => Some (VBool true, rest)
            | _, _, Some rest => Some (VBool false, rest)
            | _, _, _ =>
                match scan_number s with
                | Some x => Some x
                | None =>
                    match after_prefix "NaN" s, after_prefix "Infinity" s,
                          after_prefix "-Infinity" s with
                    | Some rest, _, _ => Some (VFloat S754_nan, rest)
                    | _, Some rest, _ => Some (VFloat (S754_infinity false), rest)
                    | _, _, Some rest => Some (VFloat (S754_infinity true), rest)
                    | _, _, _ => None
                    end
                end
            end
      end
  end

with parse_members (fuel : nat) (s : string) (acc : list (string * pyval))
  : option (pyval * string) :=
  match fuel with
  | O => None
  | S k =>
      match s with
      | String c r =>
          if ascii_eqb c dq then
            match scan_string r with
            | Some (key, r1) =>
                match skip_ws r1 with
                | String c1 r2 =>
                    if ascii_eqb c1 ":"%char then
                      match parse_value k (skip_ws r2) with
                      | Some (v, r3) =>
                          let acc' := dict_set acc key v in
                          match skip_ws r3 with
                          | String c3 r4 =>
                              if ascii_eqb c3 "}"%char
                              then Some (VDict acc', r4)
                              else if ascii_eqb c3 ","%char
                              then parse_members k (skip_ws r4) acc'
                              else None
                          | EmptyString => None
                          end
                      | None => None
                      end
                    else None
                | EmptyString => None
                end
            | None => None
            end
          else None
      | EmptyString => None
      end
  end

with parse_items (fuel : nat) (s : string) (acc : list pyval)
  : option (pyval * string) :=
  match fuel with
  | O => None
  | S k =>
      match parse_value k s with
      | Some (v, r1) =>
          match skip_ws r1 with
          | String c r2 =>
              if ascii_eqb c "]"%char then Some (VList (acc ++ [v]), r2)
              else if ascii_eqb c ","%char
              then parse_items k (skip_ws r2) (acc ++ [v])
              else None
          | EmptyString => None
          end
      | None => None
      end
  end.

Definition loads (s : string) : option pyval :=
  match parse_value (S (String.length s)) (skip_ws s) with
  | Some (v, rest) => if is_empty (skip_ws rest) then Some v else None
  | None => None
  end.

(** [len(data['Jobs'])] of a parsed text *)
Definition job_count (s : string) : option nat :=
  match loads s with
  | Some (VDict d) =>
      match dict_lookup d "Jobs" with
      | Some (VDict jobs) => Some (length jobs)
      | _ => None
      end
  | _ => None
  end.

End Json.

(** ** Routing queues ([build_routing_map], [expand_routed_queues]) *)

Module Routing.
Import Text Py.

(** [s.split(sep)[0]] *)
Definition first_field (sep : ascii) (s : string) : string :=
  match split sep s with
  | h :: _ => h
  | [] => EmptyString
  end.

(** The routing map as [build_routing_map] returns it: routing queue to
    destination names, in insertion order. *)
Definition routing_map := list (string * list string).

Fixpoint map_set (m : routing_map) (k : string) (v : list string)
  : routing_map :=
  match m with
  | [] => [(k, v)]
  | (k', v') :: rest =>
      if String.eqb k' k then (k, v) :: rest else (k', v') :: map_set rest k v
  end.

(** [x or y] *)
Definition py_or (x y : pyval) : pyval := if truthy x then x else y.

(** [v.strip()] and [v.lower()], methods of [str] only *)
Definition meth_strip (v : pyval) : res string :=
  match v with VStr s => Ok (strip s) | _ => Raise AttributeError end.
Definition meth_lower (v : pyval) : res string :=
  match v with VStr s => Ok (lower s) | _ => Raise AttributeError end.

(** The destination names of one routing queue (lines 316-322). *)
Definition dest_list (dests : pyval) : list string :=
  match dests with
  | VStr s =>
      map (fun d => first_field "@"%char (strip d))
          (filter (fun d => negb (is_empty (strip d))) (split ","%char s))
  | VList l =>
      map (fun d => first_field "@"%char (strip (py_str d)))
          (filter (fun d => negb (is_empty (strip (py_str d)))) l)
  | _ => []
  end.

(** One iteration of the loop over [queues.items()]. *)
Definition add_queue (rm : routing_map) (qname : string) (qinfo : pyval)
  : res routing_map :=
  (let! t1 := get qinfo "queue_type" VNone in
   let! t2 := (if truthy t1 then Ok t1
               else let! t := get qinfo "queue_type[]" VNone in
                    Ok (py_or t (VStr EmptyString))) in
   let! qtype := meth_strip t2 in
   if String.eqb (lower qtype) "route" then
     let! dests := get qinfo "route_destinations" VNone in
     Ok (map_set rm (first_field "@"%char qname) (dest_list dests))
   else Ok rm)%py.

Fixpoint add_queues (rm : routing_map) (items : list (string * pyval))
  : res routing_map :=
  match items with
  | [] => Ok rm
  | (qname, qinfo) :: rest =>
      (let! rm' := add_queue rm qname qinfo in add_queues rm' rest)%py
  end.

Definition build_routing_map (queues_data : pyval) : res routing_map :=
  (let! qs := get queues_data "Queue" (VDict []) in
   match py_or qs (VDict []) with
   | VDict items => add_queues [] items
   | _ => Raise AttributeError
   end)%py.

(** [(root_queue or '').split('@')[0].lower()]; [None] is Python's
    [None]. *)
Definition normalize (root_queue : option string) : string :=
  lower (first_field "@"%char
           (match root_queue with Some s => s | None => EmptyString end)).

(** [{k.lower(): [d.lower() for d in v] for k, v in routing_map.items()}]:
    of two keys that agree in lower case the later one wins. *)
Definition lower_map (rm : routing_map) : gmap string (list string) :=
  foldl (fun m kv => <[lower (fst kv) := map lower (snd kv)]> m) ∅ rm.

(** [for nxt in dests: if nxt not in visited: stack.append(nxt)]. The
    head of the list is the end of the Python list. *)
Definition push_all (visited : gset string) (dests stack : list string)
  : list string :=
  foldl (fun st nxt => if bool_decide (nxt ∈ visited) then st else nxt :: st)
        stack dests.

(** The [while stack] loop. [log] records the successive arguments of
    [visited.add]; the loop does not read it. [None]: out of fuel. *)
Fixpoint dfs (fuel : nat) (lm : gmap string (list string))
  (visited : gset string) (log stack : list string)
  : option (gset string * list string) :=
  match stack with
  | [] => Some (visited, log)
  | q :: rest =>
      match fuel with
      | O => None
      | S k =>
          if bool_decide (q ∈ visited) then dfs k lm visited log rest
          else
            let visited' := visited ∪ {[q]} in
            dfs k lm visited' (log ++ [q])
                (push_all visited' (default [] (lm !! q)) rest)
      end
  end.

Definition total_dests (lm : gmap string (list string)) : nat :=
  sum_list (map (fun kv => length (snd kv)) (map_to_list lm)).

(** Iterations that always suffice. *)
Definition enough_fuel (lm : gmap string (list string)) : nat :=
  S (size (dom lm) * S (total_dests lm)).

(** The loop with its visit log. *)
Definition expand_logged (root_queue : option string) (rm : routing_map)
  : option (gset string * list string) :=
  let root := normalize root_queue in
  if is_empty root then Some (∅, [])
  else dfs (enough_fuel (lower_map rm)) (lower_map rm) ∅ [] [root].

Definition expand_routed_queues (root_queue : option string)
  (rm : routing_map) : option (gset string) :=
  option_map fst (expand_logged root_queue rm).

(** An edge of the lower-cased map. *)
Definition edge (lm : gmap string (list string)) (a b : string) : Prop :=
  ∃ v, lm !! a = Some v ∧ b ∈ v.

(** The queue test of lines 734-740, for a job in queue [queue] when a
    queue filter is given: [true] keeps the job. *)
Definition queue_filter_keeps (queue_filter : string)
  (expanded_queue_set : option (gset string)) (queue : string) : bool :=
  match expanded_queue_set with
  | Some s => bool_decide (lower queue ∈ s)
  | None => contains (lower queue_filter) (lower queue)
  end.

End Routing.

(** ** Dates, times and the host

    [datetime] values are naive. What depends on the host (its time zone,
    its clock and its interpreter) is gathered in a [platform]; the
    functions of the [datetime] module are built on it. The clock is read
    as one instant for the whole run. *)

Module Dt.
Import Text Re Py.

Record datetime := Datetime {
  year : Z; month : Z; day : Z;
  hour : Z; minute : Z; second : Z; microsecond : Z
}.

Record platform := Platform {
  (** [time.tzname] and [time.daylight != 0] *)
  tzname : string * string;
  daylight : bool;
  (** local time of an instant given in whole seconds since the epoch;
      [None] when the conversion raises *)
  localtime : Z -> option datetime;
  (** whole seconds since the epoch of a local time *)
  mktime : datetime -> res Z;
  (** [datetime.now()] *)
  now : datetime;
  (** the builtin [eval] on a source text and the local scope it is
      called in, for the texts that [Qstat.py_eval] does not read itself:
      what the interpreter returns or raises there *)
  interpret : string -> list (string * pyval) -> res pyval
}.

Definition is_leap (y : Z) : bool :=
  ((y mod 4 =? 0) && negb (y mod 100 =? 0)) || (y mod 400 =? 0).

Definition days_in_month (y m : Z) : Z :=
  if m =? 2 then (if is_leap y then 29 else 28)
  else if (m =? 4) || (m =? 6) || (m =? 9) || (m =? 11) then 30
  else 31.

(** Days from 1970-01-01 to a date of the proleptic Gregorian calendar. *)
Definition days_from_civil (y m d : Z) : Z :=
  let y' := if m <=? 2 then y - 1 else y in
  let era := y' / 400 in
  let yoe := y' - era * 400 in
  let doy := (153 * (if 2 <? m then m - 3 else m + 9) + 2) / 5 + d - 1 in
  let doe := yoe * 365 + yoe / 4 - yoe / 100 + doy in
  era * 146097 + doe - 719468.

Definition civil_from_days (z : Z) : Z * Z * Z :=
  let z' := z + 719468 in
  let era := z' / 146097 in
  let doe := z' - era * 146097 in
  let yoe := (doe - doe / 1460 + doe / 36524 - doe / 146096) / 365 in
  let doy := doe - (365 * yoe + yoe / 4 - yoe / 100) in
  let mp := (5 * doy + 2) / 153 in
  let d := doy - (153 * mp + 2) / 5 + 1 in
  let m := if mp <? 10 then mp + 3 else mp - 9 in
  (yoe + era * 400 + (if m <=? 2 then 1 else 0), m, d).

(** Seconds from the epoch to a naive datetime read as UTC. *)
Definition seconds_of (d : datetime) : Z :=
  days_from_civil (year d) (month d) (day d) * 86400
  + hour d * 3600 + minute d * 60 + second d.

(** [int((a - b).total_seconds())]: the difference in microseconds,
    divided by [10**6] as a float, truncated toward zero. *)
Definition float_trunc (f : spec_float) : Z :=
  match f with
  | S754_finite neg m e =>
      signed neg (if 0 <=? e then Zpos m * 2 ^ e else Zpos m / 2 ^ (- e))
  | _ => 0
  end.

Definition elapsed_seconds (a b : datetime) : Z :=
  let us := (seconds_of a - seconds_of b) * 1000000
            + (microsecond a - microsecond b) in
  float_trunc (float_of_decimal (us <? 0) (Z.abs us) (-6)).

(** [dt.timestamp()] of a naive datetime *)
Definition timestamp (P : platform) (d : datetime) : res spec_float :=
  (let! s := mktime P d in
   Ok (SFadd prec emax (float_of_Z s)
         (SFdiv prec emax (float_of_Z (microsecond d))
                (float_of_Z 1000000))))%py.

(** [datetime.fromtimestamp(n)] for an [int] *)
Definition fromtimestamp (P : platform) (n : Z) : res datetime :=
  match localtime P n with
  | Some d => Ok d
  | None => Raise OverflowError
  end.

Definition two_digits (z : Z) : string :=
  if (0 <=? z) && (z <? 10) then String "0"%char (str_of_int z)
  else str_of_int z.

(** [dt.strftime('%m/%d %H:%M')] *)
Definition strftime_compact (d : datetime) : string :=
  String.append (two_digits (month d))
    (String "/"%char
       (String.append (two_digits (day d))
          (String " "%char
             (String.append (two_digits (hour d))
                (String ":"%char (two_digits (minute d))))))).

(** *** [datetime.strptime] in the C locale

    The directives are the groups that the library compiles them to; the
    whole pattern is matched ignoring case and must consume the text. *)

Definition one_of_chars (s : string) : regex :=
  Class (fun c => negb (count c s =? 0)).

Definition re_d : regex :=
  Group "d" (Alts [ Seq (Chr "3"%char) (range "0" "1");
                    Seq (range "1" "2") digit;
                    Seq (Chr "0"%char) (range "1" "9");
                    range "1" "9";
                    Seq (Chr " "%char) (range "1" "9") ]).
Definition re_H : regex :=
  Group "H" (Alts [ Seq (Chr "2"%char) (range "0" "3");
                    Seq (range "0" "1") digit;
                    digit ]).
Definition re_M : regex :=
  Group "M" (Alts [ Seq (range "0" "5") digit; digit ]).
Definition re_S : regex :=
  Group "S" (Alts [ Seq (Chr "6"%char) (range "0" "1");
                    Seq (range "0" "5") digit;
                    digit ]).
Definition re_Y : regex := Group "Y" (Rep 4 digit).
Definition re_m : regex :=
  Group "m" (Alts [ Seq (Chr "1"%char) (range "0" "2");
                    Seq (Chr "0"%char) (range "1" "9");
                    range "1" "9" ]).

Definition weekday_names : list string :=
  ["mon"; "tue"; "wed"; "thu"; "fri"; "sat"; "sun"].
Definition month_names : list string :=
  ["jan"; "feb"; "mar"; "apr"; "may"; "jun";
   "jul"; "aug"; "sep"; "oct"; "nov"; "dec"].

Definition re_a : regex := Group "a" (Alts (map ILit weekday_names)).
Definition re_b : regex := Group "b" (Alts (map ILit month_names)).

(** Longest names first, as the library orders an alternation. *)
Fixpoint insert_by_length (x : string) (l : list string) : list string :=
  match l with
  | [] => [x]
  | y :: r =>
      if (String.length y <? String.length x)%nat then x :: l
      else y :: insert_by_length x r
  end.

Definition zone_names (P : platform) : list string :=
  let base := ["utc"; "gmt"; lower (fst (tzname P))] in
  let all := if daylight P then base ++ [lower (snd (tzname P))] else base in
  fold_right insert_by_length [] all.

Definition re_Z (P : platform) : regex :=
  Group "Z" (Alts (map ILit (zone_names P))).

Definition sp : regex := Plus ws.
Definition colon : regex := Chr ":"%char.

(** The formats used by the program. *)
Inductive format :=
| PBS_plain      (* %a %b %d %H:%M:%S %Y *)
| PBS_zone       (* %a %b %d %H:%M:%S %Z %Y *)
| Year_compact.  (* %Y %m/%d %H:%M *)

Definition format_regex (P : platform) (fmt : format) : regex :=
  match fmt with
  | PBS_plain =>
      Seqs [re_a; sp; re_b; sp; re_d; sp; re_H; colon; re_M; colon; re_S;
            sp; re_Y]
  | PBS_zone =>
      Seqs [re_a; sp; re_b; sp; re_d; sp; re_H; colon; re_M; colon; re_S;
            sp; re_Z P; sp; re_Y]
  | Year_compact =>
      Seqs [re_Y; sp; re_m; Chr "/"%char; re_d; sp; re_H; colon; re_M]
  end.

Fixpoint index_of (x : string) (l : list string) (i : Z) : Z :=
  match l with
  | [] => 0
  | y :: r => if String.eqb x y then i else index_of x r (i + 1)
  end.

Definition int_group (name : string) (c : captures) (default : Z) : Z :=
  match group name c with
  | Some t => match int_of_string t with Ok z => z | _ => default end
  | None => default
  end.

Definition month_of (c : captures) : Z :=
  match group "b" c with
  | Some t => index_of (lower t) month_names 1
  | None => int_group "m" c 1
  end.

(** [datetime.strptime(s, fmt)]: a [ValueError] unless the pattern
    matches the whole text and the fields form a date and a time. *)
Definition strptime (P : platform) (s : string) (fmt : format)
  : res datetime :=
  match match_at (format_regex P fmt) s with
  | Some (c, EmptyString) =>
      let y := int_group "Y" c 1900 in
      let m := month_of c in
      let d := int_group "d" c 1 in
      let ss := int_group "S" c 0 in
      if (1 <=? y) && (d <=? days_in_month y m) && (ss <=? 59)
      then Ok (Datetime y m d (int_group "H" c 0) (int_group "M" c 0) ss 0)
      else Raise ValueError
  | _ => Raise ValueError
  end.

(** A host on UTC, for worked examples: no daylight saving, every instant
    of the years 1 to 9999 has a local time, and the clock reads
    2025-06-01 12:00:00. The examples on this host hand to [eval] only
    texts that [Qstat.py_eval] reads itself. *)
Definition utc_localtime (n : Z) : option datetime :=
  if (-62135596800 <=? n) && (n <=? 253402300799) then
    let '(y, m, d) := civil_from_days (n / 86400) in
    let r := n mod 86400 in
    Some (Datetime y m d (r / 3600) (r mod 3600 / 60) (r mod 60) 0)
  else None.

Definition utc_host : platform :=
  Platform ("UTC", "UTC") false utc_localtime
           (fun d => Ok (seconds_of d))
           (Datetime 2025 6 1 12 0 0 0)
           (fun _ _ => Beyond).

End Dt.

(** ** The functions of [pu_qstat.py] *)

Module Qstat.
Import Text Re Py Dt Routing.

(** [int(v)] *)
Definition py_int (v : pyval) : res Z :=
  match v with
  | VInt z => Ok z
  | VBool b => Ok (if b then 1 else 0)
  | VStr s => int_of_string s
  | VFloat f =>
      match f with
      | S754_nan => Raise ValueError
      | S754_infinity _ => Raise OverflowError
      | _ => Ok (float_trunc f)
      end
  | VNone | VList _ | VDict _ => Raise TypeError
  end.

(** [hr, min, sec = stringtime.split(':')] and the three [int] calls:
    only a [str] has [split]; unpacking needs exactly three parts. *)
Definition get_integers (stringtime : pyval) : res (Z * Z * Z) :=
  match stringtime with
  | VStr s =>
      match split ":"%char s with
      | [a; b; c] =>
          (let! hr := int_of_string a in
           let! mn := int_of_string b in
           let! sec := int_of_string c in
           Ok (hr, mn, sec))%py
      | _ => Raise ValueError
      end
  | _ => Raise AttributeError
  end.

Definition string_time_to_seconds (stringtime : pyval) : res Z :=
  (let! '(hr, mn, sec) := get_integers stringtime in
   Ok (hr * 60 * 60 + mn * 60 + sec))%py.

Definition placeholder : pyval := VStr "--".

Definition format_time_display (time_str : pyval) : pyval :=
  if negb (truthy time_str) || eq_str time_str "0:0:0" then placeholder
  else time_str.

Section Host.
Variable P : platform.

Definition PBS_TIME_FORMATS : list format := [PBS_plain; PBS_zone].

(** [datetime.strptime(timestr, fmt)]: the first argument must be a
    [str]. *)
Definition py_strptime (timestr : pyval) (fmt : format) : res datetime :=
  match timestr with
  | VStr s => strptime P s fmt
  | _ => Raise TypeError
  end.

(** The [for fmt in PBS_TIME_FORMATS] loop of [parse_pbs_time], followed
    by [fallback]. *)
Fixpoint try_formats (timestr : pyval) (fmts : list format)
  (fallback : res datetime) : res datetime :=
  match fmts with
  | [] => fallback
  | fmt :: rest =>
      try_except (py_strptime timestr fmt) (one_of [ValueError])
                 (fun _ => try_formats timestr rest fallback)
  end.

Definition parse_pbs_time (timestr : pyval) : res datetime :=
  if negb (truthy timestr) then Raise ValueError
  else
    try_formats timestr PBS_TIME_FORMATS
      (try_except
         (let! n := py_int timestr in fromtimestamp P n)%py
         any_exception (fun _ => Raise ValueError)).

(** [len(v)] and [v[:15]] as the handler of [format_datetime_compact]
    uses them. A [dict] of more than fifteen keys is left out: what the
    slice raises depends on the version. *)
Definition truncate15 (v : pyval) : res pyval :=
  match v with
  | VStr s =>
      Ok (if (15 <? String.length s)%nat
          then VStr (String.substring 0 15 s) else v)
  | VList l => Ok (if (15 <? length l)%nat then VList (firstn 15 l) else v)
  | VDict d => if (15 <? length d)%nat then Beyond else Ok v
  | _ => Raise TypeError
  end.

Definition format_datetime_compact (datetime_str : pyval) : res pyval :=
  if negb (truthy datetime_str) || eq_str datetime_str "--"
  then Ok placeholder
  else
    try_except
      (let! dt := parse_pbs_time datetime_str in
       Ok (VStr (strftime_compact dt)))%py
      any_exception
      (fun _ => truncate15 datetime_str).

Definition format_submitted_time (qtime_str : pyval) : res pyval :=
  format_datetime_compact qtime_str.

(** [f"{hours:02d}:{minutes:02d}:{seconds:02d}"] *)
Definition hms (total_seconds : Z) : string :=
  let hours := total_seconds / 3600 in
  let minutes := (total_seconds mod 3600) / 60 in
  let seconds := total_seconds mod 60 in
  String.append (two_digits hours)
    (String ":"%char
       (String.append (two_digits minutes)
          (String ":"%char (two_digits seconds)))).

Definition calculate_elapsed_runtime (job : pyval) : res pyval :=
  (let! state := get job "job_state" (VStr EmptyString) in
   if eq_str state "Q" then Ok placeholder
   else
     try_except
       (let! stime := get job "stime" (VStr EmptyString) in
        if negb (truthy stime) then Ok placeholder
        else
          let! start_time := parse_pbs_time stime in
          if eq_str state "R" then
            Ok (VStr (hms (elapsed_seconds (now P) start_time)))
          else
            let! obittime := get job "obittime" (VStr EmptyString) in
            if negb (truthy obittime) then Ok placeholder
            else
              let! end_time := parse_pbs_time obittime in
              Ok (VStr (hms (elapsed_seconds end_time start_time))))
       (one_of [ValueError; TypeError; AttributeError])
       (fun _ => Ok placeholder))%py.

(** *** The value classifier *)

Inductive vtype := T_empty | T_time | T_datetime | T_submitted_time
                 | T_numeric | T_string.

(** The identifier that the source returns for each type. *)
Definition vtype_name (t : vtype) : string :=
  match t with
  | T_empty => "empty" | T_time => "time" | T_datetime => "datetime"
  | T_submitted_time => "submitted_time" | T_numeric => "numeric"
  | T_string => "string"
  end.

(** Line 516: [^\d+:\d{2}:\d{2}$] *)
Definition re_duration : regex :=
  Seqs [Plus digit; colon; Rep 2 digit; colon; Rep 2 digit; Eol].

(** Line 528: [^\d{2}/\d{2}\s+\d{2}:\d{2}$] *)
Definition re_compact : regex :=
  Seqs [Rep 2 digit; Chr "/"%char; Rep 2 digit; Plus ws; Rep 2 digit; colon;
        Rep 2 digit; Eol].

Definition is_empty_value (value : pyval) : bool :=
  match value with
  | VNone => true
  | _ => eq_str value "--" || eq_str value EmptyString
  end.

(** The [for fmt in PBS_TIME_FORMATS] loop of [detect_value_type]: each
    iteration calls [parse_pbs_time] on the same text. *)
Fixpoint detect_datetime (str_value : string) (fmts : list format)
  (otherwise : res vtype) : res vtype :=
  match fmts with
  | [] => otherwise
  | _ :: rest =>
      try_except
        (let! _ := parse_pbs_time (VStr str_value) in Ok T_datetime)%py
        (one_of [ValueError; TypeError])
        (fun _ => detect_datetime str_value rest otherwise)
  end.

Definition detect_value_type (value : pyval) : res vtype :=
  if is_empty_value value then Ok T_empty
  else
    let str_value := strip (py_str value) in
    if matches re_duration str_value then Ok T_time
    else
      detect_datetime str_value PBS_TIME_FORMATS
        (if matches re_compact str_value then Ok T_submitted_time
         else
           try_except
             (let! _ := float_of_string str_value in Ok T_numeric)%py
             (one_of [ValueError; TypeError])
             (fun _ => Ok T_string)).

(** *** Sort keys *)

(** A key of [convert_value_for_sorting]: the pair [(flag, payload)]. *)
Definition sort_key := (Z * pyval)%type.

Definition valid_flag (reverse : bool) : Z := if reverse then 1 else 0.
Definition empty_flag (reverse : bool) : Z := if reverse then 0 else 1.

Definition convert_value_for_sorting (value : pyval)
  (value_type : option vtype) (reverse : bool) : res sort_key :=
  (let! value_type :=
     match value_type with
     | None => detect_value_type value
     | Some t => Ok t
     end in
   match value_type with
   | T_empty => Ok (empty_flag reverse, VInt 0)
   | _ =>
       let str_value := strip (py_str value) in
       try_except
         match value_type with
         | T_time =>
             let! s := string_time_to_seconds (VStr str_value) in
             Ok (valid_flag reverse, VInt s)
         | T_datetime =>
             let! dt := parse_pbs_time (VStr str_value) in
             let! ts := timestamp P dt in
             Ok (valid_flag reverse, VFloat ts)
         | T_submitted_time =>
             let current_year := year (now P) in
             let! dt := strptime P
                          (String.append (str_of_int current_year)
                             (String " "%char str_value))
                          Year_compact in
             let! ts := timestamp P dt in
             Ok (valid_flag reverse, VFloat ts)
         | T_numeric =>
             let! f := float_of_string str_value in
             Ok (valid_flag reverse, VFloat f)
         | _ => Ok (valid_flag reverse, VStr (lower str_value))
         end
         (one_of [ValueError; TypeError; AttributeError])
         (fun _ => Ok (empty_flag reverse, VInt 0))
   end)%py.

End Host.

(** *** The job score *)

Definition is_ident_start (c : ascii) : bool :=
  is_alpha c || ascii_eqb c "_"%char.
Definition is_ident_char (c : ascii) : bool :=
  is_ident_start c || is_digit c.

Fixpoint all_chars (p : ascii -> bool) (s : string) : bool :=
  match s with
  | EmptyString => true
  | String c r => p c && all_chars p r
  end.

Definition is_identifier (s : string) : bool :=
  match s with
  | String c r => is_ident_start c && all_chars is_ident_char r
  | EmptyString => false
  end.

(** Terms that PBS admits in a [job_sort_formula] and that are bound
    nowhere for [eval]: not in the function, not in the module, not among
    the builtins of Python. *)
Definition unbound_formula_names : list string :=
  ["job_priority"; "queue_priority"; "fairshare_perc";
   "fairshare_tree_usage"; "fairshare_factor"; "accrue_type"].

Section Interpreter.
Variable P : platform.

(** [eval(source)] in a scope of local variables. Three kinds of source
    text are read here: a decimal integer literal, a name bound in the
    local scope, and one of the unbound names above. Any other text
    (arithmetic, calls, names of builtins) is handed to the interpreter
    of the host, with the scope. *)
Definition py_eval (source : string) (locals : list (string * pyval))
  : res pyval :=
  match source with
  | String c r =>
      if all_chars is_digit source then
        if ascii_eqb c "0"%char && negb (all_chars (ascii_eqb "0"%char) r)
        then Raise SyntaxError
        else bind (int_of_string source) (fun z => Ok (VInt z))
      else if is_identifier source then
        match dict_lookup locals source with
        | Some v => Ok v
        | None =>
            if existsb (String.eqb source) unbound_formula_names
            then Raise NameError else interpret P source locals
        end
      else interpret P source locals
  | EmptyString => Raise SyntaxError
  end.

(** [eval(v)]: the argument must be text. *)
Definition eval (v : pyval) (locals : list (string * pyval)) : res pyval :=
  match v with
  | VStr source => py_eval source locals
  | _ => Raise TypeError
  end.

(** [float(rl.get(name, 0))] *)
Definition float_attr (rl : pyval) (name : string) : res pyval :=
  (let! v := get rl name (VInt 0) in
   let! f := py_float v in
   Ok (VFloat f))%py.

(** [float(string_time_to_seconds(obj.get(name, '0:0:0')))] *)
Definition float_seconds (obj : pyval) (name : string) : res pyval :=
  (let! v := get obj name (VStr "0:0:0") in
   let! s := string_time_to_seconds v in
   let! f := float_of_int s in
   Ok (VFloat f))%py.

(** [server_dict[list(server_dict.keys())[0]]] for a truthy
    [server_dict] *)
Definition first_value (server_dict : pyval) : res pyval :=
  match server_dict with
  | VDict ((_, v) :: _) => Ok v
  | VDict [] => Raise IndexError
  | _ => Raise AttributeError
  end.

(** The fourteen numeric variables, in the order of their assignments. *)
Definition numeric_names : list string :=
  ["base_score"; "score_boost"; "enable_wfp"; "wfp_factor"; "eligible_time";
   "walltime"; "project_priority"; "nodect"; "total_cpus"; "enable_backfill";
   "backfill_max"; "backfill_factor"; "enable_fifo"; "fifo_factor"].

(** The body of the [try] up to the call of [eval]: the local scope at
    that call and the formula, or [None] with the early [return 0.0]. *)
Definition formula_scope (server_data job_data : pyval)
  : res (option (pyval * list (string * pyval))) :=
  (let! server_dict := get server_data "Server" (VDict []) in
   if negb (truthy server_dict) then Ok None
   else
     let! first_server := first_value server_dict in
     let! formula_str := get first_server "job_sort_formula" (VStr "0") in
     let! rl := get job_data "Resource_List" (VDict []) in
     let! base_score := float_attr rl "base_score" in
     let! score_boost := float_attr rl "score_boost" in
     let! enable_wfp := float_attr rl "enable_wfp" in
     let! wfp_factor := float_attr rl "wfp_factor" in
     let! eligible_time := float_seconds job_data "eligible_time" in
     let! walltime := float_seconds rl "walltime" in
     let! project_priority := float_attr rl "project_priority" in
     let! nodect := float_attr rl "nodect" in
     let! total_cpus := float_attr rl "total_cpus" in
     let! enable_backfill := float_attr rl "enable_backfill" in
     let! backfill_max := float_attr rl "backfill_max" in
     let! backfill_factor := float_attr rl "backfill_factor" in
     let! enable_fifo := float_attr rl "enable_fifo" in
     let! fifo_factor := float_attr rl "fifo_factor" in
     Ok (Some
           (formula_str,
            [("server_data", server_data); ("job_data", job_data);
             ("server_dict", server_dict); ("first_server", first_server);
             ("formula_str", formula_str); ("rl", rl);
             ("base_score", base_score); ("score_boost", score_boost);
             ("enable_wfp", enable_wfp); ("wfp_factor", wfp_factor);
             ("eligible_time", eligible_time); ("walltime", walltime);
             ("project_priority", project_priority); ("nodect", nodect);
             ("total_cpus", total_cpus);
             ("enable_backfill", enable_backfill);
             ("backfill_max", backfill_max);
             ("backfill_factor", backfill_factor);
             ("enable_fifo", enable_fifo); ("fifo_factor", fifo_factor)])))%py.

Definition formula_errors : list exn :=
  [KeyError; ValueError; TypeError; ZeroDivisionError; IndexError].

Definition execute_job_sort_formula (server_data job_data : pyval)
  : res pyval :=
  try_except
    (let! sc := formula_scope server_data job_data in
     match sc with
     | None => Ok (VFloat fzero)
     | Some (formula_str, locals) => eval formula_str locals
     end)%py
    (one_of formula_errors)
    (fun _ => Ok (VFloat fzero)).

End Interpreter.

End Qstat.

(** ** The row pipeline ([print_jobs] and its helpers) *)

Module Pipeline.
Import Text Re Py Dt Routing Qstat.

(** What the program writes to its logger, by kind; the text of a message
    is not modelled beyond the names and the exception class in it. *)
Inductive log_entry :=
| Warning_server_data (e : exn)
| Warning_path_is_dict (column_spec field_path : string) (keys : list string)
| Warning_column_error (column_spec : string) (e : exn)
| Warning_job_error (jobid : string) (e : exn)
| Warning_unknown_sort (sort_by : string)
| Info_no_jobs
| Info_no_match.

(** Computations that log: what was logged stays logged when the
    computation raises. *)
Definition M (A : Type) : Type := list log_entry -> res A * list log_entry.

Definition ret {A : Type} (a : A) : M A := fun l => (Ok a, l).

Definition mbind {A B : Type} (m : M A) (k : A -> M B) : M B :=
  fun l =>
    match m l with
    | (Ok a, l') => k a l'
    | (Raise e, l') => (Raise e, l')
    | (Beyond, l') => (Beyond, l')
    end.

Definition lift {A : Type} (r : res A) : M A := fun l => (r, l).

Definition emit (e : log_entry) : M unit := fun l => (Ok tt, l ++ [e]).

Definition mtry {A : Type} (body : M A) (caught : exn -> bool)
  (handler : exn -> M A) : M A :=
  fun l =>
    match body l with
    | (Raise e, l') => if caught e then handler e l' else (Raise e, l')
    | r => r
    end.

Notation "'let*' x ':=' c 'in' k" := (mbind c (fun x => k))
  (at level 10, x name, c at level 100, k at level 200) : py_scope.
Notation "'let*' ' p ':=' c 'in' k" :=
  (mbind c (fun x => let 'p := x in k))
  (at level 10, p pattern, c at level 100, k at level 200) : py_scope.

(** A row of the report: the [job_dict] of the source. *)
Definition row := list (string * pyval).

(** *** Extra columns *)

Definition AWARD_CATEGORY_MAP : list (string * string) :=
  [("INCITE", "INCITE"); ("ALCC", "ALCC"); ("Discretionary", "DD")].

Fixpoint assoc (k : string) (l : list (string * string)) : option string :=
  match l with
  | [] => None
  | (k', v) :: r => if String.eqb k' k then Some v else assoc k r
  end.

Definition get_award_category_display (award_category : pyval) : res pyval :=
  if negb (truthy award_category) then Ok placeholder
  else
    match award_category with
    | VStr s =>
        Ok (match assoc s AWARD_CATEGORY_MAP with
            | Some d => VStr d
            | None => award_category
            end)
    | VList _ | VDict _ => Raise TypeError
    | _ => Ok award_category
    end.

(** [s.split(':', 1)] when [s] contains a colon *)
Fixpoint split_once (sep : ascii) (s : string) : string * string :=
  match s with
  | EmptyString => (EmptyString, EmptyString)
  | String c r =>
      if ascii_eqb c sep then (EmptyString, r)
      else let '(a, b) := split_once sep r in (String c a, b)
  end.

(** The field path and the display name of a column specification. *)
Definition spec_names (column_spec : string) : string * string :=
  if negb (count ":"%char column_spec =? 0) then split_once ":"%char column_spec
  else (column_spec, List.last (split "."%char column_spec) EmptyString).

Definition display_name (column_spec : string) : string :=
  snd (spec_names column_spec).

(** The walk along the keys of the path. *)
Fixpoint walk (value : pyval) (keys : list string) : pyval :=
  match keys with
  | [] => value
  | key :: rest =>
      match value with
      | VDict d =>
          match dict_lookup d key with
          | Some v => walk v rest
          | None => placeholder
          end
      | _ => placeholder
      end
  end.

Section Host.
Variable P : platform.

Definition extract_extra_column_value (job : pyval) (column_spec : string)
  : M (string * pyval) :=
  (let '(field_path, display) := spec_names column_spec in
   let value := walk job (split "."%char field_path) in
   let* value :=
     match value with
     | VDict d =>
         let* _ := (if truthy value
                    then emit (Warning_path_is_dict column_spec field_path
                                 (firstn 5 (map fst d)))
                    else ret tt) in
         ret placeholder
     | _ => ret value
     end in
   let* value :=
     (if String.eqb field_path "Resource_List.award_category"
      then lift (get_award_category_display value) else ret value) in
   let* value :=
     (if truthy value && negb (eq_str value "--") then
        let* value_type := lift (detect_value_type P value) in
        match value_type with
        | T_datetime => lift (format_datetime_compact P value)
        | _ => ret value
        end
      else ret value) in
   ret (display, value))%py.

(** The loop of [get_extra_columns_data]. [column_name] is the variable
    of that name: unbound until a first extraction has returned, and still
    holding the previous column's name when a later one fails. *)
Fixpoint extra_columns_loop (job : pyval) (specs : list string)
  (column_name : option string) (extra_data : row) : M row :=
  match specs with
  | [] => ret extra_data
  | column_spec :: rest =>
      (let* '(name, data) :=
         mtry
           (let* '(n, v) := extract_extra_column_value job column_spec in
            ret (Some n, dict_set extra_data n v))
           any_exception
           (fun e =>
              let* _ := emit (Warning_column_error column_spec e) in
              match column_name with
              | Some n => ret (column_name, dict_set extra_data n placeholder)
              | None => lift (Raise UnboundLocalError)
              end) in
       extra_columns_loop job rest name data)%py
  end.

Definition get_extra_columns_data (job : pyval) (extra_columns : list string)
  : M row :=
  extra_columns_loop job extra_columns None [].

(** *** One job *)

Record filters := Filters {
  state_filter : option string;
  queue_filter : option string;
  user_filter : option string;
  project_filter : option string;
  jobid_filter : option string
}.

(** A filter string that is given and not empty. *)
Definition given (f : option string) : option string :=
  match f with
  | Some s => if is_empty s then None else Some s
  | None => None
  end.

(** [set(jid.strip() for jid in jobid_filter.split(',') if jid.strip())] *)
Definition jobid_set_of (jobid_filter : string) : list string :=
  filter (fun j => negb (is_empty j)) (map strip (split ","%char jobid_filter)).

Definition in_strings (x : string) (l : list string) : bool :=
  existsb (String.eqb x) l.

(** [state not in set(state_filter.upper())]: the members are single
    characters; a list or a dict cannot be looked up in a set. *)
Definition state_excluded (state : pyval) (state_filter : string) : res bool :=
  match state with
  | VList _ | VDict _ => Raise TypeError
  | VStr (String c EmptyString) =>
      Ok (count c (upper state_filter) =? 0)
  | _ => Ok true
  end.

(** The queue test of lines 735-740 for a given queue filter: [true]
    when the job is to be skipped. *)
Definition queue_excluded (queue_filter : string)
  (expanded_queue_set : option (gset string)) (queue : pyval) : res bool :=
  (let! ql := meth_lower queue in
   Ok (negb (queue_filter_keeps queue_filter expanded_queue_set
               (match queue with VStr q => q | _ => EmptyString end))))%py.

Definition update (d extra : row) : row :=
  fold_left (fun acc kv => dict_set acc (fst kv) (snd kv)) extra d.

(** The body of the [try] in the loop over [jobs.items()]: [None] is
    [continue], a row is what [job_list.append] receives. *)
Definition process_job (server_data : pyval) (f : filters)
  (expanded_queue_set : option (gset string))
  (extra_columns : option (list string))
  (jobid : string) (job : pyval) : M (option row) :=
  (let* score := lift (execute_job_sort_formula P server_data job) in
   let jobid_short := first_field "."%char jobid in
   let* vl := lift (get job "Variable_List" (VDict [])) in
   let* user := lift (get vl "PBS_O_LOGNAME" (VStr "Unknown")) in
   let* state := lift (get job "job_state" (VStr "Unknown")) in
   let* queue := lift (get job "queue" (VStr "Unknown")) in
   let* rl := lift (get job "Resource_List" (VDict [])) in
   let* nodes := lift (get rl "nodect" (VInt 0)) in
   let* project := lift (get job "project" (VStr "Unknown")) in
   let* rl2 := lift (get job "Resource_List" (VDict [])) in
   let* wt := lift (get rl2 "walltime" placeholder) in
   let walltime := format_time_display wt in
   let* runtime := lift (calculate_elapsed_runtime P job) in
   let* qtime := lift (get job "qtime" (VStr EmptyString)) in
   let* submitted := lift (format_submitted_time P qtime) in
   let jobid_set :=
     match given (jobid_filter f) with
     | Some s => jobid_set_of s
     | None => []
     end in
   if match jobid_set with [] => false | _ => true end
      && negb (in_strings jobid_short jobid_set)
   then ret None
   else
     let* drop_state :=
       match given (state_filter f) with
       | Some sf =>
           if negb (String.eqb (lower sf) "all")
           then lift (state_excluded state sf) else ret false
       | None => ret false
       end in
     if drop_state then ret None
     else
       let* drop_queue :=
         match given (queue_filter f) with
         | Some qf => lift (queue_excluded qf expanded_queue_set queue)
         | None => ret false
         end in
       if drop_queue then ret None
       else
         let* drop_user :=
           match given (user_filter f) with
           | Some uf =>
               let* ul := lift (meth_lower user) in
               ret (negb (contains (lower uf) ul))
           | None => ret false
           end in
         if drop_user then ret None
         else
           let* drop_project :=
             match given (project_filter f) with
             | Some pf =>
                 let* pl := lift (meth_lower project) in
                 ret (negb (contains (lower pf) pl))
             | None => ret false
             end in
           if drop_project then ret None
           else
             let job_dict : row :=
               [("jobid", VStr jobid_short); ("user", user);
                ("state", state); ("queue", queue); ("nodes", nodes);
                ("score", score); ("project", project);
                ("walltime", walltime); ("runtime", runtime);
                ("submitted", submitted)] in
             match extra_columns with
             | Some (c :: cs) =>
                 let* extra_data := get_extra_columns_data job (c :: cs) in
                 ret (Some (update job_dict extra_data))
             | _ => ret (Some job_dict)
             end)%py.

(** The loop over [jobs.items()]: a job whose body raises is logged and
    left out, and the loop goes on. *)
Fixpoint build_job_list (body : string -> pyval -> M (option row))
  (items : list (string * pyval)) (job_list : list row) : M (list row) :=
  match items with
  | [] => ret job_list
  | (jobid, job) :: rest =>
      (let* job_list' :=
         mtry
           (let* r := body jobid job in
            match r with
            | Some job_dict => ret (job_list ++ [job_dict])
            | None => ret job_list
            end)
           any_exception
           (fun e =>
              let* _ := emit (Warning_job_error jobid e) in ret job_list) in
       build_job_list body rest job_list')%py
  end.

End Host.

(** *** Sorting and the limit *)

(** The key of one row under a given [key=] function: a plain value, or
    the pair built by [convert_value_for_sorting]. *)
Inductive key :=
| K_val (v : pyval)
| K_pair (k : sort_key).

(** [a < b] on keys. Tuples compare by their first differing items. Keys
    of the two kinds never meet in one sort. *)
Definition key_lt (a b : key) : res bool :=
  match a, b with
  | K_val x, K_val y => py_lt x y
  | K_pair (f1, p1), K_pair (f2, p2) =>
      if f1 =? f2 then (if py_eq p1 p2 then Ok false else py_lt p1 p2)
      else Ok (f1 <? f2)
  | _, _ => Beyond
  end.

Section ListSort.
Context {A : Type}.

(** [list.sort] compares with [<] only and is stable. It is modelled by
    insertion from the right: an item goes before the first item that is
    not smaller than it. For keys that [<] orders consistently every
    stable sort returns this list. *)
Fixpoint insort (x : key * A) (l : list (key * A)) : res (list (key * A)) :=
  match l with
  | [] => Ok [x]
  | y :: r =>
      (let! b := key_lt (fst y) (fst x) in
       if b then let! r' := insort x r in Ok (y :: r')
       else Ok (x :: l))%py
  end.

Fixpoint isort (l : list (key * A)) : res (list (key * A)) :=
  match l with
  | [] => Ok []
  | x :: r => (let! s := isort r in insort x s)%py
  end.

(** The keys are computed first, in list order. *)
Fixpoint with_keys (keyf : A -> res key) (l : list A)
  : res (list (key * A)) :=
  match l with
  | [] => Ok []
  | x :: r =>
      (let! k := keyf x in
       let! r' := with_keys keyf r in
       Ok ((k, x) :: r'))%py
  end.

(** [l.sort(key=keyf, reverse=reverse)]: a reverse sort reverses the
    list, sorts, and reverses again, so equal keys keep their order. *)
Definition list_sort (keyf : A -> res key) (reverse : bool) (l : list A)
  : res (list A) :=
  (let! keyed := with_keys keyf l in
   let! sorted :=
     (if reverse then let! s := isort (rev keyed) in Ok (rev s)
      else isort keyed) in
   Ok (map snd sorted))%py.

End ListSort.

(** [x[name]] on a row *)
Definition item (x : row) (name : string) : res pyval :=
  match dict_lookup x name with
  | Some v => Ok v
  | None => Raise KeyError
  end.

(** [l[:n]] *)
Definition slice_to {A : Type} (n : Z) (l : list A) : list A :=
  if 0 <=? n then firstn (Z.to_nat n) l
  else firstn (Z.to_nat (Z.of_nat (length l) + n)) l.

(** Lines 811-813: [if limit and limit > 0: job_list = job_list[:limit]] *)
Definition apply_limit {A : Type} (limit : option Z) (job_list : list A)
  : list A :=
  match limit with
  | Some n => if negb (n =? 0) && (0 <? n) then slice_to n job_list
              else job_list
  | None => job_list
  end.

Section Host2.
Variable P : platform.

Definition typed_key (reverse : bool) (v : pyval) : res key :=
  (let! k := convert_value_for_sorting P v None reverse in Ok (K_pair k))%py.

(** The [key=] function chosen by [sort_by] (lines 782-807); [None] for
    an unknown field. *)
Definition sort_key_for (sort_by : string) (extra_column_names : list string)
  (reverse : bool) : option (row -> res key) :=
  if in_strings sort_by extra_column_names then
    Some (fun x =>
            typed_key reverse
              (match dict_lookup x sort_by with
               | Some v => v
               | None => placeholder
               end))
  else if String.eqb sort_by "score" then
    Some (fun x => let! v := item x "score" in Ok (K_val v))%py
  else if String.eqb sort_by "state" then
    Some (fun x => let! v := item x "state" in Ok (K_val v))%py
  else if String.eqb sort_by "nodes" then
    Some (fun x => let! v := item x "nodes" in Ok (K_val v))%py
  else if String.eqb sort_by "user" then
    Some (fun x => let! v := item x "user" in
                   let! s := meth_lower v in Ok (K_val (VStr s)))%py
  else if String.eqb sort_by "queue" then
    Some (fun x => let! v := item x "queue" in
                   let! s := meth_lower v in Ok (K_val (VStr s)))%py
  else if String.eqb sort_by "project" then
    Some (fun x => let! v := item x "project" in
                   let! s := meth_lower v in Ok (K_val (VStr s)))%py
  else if String.eqb sort_by "jobid" then
    Some (fun x => let! v := item x "jobid" in
                   let! z := py_int v in Ok (K_val (VInt z)))%py
  else if String.eqb sort_by "walltime" then
    Some (fun x => let! v := item x "walltime" in typed_key reverse v)%py
  else if String.eqb sort_by "runtime" then
    Some (fun x => let! v := item x "runtime" in typed_key reverse v)%py
  else if String.eqb sort_by "submitted" then
    Some (fun x => let! v := item x "submitted" in typed_key reverse v)%py
  else None.

Definition sort_jobs (sort_by : option string) (reverse : bool)
  (extra_columns : option (list string)) (job_list : list row)
  : M (list row) :=
  match given sort_by with
  | None => ret job_list
  | Some field =>
      let extra_column_names :=
        match extra_columns with
        | Some cs => map display_name cs
        | None => []
        end in
      match sort_key_for field extra_column_names reverse with
      | Some keyf => lift (list_sort keyf reverse job_list)
      | None =>
          (let* _ := emit (Warning_unknown_sort field) in ret job_list)%py
      end
  end.

(** The routing-aware queue set of lines 695-704; [queues_data] is what
    [qstat_queues()] returned. *)
Definition expanded_queue_set_for (queue_filter : option string)
  (queues_data : pyval) : res (option (gset string)) :=
  match given queue_filter with
  | None => Ok None
  | Some qf =>
      try_except
        (let! routing_map := build_routing_map queues_data in
         match expand_routed_queues (Some qf) routing_map with
         | Some expanded =>
             Ok (if bool_decide (expanded = ∅) then None else Some expanded)
         | None => Beyond
         end)%py
        any_exception
        (fun _ => Ok None)
  end.

(** [print_jobs] up to the rows handed to the formatter: filtered,
    sorted, limited. [qstat_server] and [queues_data] stand for the two
    calls to the scheduler. *)
Definition print_jobs (job_data : pyval) (server_data : option pyval)
  (qstat_server : res pyval) (queues_data : pyval)
  (sort_by : option string) (reverse : bool) (f : filters)
  (limit : option Z) (extra_columns : option (list string))
  : M (list row) :=
  (let* server_data :=
     match server_data with
     | Some d => ret d
     | None =>
         mtry (lift qstat_server) any_exception
              (fun e => let* _ := emit (Warning_server_data e) in
                        ret (VDict []))
     end in
   let* jobs := lift (get job_data "Jobs" (VDict [])) in
   if negb (truthy jobs) then
     let* _ := emit Info_no_jobs in ret []
   else
     let* expanded_queue_set :=
       lift (expanded_queue_set_for (queue_filter f) queues_data) in
     let* items :=
       match jobs with
       | VDict d => ret d
       | _ => lift (Raise AttributeError)
       end in
     let* job_list :=
       build_job_list
         (process_job P server_data f expanded_queue_set extra_columns)
         items [] in
     let* job_list := sort_jobs sort_by reverse extra_columns job_list in
     let job_list := apply_limit limit job_list in
     match job_list with
     | [] => let* _ := emit Info_no_match in ret []
     | _ => ret job_list
     end)%py.

End Host2.

End Pipeline.

(** ** Job states ([get_full_state_name], [get_state_code]) *)

Module States.
Import Text Py.

Definition JOB_STATE_MAP : list (string * string) :=
  [("Q", "Queued"); ("R", "Running"); ("H", "Held"); ("W", "Waiting");
   ("T", "Transit"); ("E", "Exiting"); ("B", "Begun"); ("S", "Suspended");
   ("C", "Completed"); ("F", "Finished")].

(** [JOB_STATE_MAP.get(state_code, "Unknown")] for a code that is text *)
Definition get_full_state_name (state_code : string) : string :=
  match Pipeline.assoc state_code JOB_STATE_MAP with
  | Some name => name
  | None => "Unknown"
  end.

(** The loop over [JOB_STATE_MAP.items()]: the first code whose name
    agrees with the argument in lower case. *)
Fixpoint find_code (items : list (string * string)) (full_state_name : string)
  : string :=
  match items with
  | [] => "Unknown"
  | (code, name) :: rest =>
      if String.eqb (lower name) (lower full_state_name) then code
      else find_code rest full_state_name
  end.

Definition get_state_code (full_state_name : string) : string :=
  find_code JOB_STATE_MAP full_state_name.

End States.

(** ** The table ([print_jobs], lines 819-870)

    The header and the rows as the program logs them. The format string
    is kept as the list of its fields; [str.format] fills them from left
    to right and stops at the first one that raises. *)

Module Render.
Import Text Py Dt Qstat Pipeline.

Fixpoint spaces (n : nat) : string :=
  match n with O => EmptyString | S k => String " " (spaces k) end.

(** [<w] and [>w]: the text is never cut. *)
Definition pad_right (w : nat) (s : string) : string :=
  String.append s (spaces (w - String.length s)).
Definition pad_left (w : nat) (s : string) : string :=
  String.append (spaces (w - String.length s)) s.

(** The format specifications of the program. *)
Inductive spec :=
| Text_left (w : nat)    (* <ws *)
| Text_right (w : nat)   (* >ws *)
| Int_right (w : nat)    (* >wd *)
| Fixed2 (w : nat).      (* w.2f *)

(** [round(|x| * 100)] for a finite float [m * 2^e], ties to even. *)
Definition hundredths (m : positive) (e : Z) : Z :=
  if 0 <=? e then Zpos m * 2 ^ e * 100
  else
    let num := Zpos m * 100 in
    let den := 2 ^ (- e) in
    let q := num / den in
    let r := num mod den in
    if (den <? 2 * r) || ((den =? 2 * r) && Z.odd q) then q + 1 else q.

(** [format(f, '.2f')] *)
Definition fixed2 (f : spec_float) : string :=
  match f with
  | S754_nan => "nan"
  | S754_infinity neg => if neg then "-inf" else "inf"
  | S754_zero neg => if neg then "-0.00" else "0.00"
  | S754_finite neg m e =>
      let n := hundredths m e in
      let body :=
        String.append (str_of_int (n / 100))
          (String "." (two_digits (n mod 100))) in
      if neg then String "-" body else body
  end.

(** [format(v, spec)]: a text wants [s]; an [int] or a [bool] takes [d]
    and [f]; a [float] takes [f]; [None], a list and a dict take no
    specification at all. *)
Definition format_value (sp : spec) (v : pyval) : res string :=
  match v with
  | VNone | VList _ | VDict _ => Raise TypeError
  | VStr s =>
      match sp with
      | Text_left w => Ok (pad_right w s)
      | Text_right w => Ok (pad_left w s)
      | _ => Raise ValueError
      end
  | VInt _ | VBool _ =>
      let z := match v with
               | VInt z => z
               | VBool b => if b then 1 else 0
               | _ => 0
               end in
      match sp with
      | Int_right w => Ok (pad_left w (str_of_int z))
      | Fixed2 w =>
          (let! f := float_of_int z in Ok (pad_left w (fixed2 f)))%py
      | _ => Raise ValueError
      end
  | VFloat f =>
      match sp with
      | Fixed2 w => Ok (pad_left w (fixed2 f))
      | _ => Raise ValueError
      end
  end.

(** The ten fixed fields of [format_string], in order. *)
Definition base_fields : list (string * spec) :=
  [("jobid", Text_left 10); ("user", Text_right 14); ("state", Text_right 10);
   ("queue", Text_right 20); ("nodes", Int_right 10); ("score", Fixed2 10);
   ("walltime", Text_right 10); ("runtime", Text_right 10);
   ("submitted", Text_right 12); ("project", Text_right 24)].

(** The ten fixed titles of the header. *)
Definition base_titles : list (string * spec) :=
  [("Job ID", Text_left 10); ("User", Text_right 14); ("State", Text_right 10);
   ("Queue", Text_right 20); ("Nodes", Text_right 10); ("Score", Text_right 10);
   ("Walltime", Text_right 10); ("Runtime", Text_right 10);
   ("Submitted", Text_right 12); ("Project", Text_right 24)].

(** A mark of the replacement-field syntax. *)
Definition is_mark (c : ascii) : bool :=
  existsb (ascii_eqb c) ["{"; "}"; "["; "]"; "."; "!"; ":"]%char.

(** How [str.format] reads a column name put between braces: as the key
    of a keyword argument, as an index into the (empty) positional
    arguments when it is empty or all digits, or as something else when
    it holds a mark of the syntax. *)
Inductive field_name := Keyword | Positional | Other.

Definition read_name (name : string) : field_name :=
  if negb (all_chars (fun c => negb (is_mark c)) name) then Other
  else if all_chars is_digit name then Positional
  else Keyword.

(** One replacement field filled from the row. *)
Definition fill (job : row) (field : string * spec) : res string :=
  match read_name (fst field) with
  | Keyword =>
      (let! v := item job (fst field) in format_value (snd field) v)%py
  | Positional => Raise IndexError
  | Other => Beyond
  end.

Fixpoint fill_all (job : row) (fields : list (string * spec))
  : res (list string) :=
  match fields with
  | [] => Ok []
  | fd :: rest =>
      (let! cell := fill job fd in
       let! cells := fill_all job rest in
       Ok (cell :: cells))%py
  end.

(** [" : ".join(parts)] *)
Fixpoint join_parts (parts : list string) : string :=
  match parts with
  | [] => EmptyString
  | [p] => p
  | p :: rest => String.append p (String.append " : " (join_parts rest))
  end.

Definition extra_fields (extra_column_names : list string)
  : list (string * spec) :=
  map (fun n => (n, Text_right 15)) extra_column_names.

(** [format_string.format] on the items of the row *)
Definition format_row (extra_column_names : list string) (job : row)
  : res string :=
  (let! cells := fill_all job (base_fields ++ extra_fields extra_column_names) in
   Ok (join_parts cells))%py.

(** [header_string]: every title is a text, so nothing raises. *)
Definition title (t : string * spec) : string :=
  match snd t with
  | Text_left w => pad_right w (fst t)
  | Text_right w | Int_right w | Fixed2 w => pad_left w (fst t)
  end.

Definition header_string (extra_column_names : list string) : string :=
  join_parts (map title (base_titles ++ extra_fields extra_column_names)).

(** The loop that logs the rows: the lines logged, and the exception of
    the first row that cannot be formatted, if any. *)
Fixpoint log_rows (extra_column_names : list string) (job_list : list row)
  : res unit * list string :=
  match job_list with
  | [] => (Ok tt, [])
  | job :: rest =>
      match format_row extra_column_names job with
      | Ok line =>
          let '(r, lines) := log_rows extra_column_names rest in
          (r, line :: lines)
      | Raise e => (Raise e, [])
      | Beyond => (Beyond, [])
      end
  end.

(** Lines 819-870 for a list of rows that is not empty: the count, the
    header, the rows. *)
Definition print_table (extra_columns : option (list string))
  (job_list : list row) : res unit * list string :=
  let extra_column_names :=
    match extra_columns with
    | Some cs => map display_name cs
    | None => []
    end in
  let '(r, lines) := log_rows extra_column_names job_list in
  (r, String.append "Found "
        (String.append (str_of_int (Z.of_nat (length job_list))) " jobs:")
      :: header_string extra_column_names :: lines).

End Render.

(** ** Whole minutes of a duration ([string_time_to_minutes]) *)

Module Durations.
Import Text Py Qstat.

(** Lines 358-361: the seconds are read and dropped. *)
Definition string_time_to_minutes (stringtime : pyval) : res Z :=
  (let! '(hr, mn, sec) := get_integers stringtime in
   Ok (hr * 60 + mn))%py.

End Durations.

(** ** A host that runs one formula

    The formula of the worked examples is arithmetic on two of the
    fourteen numeric variables. On this host [eval] computes it as the
    interpreter does on floats: the quotient and the sum are those of
    IEEE binary64, and the integer literal is converted exactly. *)

Module Example.
Import Text Py Dt Qstat.

Definition wait_formula : string := "base_score + eligible_time/3600".

Definition run_wait_formula (source : string)
  (locals : list (string * pyval)) : res pyval :=
  if String.eqb source wait_formula then
    match dict_lookup locals "base_score",
          dict_lookup locals "eligible_time" with
    | Some (VFloat b), Some (VFloat t) =>
        Ok (VFloat (SFadd prec emax b
                      (SFdiv prec emax t (float_of_Z 3600))))
    | _, _ => Beyond
    end
  else Beyond.

Definition formula_host : platform :=
  Platform (tzname utc_host) (daylight utc_host) (localtime utc_host)
           (mktime utc_host) (now utc_host) run_wait_formula.

(** A server whose [job_sort_formula] is that text. *)
Definition wait_server : pyval :=
  VDict [("Server",
          VDict [("pbs01",
                  VDict [("job_sort_formula", VStr wait_formula)])])].

End Example.

(** * Properties of the embedded program *)

(** ** The repair pass: lines and substitutions *)

Module RepairFacts.
Import Text Re Repair.

Lemma split_nonempty (sep : ascii) (s : string) : split sep s <> [].
Proof. destruct s as [|c r]; simpl; [easy|]. destruct (ascii_eqb c sep); [easy|].
  destruct (split sep r); easy. Qed.

Lemma join_cons (sep : ascii) (p : string) (rest : list string) :
  rest <> [] -> join sep (p :: rest) = String.append p (String sep (join sep rest)).
Proof. destruct rest; [easy|reflexivity]. Qed.

(** Joining the lines of a text gives the text back. *)
Lemma join_split (sep : ascii) (s : string) : join sep (split sep s) = s.
Proof.
  induction s as [|c r IH]; [reflexivity|].
  simpl split. destruct (ascii_eqb c sep) eqn:E.
  - rewrite join_cons by apply split_nonempty. rewrite IH. simpl.
    apply Ascii.eqb_eq in E. now subst.
  - pose proof (split_nonempty sep r) as Hne.
    destruct (split sep r) as [|h t]; [easy|].
    destruct t as [|h' t'].
    + simpl in *. now rewrite IH.
    + change (join sep (String c h :: h' :: t'))
        with (String c (String.append h (String sep (join sep (h' :: t'))))).
      change (join sep (h :: h' :: t'))
        with (String.append h (String sep (join sep (h' :: t')))) in IH.
      now rewrite IH.
Qed.

(** Every iteration appends exactly one line: the line read, or the line
    read with a comma added. The branch that appends the closing line is
    guarded by two incompatible tests on [state]. *)
Lemma step_appends (m : machine) (line : string) (later : list string) :
  (repaired_lines (step m line later) = repaired_lines m ++ [line]
   /\ fix_count (step m line later) = fix_count m)
  \/ (repaired_lines (step m line later)
        = repaired_lines m ++ [String.append (rstrip line) ","]
      /\ fix_count (step m line later) = fix_count m + 1).
Proof.
  unfold step.
  destruct (matches re_jobs_open (strip line)); [left; easy|].
  destruct (state m) eqn:Hs; simpl.
  - left; easy.
  - destruct (String.eqb (strip line) "}"); [left; easy|].
    destruct (matches re_job_start (strip line)); left; easy.
  - destruct (job_brace_level m + (count "{" line - count "}" line) =? 0);
      [|left; easy].
    destruct (next_job_found (firstn 4 later) && negb (search re_trailing_comma line));
      [right|left]; easy.
Qed.

Lemma run_appends (ls : list string) (m : machine) :
  exists out : list string,
    repaired_lines (run m ls) = repaired_lines m ++ out
    /\ length out = length ls
    /\ fix_count m <= fix_count (run m ls)
    /\ (fix_count (run m ls) = fix_count m -> out = ls).
Proof.
  revert m. induction ls as [|line later IH]; intros m; simpl.
  - exists []. rewrite app_nil_r. repeat split; auto; lia.
  - destruct (IH (step m line later)) as (out & E & L & F & Z0).
    destruct (step_appends m line later) as [[R C]|[R C]].
    + exists (line :: out). rewrite E, R, <- app_assoc. simpl.
      repeat split; auto; try lia.
      intros H. f_equal. apply Z0. lia.
    + exists (String.append (rstrip line) "," :: out).
      rewrite E, R, <- app_assoc. simpl.
      repeat split; auto; try lia.
Qed.

(** The line pass never changes the number of lines: no line is ever
    synthesized, for any input. *)
Lemma line_pass_keeps_line_count (json_text : string) :
  length (repaired_lines (line_pass json_text)) = length (split nl json_text).
Proof.
  unfold line_pass. destruct (run_appends (split nl json_text) initial)
    as (out & E & L & _). rewrite E. simpl. exact L.
Qed.

Lemma line_pass_no_fix (json_text : string) :
  fix_count (line_pass json_text) = 0 ->
  join nl (repaired_lines (line_pass json_text)) = json_text.
Proof.
  unfold line_pass. intros H.
  destruct (run_appends (split nl json_text) initial) as (out & E & _ & _ & Z0).
  rewrite E. simpl. rewrite (Z0 H). apply join_split.
Qed.

(** A substitution whose pattern occurs nowhere returns its subject. *)
Lemma sub_no_match (r : regex) (repl : captures -> string) (s : string) :
  search r s = false -> sub r repl s = s.
Proof.
  unfold sub. induction s as [|c s' IH]; [reflexivity|].
  simpl. intros H. apply orb_false_iff in H as [Hm Hs].
  unfold matches in Hm. destruct (match_at r (String c s')); [easy|].
  now rewrite IH.
Qed.

Lemma text_fixes_no_match (t : string) :
  search re_long_hex t = false ->
  search re_long_num t = false ->
  search re_comma_close t = false ->
  text_fixes t = t.
Proof.
  intros H1 H2 H3. unfold text_fixes.
  rewrite (sub_no_match _ _ _ H1), (sub_no_match _ _ _ H2).
  now apply sub_no_match.
Qed.

End RepairFacts.

(** ** The repair pass on whole texts *)

Module RepairClaims.
Import Text Re Repair RepairFacts.

(** Job [111.x] lacks its closing brace and job [112.x] follows at once. *)
Definition missing_brace_text : string := text_of
  [ "{";
    "    'Jobs':{";
    "        '111.x':{";
    "            'job_state':'R'";
    "        '112.x':{";
    "            'job_state':'Q'";
    "        }";
    "    }";
    "}" ].

(** What the pass returns for it: a comma after the last field of
    [111.x], and no closing brace. *)
Definition missing_brace_output : string := text_of
  [ "{";
    "    'Jobs':{";
    "        '111.x':{";
    "            'job_state':'R',";
    "        '112.x':{";
    "            'job_state':'Q'";
    "        }";
    "    }";
    "}" ].

(** A well-formed container with one job whose [ctime] is a bare number
    of ten digits. *)
Definition epoch_text : string := text_of
  [ "{";
    "    'Jobs':{";
    "        '111.x':{";
    "            'Job_Name':'sim',";
    "            'job_state':'R',";
    "            'ctime':1699630815";
    "        }";
    "    }";
    "}" ].

(** A well-formed container with two jobs and none of the patterns. *)
Definition two_jobs_text : string := text_of
  [ "{";
    "    'Jobs':{";
    "        '111.x':{";
    "            'Job_Name':'sim',";
    "            'job_state':'R'";
    "        },";
    "        '112.x':{";
    "            'Job_Name':'post',";
    "            'job_state':'Q'";
    "        }";
    "    }";
    "}" ].



(** A well-formed container whose first job has one attribute. *)
Definition one_field_text : string := text_of
  [ "{";
    "    'Jobs':{";
    "        '111.x':{";
    "            'job_state':'R'";
    "        },";
    "        '112.x':{";
    "            'job_state':'Q'";
    "        }";
    "    }";
    "}" ].

(** C1, the scenario of the claim evaluated on the code: for job [111.x]
    left without its closing brace and followed at once by job [112.x],
    [repair_qstat_json] adds a comma to the last field of [111.x] and
    synthesizes no closing line; the result does not parse, so it does not
    yield two jobs. *)
Theorem repair_missing_brace_not_closed :
  repair_qstat_json missing_brace_text = missing_brace_output
  /\ ~ In closing_line (split nl (repair_qstat_json missing_brace_text))
  /\ length (split nl (repair_qstat_json missing_brace_text))
     = length (split nl missing_brace_text)
  /\ Json.loads (repair_qstat_json missing_brace_text) = None
  /\ Json.job_count (repair_qstat_json missing_brace_text) <> Some 2%nat.
Proof.
  split; [vm_compute; reflexivity|].
  split.
  { vm_compute. intros H.
    repeat (destruct H as [H|H]; [discriminate H|]). exact H. }
  split; [vm_compute; reflexivity|].
  split; [vm_compute; reflexivity|].
  vm_compute. discriminate.
Qed.


(** The same comma after the only attribute of a job does no harm: the
    last substitution takes it away again, and the text comes back as it
    was although one fix is counted. *)
Lemma repair_restores_added_comma :
  fix_count (line_pass one_field_text) = 1
  /\ repair_qstat_json one_field_text = one_field_text.
Proof. split; vm_compute; reflexivity. Qed.

(** A text that parses, with one job, is changed by the substitutions,
    which put quotes around the ten-digit number. *)
Lemma repair_changes_well_formed_text :
  Json.job_count epoch_text = Some 1%nat
  /\ repair_qstat_json epoch_text <> epoch_text
  /\ Json.loads (repair_qstat_json epoch_text) <> Json.loads epoch_text.
Proof.
  repeat split; vm_compute; discriminate || reflexivity.
Qed.

(** When the line pass applies no fix and none of the three global
    patterns occurs in the text, [repair_qstat_json] returns its input
    character for character. *)
Lemma repair_identity_without_pattern (json_text : string) :
  fix_count (line_pass json_text) = 0 ->
  search re_long_hex json_text = false ->
  search re_long_num json_text = false ->
  search re_comma_close json_text = false ->
  repair_qstat_json json_text = json_text
  /\ Json.loads (repair_qstat_json json_text) = Json.loads json_text.
Proof.
  intros Hfix H1 H2 H3.
  assert (E : repair_qstat_json json_text = json_text).
  { unfold repair_qstat_json. rewrite (line_pass_no_fix _ Hfix).
    now apply text_fixes_no_match. }
  now rewrite E.
Qed.

Lemma repair_identity_without_pattern_witness :
  Json.job_count two_jobs_text = Some 2%nat
  /\ repair_qstat_json two_jobs_text = two_jobs_text
  /\ Json.loads (repair_qstat_json two_jobs_text) = Json.loads two_jobs_text.
Proof.
  split; [vm_compute; reflexivity|].
  apply (repair_identity_without_pattern two_jobs_text);
    vm_compute; reflexivity.
Defined.

End RepairClaims.

(** ** The traversal: termination, visit log, reachability *)

Module RoutingFacts.
Import Text Py Routing.

Section Traversal.
Variable lm : gmap string (list string).

Lemma push_all_elem (visited : gset string) (dests stack : list string)
  (x : string) :
  x ∈ push_all visited dests stack
  ↔ x ∈ stack ∨ (x ∈ dests ∧ x ∉ visited).
Proof.
  unfold push_all. revert stack.
  induction dests as [|d ds IH]; intros stack; simpl.
  - split; [auto|]. intros [H|[H _]]; [done|]. by apply elem_of_nil in H.
  - rewrite IH. case_bool_decide as Hd.
    + rewrite elem_of_cons. split.
      * intros [H|[H1 H2]]; auto.
      * intros [H|[[->|H1] H2]]; auto. done.
    + rewrite !elem_of_cons. split.
      * intros [[->|H]|[H1 H2]]; auto.
      * intros [H|[[->|H1] H2]]; auto.
Qed.

Lemma push_all_length (visited : gset string) (dests stack : list string) :
  (length (push_all visited dests stack) ≤ length stack + length dests)%nat.
Proof.
  unfold push_all. revert stack.
  induction dests as [|d ds IH]; intros stack; simpl; [lia|].
  case_bool_decide.
  - specialize (IH stack). lia.
  - specialize (IH (d :: stack)). simpl in IH. lia.
Qed.

Lemma sum_list_elem (l : list nat) (n : nat) :
  n ∈ l → (n ≤ sum_list l)%nat.
Proof.
  induction l as [|a l IH]; [by intros ?%elem_of_nil|].
  intros [->|H]%elem_of_cons; simpl; [lia|]. specialize (IH H). lia.
Qed.

Lemma lookup_total_dests (q : string) (v : list string) :
  lm !! q = Some v → (length v ≤ total_dests lm)%nat.
Proof.
  intros H. unfold total_dests. apply sum_list_elem.
  apply list_elem_of_fmap. exists (q, v). split; [done|].
  by apply elem_of_map_to_list.
Qed.

(** A measure that every iteration lowers. *)
Definition measure (visited : gset string) (stack : list string) : nat :=
  size (dom lm ∖ visited) * S (total_dests lm) + length stack.

Lemma dfs_terminates (fuel : nat) :
  ∀ visited log stack,
    (measure visited stack ≤ fuel)%nat →
    is_Some (dfs fuel lm visited log stack).
Proof.
  unfold measure. induction fuel as [|k IH]; intros visited log stack Hm.
  - destruct stack; simpl in *; [eauto|lia].
  - destruct stack as [|q rest]; simpl; [eauto|].
    case_bool_decide as Hq.
    + apply IH. simpl in Hm. lia.
    + apply IH. simpl in Hm.
      destruct (lm !! q) as [v|] eqn:Hl; simpl.
      * pose proof (push_all_length (visited ∪ {[q]}) v rest) as Hp.
        pose proof (lookup_total_dests q v Hl) as Hv.
        assert (Hs : (size (dom lm ∖ (visited ∪ {[q]}))
                      < size (dom lm ∖ visited))%nat).
        { apply subset_size. apply strict_spec_alt. split; [set_solver|].
          intros Heq. assert (Hin : q ∈ dom lm ∖ visited).
          { apply elem_of_difference. split; [|done].
            apply elem_of_dom. eauto. }
          rewrite <- Heq in Hin. set_solver. }
        nia.
      * assert (Hs : dom lm ∖ (visited ∪ {[q]}) = dom lm ∖ visited).
        { apply set_eq. intros x. rewrite !elem_of_difference, elem_of_union,
            elem_of_singleton. split; [intros [? ?]; split; auto|].
          intros [Hx ?]. split; [done|]. intros [?| ->]; [done|].
          apply elem_of_dom in Hx as [? ?]. congruence. }
        rewrite Hs. unfold push_all. simpl. lia.
Qed.

(** What a finished run returns, from any state of the loop. *)
Lemma dfs_spec (fuel : nat) :
  ∀ visited log stack s log',
    dfs fuel lm visited log stack = Some (s, log') →
    visited ⊆ s
    ∧ (∀ q, q ∈ stack → q ∈ s)
    ∧ (∀ x, x ∈ s → x ∈ visited ∨ ∃ q, q ∈ stack ∧ rtc (edge lm) q x)
    ∧ (∃ new, log' = log ++ new ∧ NoDup new
              ∧ ∀ x, x ∈ new ↔ x ∈ s ∧ x ∉ visited)
    ∧ ((∀ a b, a ∈ visited → edge lm a b → b ∈ visited ∨ b ∈ stack) →
       ∀ a b, a ∈ s → edge lm a b → b ∈ s).
Proof.
  induction fuel as [|k IH]; intros visited log stack s log' H.
  - destruct stack; simpl in H; [|done]. injection H as <- <-.
    split_and!; [done|by intros ? ?%elem_of_nil|auto| |].
    + exists []. rewrite app_nil_r. split_and!; [done|constructor|].
      intros x. split; [by intros ?%elem_of_nil|tauto].
    + intros Hc a b Ha He. destruct (Hc a b Ha He) as [?|?%elem_of_nil]; done.
  - destruct stack as [|q rest]; simpl in H.
    { injection H as <- <-.
      split_and!; [done|by intros ? ?%elem_of_nil|auto| |].
      + exists []. rewrite app_nil_r. split_and!; [done|constructor|].
        intros x. split; [by intros ?%elem_of_nil|tauto].
      + intros Hc a b Ha He.
        destruct (Hc a b Ha He) as [?|?%elem_of_nil]; done. }
    case_bool_decide as Hq.
    + destruct (IH _ _ _ _ _ H) as (Hsub & Hst & Hsound & Hlog & Hclos).
      split_and!; [done| | |done|].
      * intros x [->|Hx]%elem_of_cons; [by apply Hsub|by apply Hst].
      * intros x Hx. destruct (Hsound x Hx) as [?|(q' & Hq' & Hr)]; [by left|].
        right. exists q'. split; [by apply elem_of_cons; right|done].
      * intros Hc. apply Hclos. intros a b Ha He.
        destruct (Hc a b Ha He) as [?|[->|?]%elem_of_cons]; auto.
    + destruct (IH _ _ _ _ _ H) as (Hsub & Hst & Hsound & Hlog & Hclos).
      assert (Hqs : q ∈ s) by set_solver.
      split_and!.
      * set_solver.
      * intros x [->|Hx]%elem_of_cons; [done|].
        apply Hst. apply push_all_elem. by left.
      * intros x Hx. destruct (Hsound x Hx) as [Hv|(q' & Hq' & Hr)].
        { apply elem_of_union in Hv as [?| ->%elem_of_singleton]; [by left|].
          right. exists q. split; [by apply elem_of_cons; left|done]. }
        right. apply push_all_elem in Hq' as [Hin|[Hin _]].
        { exists q'. split; [by apply elem_of_cons; right|done]. }
        exists q. split; [by apply elem_of_cons; left|].
        apply rtc_l with q'; [|done].
        destruct (lm !! q) as [v|] eqn:Hl; simpl in Hin;
          [|by apply elem_of_nil in Hin].
        by exists v.
      * destruct Hlog as (new & -> & Hnd & Hnew).
        exists (q :: new). rewrite <- app_assoc. split_and!; [done| |].
        { constructor; [|done]. intros Hin%Hnew. set_solver. }
        intros x. rewrite elem_of_cons, Hnew. split.
        { intros [->|[? ?]]; [done|]. set_solver. }
        intros [Hx Hnv]. destruct (decide (x = q)) as [->|Hne]; [by left|].
        right. set_solver.
      * intros Hc. apply Hclos. intros a b Ha He.
        apply elem_of_union in Ha as [Ha| ->%elem_of_singleton].
        { destruct (Hc a b Ha He) as [?|[->|?]%elem_of_cons].
          - left. set_solver.
          - left. set_solver.
          - right. apply push_all_elem. by left. }
        destruct He as (v & Hl & Hb).
        destruct (decide (b ∈ visited ∪ {[q]})) as [?|Hn]; [by left|].
        right. apply push_all_elem. right. rewrite Hl. simpl. done.
Qed.

End Traversal.

(** The result of the function for a root that is not empty after
    normalization. *)
Lemma expand_logged_spec (root_queue : option string) (rm : routing_map) :
  normalize root_queue ≠ EmptyString →
  ∃ s log,
    expand_logged root_queue rm = Some (s, log)
    ∧ NoDup log
    ∧ (∀ x, x ∈ log ↔ x ∈ s)
    ∧ (∀ x, x ∈ s ↔ rtc (edge (lower_map rm)) (normalize root_queue) x).
Proof.
  intros Hne. unfold expand_logged.
  destruct (is_empty (normalize root_queue)) eqn:He.
  { destruct (normalize root_queue); [done|discriminate]. }
  set (lm := lower_map rm). set (root := normalize root_queue).
  destruct (dfs_terminates lm (enough_fuel lm) ∅ [] [root]) as [[s log] Hd].
  { unfold measure, enough_fuel. simpl.
    assert (dom lm ∖ (∅ : gset string) = dom lm) as -> by set_solver. lia. }
  exists s, log. split; [done|].
  destruct (dfs_spec lm _ _ _ _ _ _ Hd) as (_ & Hst & Hsound & Hlog & Hclos).
  destruct Hlog as (new & -> & Hnd & Hnew). simpl.
  split_and!; [done| |].
  - intros x. rewrite Hnew. set_solver.
  - intros x. split.
    + intros Hx. destruct (Hsound x Hx) as [?|(q & Hq & Hr)]; [set_solver|].
      apply list_elem_of_singleton in Hq as ->. done.
    + intros Hr. assert (Hroot : root ∈ s).
      { apply Hst. by apply list_elem_of_singleton. }
      assert (Hc : ∀ a b, a ∈ s → edge lm a b → b ∈ s).
      { apply Hclos. set_solver. }
      clear -Hr Hroot Hc. induction Hr as [|a b c Hab _ IH]; [done|].
      apply IH. by apply (Hc a b).
Qed.

End RoutingFacts.

(** ** The expansion of a root queue *)

Module RoutingClaims.
Import Text Py Routing RoutingFacts.

(** Two routing queues that send to each other. *)
Definition cyclic_map : routing_map := [("A", ["B"]); ("B", ["A"])].





(** On the cycle A to B, B to A the loop visits [a] then [b] and stops. *)
Lemma expand_cycle_log :
  option_map snd (expand_logged (Some "A") cyclic_map) = Some ["a"; "b"].
Proof. vm_compute. reflexivity. Qed.

End RoutingClaims.

(** ** The job score: what reaches [eval], what escapes the handler *)

Module ScoreClaims.
Import Text Py Dt Qstat.

(** A server whose [job_sort_formula] is the given text. *)
Definition server_with (formula : string) : pyval :=
  VDict [("Server",
          VDict [("pbs01", VDict [("job_sort_formula", VStr formula)])])].

Definition local_names : list string :=
  ["server_data"; "job_data"; "server_dict"; "first_server"; "formula_str";
   "rl"] ++ numeric_names.

Ltac step_bind H :=
  match type of H with
  | bind ?c _ = Ok _ =>
      let E := fresh "E" in
      destruct c eqn:E; simpl in H; [|discriminate H|discriminate H]
  | (if ?b then _ else _) = Ok _ =>
      destruct b; simpl in H; [discriminate H|]
  end.

Lemma float_attr_is_float (rl : pyval) (name : string) (v : pyval) :
  float_attr rl name = Ok v → ∃ x, v = VFloat x.
Proof.
  unfold float_attr. intros H. repeat step_bind H.
  injection H as <-. eauto.
Qed.

Lemma float_seconds_is_float (obj : pyval) (name : string) (v : pyval) :
  float_seconds obj name = Ok v → ∃ x, v = VFloat x.
Proof.
  unfold float_seconds. intros H. repeat step_bind H.
  injection H as <-. eauto.
Qed.

(** The scope handed to [eval]: its names, in order, and the kind of
    value under each of the fourteen numeric names. *)
Lemma formula_scope_shape (server_data job_data formula_str : pyval)
  (locals : list (string * pyval)) :
  formula_scope server_data job_data = Ok (Some (formula_str, locals)) →
  map fst locals = local_names
  ∧ dict_lookup locals "server_data" = Some server_data
  ∧ dict_lookup locals "job_data" = Some job_data
  ∧ dict_lookup locals "formula_str" = Some formula_str
  ∧ ∀ n, In n numeric_names → ∃ x, dict_lookup locals n = Some (VFloat x).
Proof.
  unfold formula_scope. intros H.
  step_bind H. destruct (negb (truthy a)); simpl in H; [discriminate H|].
  do 2 step_bind H. step_bind H.
  repeat step_bind H.
  injection H as <- <-.
  repeat match goal with
         | E : float_attr _ _ = Ok _ |- _ =>
             apply float_attr_is_float in E as [? ->]
         | E : float_seconds _ _ = Ok _ |- _ =>
             apply float_seconds_is_float in E as [? ->]
         end.
  split_and!; try reflexivity.
  intros n Hn. simpl in Hn.
  repeat (destruct Hn as [<-|Hn]; [simpl; eauto|]). destruct Hn.
Qed.

Section Host.
Variable P : platform.

Lemma eval_local_name (n : string) (locals : list (string * pyval))
  (v : pyval) :
  In n local_names → dict_lookup locals n = Some v →
  py_eval P n locals = Ok v.
Proof.
  intros Hn Hv. simpl in Hn.
  repeat (destruct Hn as [<-|Hn];
          [unfold py_eval; simpl; simpl in Hv; rewrite Hv; reflexivity|]).
  destruct Hn.
Qed.

End Host.

(** The values of the fourteen numeric variables in the scope that
    reaches [eval]. *)
Definition numeric_values (server_data job_data : pyval)
  : option (list (option pyval)) :=
  match formula_scope server_data job_data with
  | Ok (Some (_, locals)) => Some (map (dict_lookup locals) numeric_names)
  | _ => None
  end.

Definition bare_job : pyval := VDict [].
Definition debug_job : pyval := VDict [("queue", VStr "debug")].

(** C2 as stated fails: with the formula text [job_data], two jobs that
    agree on all fourteen numeric variables get different results, each
    its own job dictionary; the result is not computed from the fixed
    numeric variables alone. *)
Lemma formula_reaches_other_locals :
  numeric_values (server_with "job_data") bare_job
  = Some (map (fun _ => Some (VFloat fzero)) numeric_names)
  ∧ numeric_values (server_with "job_data") debug_job
    = numeric_values (server_with "job_data") bare_job
  ∧ execute_job_sort_formula utc_host (server_with "job_data") bare_job
    = Ok bare_job
  ∧ execute_job_sort_formula utc_host (server_with "job_data") debug_job
    = Ok debug_job
  ∧ execute_job_sort_formula utc_host (server_with "job_data") bare_job
    ≠ execute_job_sort_formula utc_host (server_with "job_data") debug_job.
Proof. split_and!; vm_compute; (reflexivity || discriminate). Qed.

(** C2, amended: [execute_job_sort_formula] hands the formula text to
    Python's general evaluator in the function's own local scope. That
    scope binds the fourteen numeric variables, each to a float, and also
    [server_data], [job_data], [server_dict], [first_server],
    [formula_str] and [rl]; the result is what the evaluator returns,
    with [0.0] in place of the five caught exception classes. A formula
    that is the name of any of these locals evaluates to the value bound
    to it: a float for the fourteen, the whole job dictionary for
    [job_data]. *)
Theorem formula_evaluated_in_local_scope (P : platform)
  (server_data job_data : pyval) (formula : string)
  (locals : list (string * pyval)) :
  formula_scope server_data job_data = Ok (Some (VStr formula, locals)) →
  execute_job_sort_formula P server_data job_data
  = try_except (py_eval P formula locals) (one_of formula_errors)
               (fun _ => Ok (VFloat fzero))
  ∧ map fst locals = local_names
  ∧ (∀ n, In n numeric_names → ∃ x, dict_lookup locals n = Some (VFloat x))
  ∧ dict_lookup locals "job_data" = Some job_data
  ∧ (∀ v, In formula local_names → dict_lookup locals formula = Some v →
          execute_job_sort_formula P server_data job_data = Ok v).
Proof.
  intros H.
  assert (E : execute_job_sort_formula P server_data job_data
              = try_except (py_eval P formula locals) (one_of formula_errors)
                           (fun _ => Ok (VFloat fzero))).
  { unfold execute_job_sort_formula. rewrite H. reflexivity. }
  destruct (formula_scope_shape _ _ _ _ H) as (Hn & _ & Hj & _ & Hf).
  split_and!; try done.
  intros v Hin Hv. rewrite E, (eval_local_name P _ _ _ Hin Hv). reflexivity.
Qed.

Definition sample_job : pyval :=
  VDict [("Resource_List",
          VDict [("base_score", VStr "10"); ("nodect", VInt 4)]);
         ("eligible_time", VStr "02:00:00")].

Lemma formula_evaluated_in_local_scope_witness :
  ∃ locals,
    formula_scope (server_with "eligible_time") sample_job
    = Ok (Some (VStr "eligible_time", locals))
    ∧ execute_job_sort_formula utc_host (server_with "eligible_time")
        sample_job
      = Ok (VFloat (float_of_Z 7200)).
Proof.
  eexists. split; [vm_compute; reflexivity|].
  eapply (formula_evaluated_in_local_scope utc_host
            (server_with "eligible_time") sample_job "eligible_time").
  - vm_compute; reflexivity.
  - vm_compute. tauto.
  - vm_compute; reflexivity.
Defined.

(** A failure of one of the five caught classes gives the score [0.0]. *)
Lemma caught_failure_scores_zero (P : platform)
  (server_data job_data : pyval) (e : exn) :
  formula_scope server_data job_data = Raise e →
  one_of formula_errors e = true →
  execute_job_sort_formula P server_data job_data = Ok (VFloat fzero).
Proof.
  intros H Hc. unfold execute_job_sort_formula. rewrite H. simpl.
  unfold try_except. simpl in Hc. now rewrite Hc.
Qed.

(** Without a server entry the score is [0.0]. *)
Lemma missing_server_scores_zero (P : platform) (job_data : pyval) :
  execute_job_sort_formula P (VDict []) job_data = Ok (VFloat fzero).
Proof. reflexivity. Qed.

(** C3, the code at failing inputs: a job whose [eligible_time] is a
    number instead of text makes [split] fail with an [AttributeError],
    which is not among the five caught classes; it leaves
    [execute_job_sort_formula] instead of the score [0.0]. The same
    happens when [Resource_List] is [null]; and a formula that names the
    PBS term [job_priority], which is not a variable of the function,
    fails with a [NameError] that is not caught either. *)
Theorem score_attribute_error_escapes (P : platform) :
  execute_job_sort_formula P (server_with "base_score")
    (VDict [("eligible_time", VInt 3600)]) = Raise AttributeError
  ∧ execute_job_sort_formula P (server_with "base_score")
      (VDict [("Resource_List", VNone)]) = Raise AttributeError
  ∧ execute_job_sort_formula P (server_with "job_priority") (VDict [])
    = Raise NameError
  ∧ one_of formula_errors AttributeError = false
  ∧ one_of formula_errors NameError = false.
Proof. split_and!; reflexivity. Qed.

End ScoreClaims.

(** ** Logging computations do not read the log *)

Module PipelineFacts.
Import Text Re Py Dt Routing Qstat Pipeline.

(** A computation is uniform when its outcome and what it logs do not
    depend on what was logged before. *)
Definition uniform {A : Type} (m : M A) : Prop :=
  ∃ r w, ∀ l, m l = (r, l ++ w).

Lemma uniform_ret {A : Type} (a : A) : uniform (ret a).
Proof. exists (Ok a), []. intros l. unfold ret. by rewrite app_nil_r. Qed.

Lemma uniform_lift {A : Type} (r : res A) : uniform (lift r).
Proof. exists r, []. intros l. unfold lift. by rewrite app_nil_r. Qed.

Lemma uniform_emit (e : log_entry) : uniform (emit e).
Proof. exists (Ok tt), [e]. done. Qed.

Lemma uniform_bind {A B : Type} (m : M A) (k : A → M B) :
  uniform m → (∀ a, uniform (k a)) → uniform (mbind m k).
Proof.
  intros (r & w & Hm) Hk. destruct r as [a|e|].
  - destruct (Hk a) as (r' & w' & Hka). exists r', (w ++ w').
    intros l. unfold mbind. rewrite Hm, Hka. by rewrite app_assoc.
  - exists (Raise e), w. intros l. unfold mbind. by rewrite Hm.
  - exists Beyond, w. intros l. unfold mbind. by rewrite Hm.
Qed.

Lemma uniform_mtry {A : Type} (m : M A) (caught : exn → bool)
  (handler : exn → M A) :
  uniform m → (∀ e, uniform (handler e)) → uniform (mtry m caught handler).
Proof.
  intros (r & w & Hm) Hh. destruct r as [a|e|].
  - exists (Ok a), w. intros l. unfold mtry. by rewrite Hm.
  - destruct (caught e) eqn:Hc.
    + destruct (Hh e) as (r' & w' & Hhe). exists r', (w ++ w').
      intros l. unfold mtry. rewrite Hm, Hc, Hhe. by rewrite app_assoc.
    + exists (Raise e), w. intros l. unfold mtry. by rewrite Hm, Hc.
  - exists Beyond, w. intros l. unfold mtry. by rewrite Hm.
Qed.

Ltac uniform_step :=
  first
    [ apply uniform_ret | apply uniform_lift | apply uniform_emit
    | apply uniform_bind; [|intros ?]
    | apply uniform_mtry; [|intros ?]
    | match goal with
      | |- uniform (if ?b then _ else _) => destruct b
      | |- uniform (match ?x with _ => _ end) => destruct x
      | |- uniform (let (_, _) := ?x in _) => destruct x
      end ].

Section Host.
Variable P : platform.

Lemma uniform_extract (job : pyval) (column_spec : string) :
  uniform (extract_extra_column_value P job column_spec).
Proof. unfold extract_extra_column_value. repeat uniform_step. Qed.

Lemma uniform_extra_columns_loop (job : pyval) (specs : list string) :
  ∀ column_name extra_data,
    uniform (extra_columns_loop P job specs column_name extra_data).
Proof.
  induction specs as [|c rest IH]; intros column_name extra_data; simpl.
  - apply uniform_ret.
  - apply uniform_bind.
    + apply uniform_mtry.
      * apply uniform_bind; [apply uniform_extract|].
        intros [n v]. apply uniform_ret.
      * intros e. repeat uniform_step.
    + intros [name data]. apply IH.
Qed.

Lemma uniform_process_job (server_data : pyval) (f : filters)
  (eqs : option (gset string)) (extra_columns : option (list string))
  (jobid : string) (job : pyval) :
  uniform (process_job P server_data f eqs extra_columns jobid job).
Proof.
  unfold process_job.
  repeat first
    [ apply uniform_extra_columns_loop
    | progress unfold get_extra_columns_data
    | uniform_step ].
Qed.

End Host.

Section Loop.
Variable body : string → pyval → M (option row).
Hypothesis body_uniform : ∀ jobid job, uniform (body jobid job).

Lemma uniform_build_job_list (items : list (string * pyval)) :
  ∀ job_list, uniform (build_job_list body items job_list).
Proof.
  induction items as [|[jobid job] rest IH]; intros job_list; simpl.
  - apply uniform_ret.
  - apply uniform_bind; [|intros ?; apply IH].
    apply uniform_mtry.
    + apply uniform_bind; [apply body_uniform|].
      intros [r|]; apply uniform_ret.
    + intros e. repeat uniform_step.
Qed.

Lemma at_log {A : Type} (m : M A) (l : list log_entry) :
  uniform m → m l = (fst (m []), l ++ snd (m [])).
Proof.
  intros (r & w & H). rewrite (H l), (H []). reflexivity.
Qed.

(** The loop over a concatenation: the second part starts from the rows
    and the log that the first part left. *)
Lemma build_job_list_app (pre post : list (string * pyval)) :
  ∀ job_list l rows l1,
    build_job_list body pre job_list l = (Ok rows, l1) →
    build_job_list body (pre ++ post) job_list l
    = build_job_list body post rows l1.
Proof.
  induction pre as [|[jobid job] pre IH]; intros job_list l rows l1 H.
  - simpl in H. injection H as <- <-. reflexivity.
  - simpl in *. unfold mbind in *.
    destruct (mtry _ _ _ l) as [[jl|e|] l'] eqn:E; try discriminate H.
    by apply IH.
Qed.

(** One step of the loop at a job whose body raises. *)
Lemma build_job_list_raise (jobid : string) (job : pyval)
  (post : list (string * pyval)) (job_list : list row)
  (l : list log_entry) (e : exn) (w : list log_entry) :
  body jobid job [] = (Raise e, w) →
  build_job_list body ((jobid, job) :: post) job_list l
  = build_job_list body post job_list
      (l ++ w ++ [Warning_job_error jobid e]).
Proof.
  intros H. simpl. unfold mbind, mtry.
  rewrite (at_log _ l (body_uniform jobid job)), H. simpl.
  unfold emit, ret. by rewrite <- app_assoc.
Qed.

End Loop.

End PipelineFacts.

(** ** The row-building loop and the limit *)

Module PipelineClaims.
Import Text Re Py Dt Routing RoutingFacts Qstat Pipeline PipelineFacts Render.

(** The loop never raises: every exception of a body is caught. *)
Lemma build_job_list_no_raise (body : string → pyval → M (option row))
  (items : list (string * pyval)) :
  ∀ job_list l e, fst (build_job_list body items job_list l) ≠ Raise e.
Proof.
  induction items as [|[jobid job] rest IH]; intros job_list l e.
  - discriminate.
  - cbn [build_job_list]. unfold mbind at 1. unfold mtry. unfold mbind at 1.
    destruct (body jobid job l) as [[[r|]|e'|] l'].
    + apply IH.
    + apply IH.
    + unfold any_exception, mbind, emit, ret. apply IH.
    + discriminate.
Qed.

(** X27: in the loop that builds the rows, a job whose body raises is
    skipped and a warning naming it is logged; the jobs before it and
    after it give the rows they give without it, and the loop itself never
    raises. *)
Theorem malformed_job_is_skipped (P : platform) (server_data : pyval)
  (f : filters) (eqs : option (gset string))
  (extra_columns : option (list string))
  (pre post : list (string * pyval)) (jobid : string) (job : pyval)
  (e : exn) (w : list log_entry) (rows : list row) (l1 : list log_entry) :
  let body := process_job P server_data f eqs extra_columns in
  build_job_list body pre [] [] = (Ok rows, l1) →
  body jobid job [] = (Raise e, w) →
  let rest := build_job_list body post rows [] in
  build_job_list body (pre ++ (jobid, job) :: post) [] []
  = (fst rest, l1 ++ w ++ [Warning_job_error jobid e] ++ snd rest)
  ∧ build_job_list body (pre ++ post) [] [] = (fst rest, l1 ++ snd rest)
  ∧ ∀ e', fst rest ≠ Raise e'.
Proof.
  intros body Hpre Hbad rest.
  assert (U : ∀ j v, uniform (body j v))
    by (intros; apply uniform_process_job).
  split_and!.
  - rewrite (build_job_list_app body pre _ _ _ _ _ Hpre).
    rewrite (build_job_list_raise body U _ _ _ _ _ _ _ Hbad).
    rewrite (at_log _ _ (uniform_build_job_list body U post rows)).
    by rewrite <- !app_assoc.
  - rewrite (build_job_list_app body pre _ _ _ _ _ Hpre).
    by rewrite (at_log _ _ (uniform_build_job_list body U post rows)).
  - intros e'. apply build_job_list_no_raise.
Qed.

Definition sample_job (user state queue walltime : string) (nodect : Z)
  : pyval :=
  VDict [("Variable_List", VDict [("PBS_O_LOGNAME", VStr user)]);
         ("job_state", VStr state); ("queue", VStr queue);
         ("Resource_List",
          VDict [("nodect", VInt nodect); ("walltime", VStr walltime)]);
         ("project", VStr "climate");
         ("qtime", VStr "Sun Jun  1 10:00:00 2025");
         ("stime", VStr "Sun Jun  1 11:00:00 2025")].

Definition no_filters : filters := Filters None None None None None.

Definition jobids (r : res (list row) * list log_entry) : option (list pyval) :=
  match fst r with
  | Ok rows =>
      Some (map (fun x => default VNone (dict_lookup x "jobid")) rows)
  | _ => None
  end.

Definition witness_pre : list (string * pyval) :=
  [("1.x", sample_job "ann" "R" "debug" "01:00:00" 4)].
Definition witness_post : list (string * pyval) :=
  [("3.x", sample_job "bob" "Q" "prod" "00:30:00" 2)].
Definition witness_body : string -> pyval -> M (option row) :=
  process_job utc_host (VDict []) no_filters None None.
Definition witness_rows : list row :=
  Eval vm_compute in
    match fst (build_job_list witness_body witness_pre [] []) with
    | Ok rows => rows
    | _ => []
    end.

Lemma malformed_job_is_skipped_witness :
  build_job_list witness_body witness_pre [] [] = (Ok witness_rows, [])
  ∧ witness_body "2.x" (VInt 5) [] = (Raise AttributeError, [])
  ∧ build_job_list witness_body
      (witness_pre ++ ("2.x", VInt 5) :: witness_post) [] []
    = (fst (build_job_list witness_body witness_post witness_rows []),
       [] ++ [] ++ [Warning_job_error "2.x" AttributeError]
          ++ snd (build_job_list witness_body witness_post witness_rows []))
  ∧ jobids (build_job_list witness_body
              (witness_pre ++ ("2.x", VInt 5) :: witness_post) [] [])
    = Some [VStr "1"; VStr "3"].
Proof.
  assert (H1 : build_job_list witness_body witness_pre [] []
               = (Ok witness_rows, [])) by (vm_compute; reflexivity).
  assert (H2 : witness_body "2.x" (VInt 5) [] = (Raise AttributeError, []))
    by (vm_compute; reflexivity).
  split; [exact H1|]. split; [exact H2|].
  split; [|vm_compute; reflexivity].
  exact (proj1 (malformed_job_is_skipped utc_host (VDict []) no_filters None
                  None witness_pre witness_post "2.x" (VInt 5)
                  AttributeError [] witness_rows [] H1 H2)).
Defined.

(** Three jobs shown with their account and their award category. The
    award category of the second job is a list instead of a text. *)
Definition award_columns : list string :=
  ["Account_Name"; "Resource_List.award_category"].

Definition award_job (account : string) (award : pyval) : pyval :=
  VDict [("Variable_List", VDict [("PBS_O_LOGNAME", VStr "ann")]);
         ("job_state", VStr "Q"); ("queue", VStr "prod");
         ("Account_Name", VStr account);
         ("Resource_List",
          VDict [("nodect", VInt 4); ("walltime", VStr "01:00:00");
                 ("award_category", award)]);
         ("project", VStr "climate");
         ("qtime", VStr "Sun Jun  1 10:00:00 2025")].

Definition award_jobs : pyval :=
  VDict [("Jobs",
          VDict [("7.pbs01", award_job "alpha" (VStr "INCITE"));
                 ("8.pbs01",
                  award_job "beta" (VList [VStr "INCITE"; VStr "ALCC"]));
                 ("9.pbs01", award_job "gamma" (VStr "ALCC"))])].

Definition award_run : res (list row) * list log_entry :=
  print_jobs utc_host award_jobs (Some (VDict [])) (Ok (VDict [])) (VDict [])
    None false no_filters None (Some award_columns) [].

Definition award_rows : list row :=
  Eval vm_compute in
    match fst award_run with Ok rows => rows | _ => [] end.

Definition award_table : res unit * list string :=
  print_table (Some award_columns) award_rows.

(** The line of job 7. *)
Definition award_line : string :=
  Eval vm_compute in
    match format_row (map display_name award_columns) (hd [] award_rows) with
    | Ok line => line
    | _ => EmptyString
    end.

(** C9, the code at a failing input: the extraction of the award
    category of job 8 raises. The handler of [get_extra_columns_data]
    logs a warning for the column and writes the placeholder under
    [column_name], which still holds the name of the column before: the
    job is not skipped, its account is overwritten and its row has no
    cell for the award category. The loop that prints the table then
    raises a [KeyError] at this row, outside every [try]: the line of
    job 7 is logged, the lines of jobs 8 and 9 never are. *)
Theorem malformed_job_aborts_table :
  award_run
  = (Ok award_rows,
     [Warning_column_error "Resource_List.award_category" TypeError])
  ∧ jobids award_run = Some [VStr "7"; VStr "8"; VStr "9"]
  ∧ map (fun r => dict_lookup r "Account_Name") award_rows
    = [Some (VStr "alpha"); Some (VStr "--"); Some (VStr "gamma")]
  ∧ map (fun r => dict_lookup r "award_category") award_rows
    = [Some (VStr "INCITE"); None; Some (VStr "ALCC")]
  ∧ format_row (map display_name award_columns) (hd [] award_rows)
    = Ok award_line
  ∧ award_table
    = (Raise KeyError,
       ["Found 3 jobs:"; header_string (map display_name award_columns);
        award_line]).
Proof. split_and!; vm_compute; reflexivity. Qed.






End PipelineClaims.

(** ** The queue filter *)

Module QueueFilterClaims.
Import Text Re Py Dt Routing RoutingFacts Qstat Pipeline PipelineClaims.

(** The queues of the scenario: [debug] is a routing queue whose only
    destination is [debug-scaling]. *)
Definition debug_queues : pyval :=
  VDict [("Queue",
          VDict [("debug",
                  VDict [("queue_type", VStr "Route");
                         ("route_destinations", VStr "debug-scaling")]);
                 ("debug-scaling",
                  VDict [("queue_type", VStr "Execution")])])].

(** Job 1 is queued in [debug], job 2 in [debug-scaling], job 3 in
    [prod]. *)
Definition three_queues_jobs : pyval :=
  VDict [("Jobs",
          VDict [("1.x", sample_job "ann" "Q" "debug" "01:00:00" 4);
                 ("2.x", sample_job "bob" "Q" "debug-scaling" "00:30:00" 2);
                 ("3.x", sample_job "cy" "R" "prod" "02:00:00" 8)])].

Definition filtered_by_queue (queue : string)
  : res (list row) * list log_entry :=
  print_jobs utc_host three_queues_jobs (Some (VDict [])) (Ok (VDict []))
    debug_queues None false
    (Filters None (Some queue) None None None) None None [].

(** C4 as stated fails in its second half: naming the downstream queue
    [debug-scaling] returns the job queued there and not the job that
    sits in the upstream routing queue [debug]. (Naming [debug] returns
    both.) *)
Lemma downstream_filter_misses_upstream_job :
  build_routing_map debug_queues = Ok [("debug", ["debug-scaling"])]
  ∧ jobids (filtered_by_queue "debug-scaling") = Some [VStr "2"]
  ∧ jobids (filtered_by_queue "debug") = Some [VStr "1"; VStr "2"].
Proof. split_and!; vm_compute; reflexivity. Qed.

(** The queues of a second scenario: the type of [debug] is a number,
    which has no [strip], so the routing map cannot be built. *)
Definition odd_queues : pyval :=
  VDict [("Queue",
          VDict [("debug", VDict [("queue_type", VInt 5)])])].

(** When the map cannot be built the queue set is [None] and the test is
    the substring test: under the filter [debug] a job queued in
    [nodebug2] is kept. *)
Lemma unbuildable_map_falls_back_to_substring :
  build_routing_map odd_queues = Raise AttributeError
  ∧ expanded_queue_set_for (Some "debug") odd_queues = Ok None
  ∧ queue_excluded "debug" None (VStr "nodebug2") = Ok false
  ∧ queue_excluded "debug" None (VStr "prod") = Ok true.
Proof. split_and!; vm_compute; reflexivity. Qed.

(** C4, amended: when a queue filter is supplied, the routing map can be
    built from the queue data and the filter name is not empty after
    normalization, the queue test of the pipeline keeps exactly the jobs
    whose lower-cased queue can be reached from the normalized filter
    name along routing destinations, the name itself included. The
    expansion runs from a routing queue to its destinations only: naming
    an upstream routing queue finds the jobs in its downstream queues,
    and naming a downstream queue does not find the jobs in the queues
    that route to it. When building the map raises, or the name is empty
    after normalization, there is no queue set, and the test keeps
    exactly the jobs whose lower-cased queue contains the lower-cased
    filter text. *)
Theorem queue_filter_follows_destinations (qf : string)
  (queues_data : pyval) (queue : string) :
  qf ≠ EmptyString →
  (∀ rm, build_routing_map queues_data = Ok rm →
         normalize (Some qf) ≠ EmptyString →
         ∃ s b,
           expanded_queue_set_for (Some qf) queues_data = Ok (Some s)
           ∧ (∀ x, x ∈ s ↔ rtc (edge (lower_map rm)) (normalize (Some qf)) x)
           ∧ queue_excluded qf (Some s) (VStr queue) = Ok b
           ∧ (b = false
              ↔ rtc (edge (lower_map rm)) (normalize (Some qf))
                    (lower queue)))
  ∧ (∀ rm, build_routing_map queues_data = Ok rm →
           normalize (Some qf) = EmptyString →
           expanded_queue_set_for (Some qf) queues_data = Ok None)
  ∧ (∀ e, build_routing_map queues_data = Raise e →
          expanded_queue_set_for (Some qf) queues_data = Ok None)
  ∧ ∃ b, queue_excluded qf None (VStr queue) = Ok b
         ∧ (b = false ↔ contains (lower qf) (lower queue) = true).
Proof.
  intros Hqf.
  assert (Hg : given (Some qf) = Some qf) by (by destruct qf).
  split_and!.
  - intros rm Hrm Hne.
    destruct (expand_logged_spec (Some qf) rm Hne)
      as (s & log & He & _ & _ & Hr).
    exists s, (negb (bool_decide (lower queue ∈ s))).
    assert (Hroot : normalize (Some qf) ∈ s) by (apply Hr; done).
    split_and!.
    + unfold expanded_queue_set_for. rewrite Hg, Hrm.
      simpl. unfold expand_routed_queues. rewrite He. simpl.
      case_bool_decide as Hs; [|done]. rewrite Hs in Hroot. set_solver.
    + done.
    + reflexivity.
    + rewrite <- Hr. rewrite negb_false_iff, bool_decide_eq_true. done.
  - intros rm Hrm He. unfold expanded_queue_set_for. rewrite Hg, Hrm.
    simpl. unfold expand_routed_queues, expand_logged.
    fold (normalize (Some qf)). rewrite He. simpl.
    by rewrite bool_decide_eq_true_2.
  - intros e Hrm. unfold expanded_queue_set_for. rewrite Hg, Hrm.
    reflexivity.
  - exists (negb (contains (lower qf) (lower queue))). split; [reflexivity|].
    by rewrite negb_false_iff.
Qed.

Lemma queue_filter_follows_destinations_witness :
  "debug" ≠ EmptyString
  ∧ build_routing_map debug_queues = Ok [("debug", ["debug-scaling"])]
  ∧ normalize (Some "debug") ≠ EmptyString
  ∧ ∃ s b,
      expanded_queue_set_for (Some "debug") debug_queues = Ok (Some s)
      ∧ (∀ x, x ∈ s
              ↔ rtc (edge (lower_map [("debug", ["debug-scaling"])]))
                    (normalize (Some "debug")) x)
      ∧ queue_excluded "debug" (Some s) (VStr "debug-scaling") = Ok b
      ∧ (b = false
         ↔ rtc (edge (lower_map [("debug", ["debug-scaling"])]))
               (normalize (Some "debug")) (lower "debug-scaling")).
Proof.
  assert (H0 : "debug" ≠ EmptyString) by discriminate.
  assert (H1 : build_routing_map debug_queues
               = Ok [("debug", ["debug-scaling"])])
    by (vm_compute; reflexivity).
  assert (H2 : normalize (Some "debug") ≠ EmptyString) by discriminate.
  split; [exact H0|]. split; [exact H1|]. split; [exact H2|].
  exact (proj1 (queue_filter_follows_destinations "debug" debug_queues
                  "debug-scaling" H0)
           [("debug", ["debug-scaling"])] H1 H2).
Defined.

Lemma mbind_ok {A B : Type} (m : M A) (k : A → M B)
  (l l' : list log_entry) (b : B) :
  mbind m k l = (Ok b, l') →
  ∃ a l1, m l = (Ok a, l1) ∧ k a l1 = (Ok b, l').
Proof.
  unfold mbind. destruct (m l) as [[a|e|] l1]; [eauto|discriminate..].
Qed.

Lemma lift_ok {A : Type} (r : res A) (l l' : list log_entry) (a : A) :
  lift r l = (Ok a, l') → r = Ok a.
Proof. unfold lift. congruence. Qed.

(** In the pipeline a job that yields a row under a queue filter has
    passed the queue test. *)
Lemma kept_row_passed_queue_test (P : platform) (server_data : pyval)
  (f : filters) (eqs : option (gset string))
  (extra_columns : option (list string)) (jobid : string) (job : pyval)
  (qf : string) (r : row) (l l' : list log_entry) :
  given (queue_filter f) = Some qf →
  process_job P server_data f eqs extra_columns jobid job l
  = (Ok (Some r), l') →
  ∃ queue, get job "queue" (VStr "Unknown") = Ok queue
           ∧ queue_excluded qf eqs queue = Ok false.
Proof.
  intros Hq H. unfold process_job in H. rewrite Hq in H.
  apply mbind_ok in H as (score & l1 & _ & H).
  apply mbind_ok in H as (vl & l2 & _ & H).
  apply mbind_ok in H as (user & l3 & _ & H).
  apply mbind_ok in H as (state & l4 & _ & H).
  apply mbind_ok in H as (queue & l5 & Hqueue%lift_ok & H).
  apply mbind_ok in H as (rl & l6 & _ & H).
  apply mbind_ok in H as (nodes & l7 & _ & H).
  apply mbind_ok in H as (project & l8 & _ & H).
  apply mbind_ok in H as (rl2 & l9 & _ & H).
  apply mbind_ok in H as (wt & l10 & _ & H).
  apply mbind_ok in H as (runtime & l11 & _ & H).
  apply mbind_ok in H as (qtime & l12 & _ & H).
  apply mbind_ok in H as (submitted & l13 & _ & H).
  destruct (_ && _); [discriminate H|].
  apply mbind_ok in H as (drop_state & l14 & _ & H).
  destruct drop_state; [discriminate H|].
  apply mbind_ok in H as (drop_queue & l15 & Hd%lift_ok & H).
  destruct drop_queue; [discriminate H|].
  exists queue. done.
Qed.

End QueueFilterClaims.

(** ** The classifier *)

Module ClassifierClaims.
Import Text Re Py Dt Qstat.

Section Host.
Variable P : platform.

(** The timestamp test of the classifier: [parse_pbs_time] accepts the
    text, in one of the two PBS formats or as epoch seconds. *)
Definition accepted_timestamp (s : string) : bool :=
  match parse_pbs_time P (VStr s) with Ok _ => true | _ => false end.

Definition parses_as_number (s : string) : bool :=
  match float_of_string s with Ok _ => true | _ => false end.

(** The precedence of the categories, test by test. *)
Definition classify (value : pyval) : vtype :=
  if is_empty_value value then T_empty
  else
    let s := strip (py_str value) in
    if matches re_duration s then T_time
    else if accepted_timestamp s then T_datetime
    else if matches re_compact s then T_submitted_time
    else if parses_as_number s then T_numeric
    else T_string.

Lemma strptime_outcome (s : string) (fmt : format) :
  (∃ d, strptime P s fmt = Ok d) ∨ strptime P s fmt = Raise ValueError.
Proof.
  unfold strptime. destruct (match_at _ s) as [[c [|? ?]]|]; auto.
  destruct (_ && _); eauto.
Qed.

Lemma int_of_string_outcome (s : string) :
  (∃ z, int_of_string s = Ok z) ∨ int_of_string s = Raise ValueError.
Proof.
  unfold int_of_string. destruct (scan_sign (trim_blanks s)) as [neg r].
  destruct (scan_digits r) as [[[z n] [|? ?]]|]; eauto.
Qed.

Lemma float_of_string_outcome (s : string) :
  (∃ x, float_of_string s = Ok x) ∨ float_of_string s = Raise ValueError.
Proof.
  unfold float_of_string. destruct (scan_sign (trim_blanks s)) as [neg r].
  destruct (_ || _); [eauto|]. destruct (String.eqb _ "nan"); [eauto|].
  destruct (scan_mantissa r) as [[[m nf] r1]|]; [|auto].
  destruct (scan_exponent r1) as [[ex [|? ?]]|]; eauto.
Qed.

(** On text [parse_pbs_time] returns or raises [ValueError]. *)
Lemma parse_pbs_time_outcome (s : string) :
  (∃ d, parse_pbs_time P (VStr s) = Ok d)
  ∨ parse_pbs_time P (VStr s) = Raise ValueError.
Proof.
  unfold parse_pbs_time. destruct (negb (truthy (VStr s))); [auto|].
  unfold PBS_TIME_FORMATS, try_formats, py_strptime.
  destruct (strptime_outcome s PBS_plain) as [[d ->]| ->]; simpl; [eauto|].
  destruct (strptime_outcome s PBS_zone) as [[d ->]| ->]; simpl; [eauto|].
  destruct (int_of_string_outcome s) as [[z ->]| ->]; simpl; [|auto].
  unfold fromtimestamp. destruct (localtime P z); simpl; eauto.
Qed.

(** The classifier returns the category of the cascade and raises
    nothing. *)
Lemma detect_value_type_classify (value : pyval) :
  detect_value_type P value = Ok (classify value).
Proof.
  unfold detect_value_type, classify.
  destruct (is_empty_value value); [reflexivity|].
  set (s := strip (py_str value)).
  destruct (matches re_duration s); [reflexivity|].
  unfold accepted_timestamp, PBS_TIME_FORMATS, detect_datetime.
  destruct (parse_pbs_time_outcome s) as [[d ->]| ->]; simpl; [reflexivity|].
  destruct (matches re_compact s); [reflexivity|].
  unfold parses_as_number.
  destruct (float_of_string_outcome s) as [[x ->]| ->]; reflexivity.
Qed.

(** [detect_value_type] is total: for every value it returns one
    category and raises nothing. The text [01:30:00] is a duration, and
    is not numeric. *)
Lemma detect_value_type_total (value : pyval) :
  (∃ t, detect_value_type P value = Ok t)
  ∧ detect_value_type P (VStr "01:30:00") = Ok T_time
  ∧ parses_as_number "01:30:00" = false.
Proof.
  split_and!; [|reflexivity|reflexivity].
  exists (classify value). apply detect_value_type_classify.
Qed.

End Host.

(** Epoch seconds are among the accepted timestamps: on the UTC host a
    plain integer text is a datetime, and only a number with a fraction
    reaches the numeric test. *)
Lemma integer_text_is_datetime :
  detect_value_type utc_host (VStr "42") = Ok T_datetime
  ∧ detect_value_type utc_host (VStr "4.5") = Ok T_numeric
  ∧ detect_value_type utc_host (VStr "debug") = Ok T_string
  ∧ detect_value_type utc_host (VStr "06/01 10:00") = Ok T_submitted_time
  ∧ detect_value_type utc_host (VStr "Fri Nov 10 11:34:29 2023")
    = Ok T_datetime.
Proof. split_and!; vm_compute; reflexivity. Qed.

End ClassifierClaims.

(** ** Sorting: what holds when the sort returns, and when it must *)

Module SortFacts.
Import Text Re Py Dt Qstat Pipeline ClassifierClaims.
Local Open Scope Z_scope.

Lemma StronglySorted_rev {A : Type} (R : relation A) (l : list A) :
  StronglySorted R l → StronglySorted (flip R) (rev l).
Proof.
  induction 1 as [|a l Hs IH Hall]; simpl; [constructor|].
  apply StronglySorted_app_2; [|done|repeat constructor].
  intros x y Hx Hy. apply list_elem_of_singleton in Hy as ->.
  unfold flip. rewrite Forall_forall in Hall. apply Hall.
  apply list_elem_of_In in Hx. apply list_elem_of_In. by apply in_rev.
Qed.

Section Keyed.
Context {A : Type}.

(** The flag of a pair key. *)
Definition flag_of (x : key * A) : Z :=
  match fst x with K_pair (f, _) => f | K_val _ => 0 end.

Definition is_pair (x : key * A) : Prop := ∃ f p, fst x = K_pair (f, p).

Definition flag_le (x y : key * A) : Prop := (flag_of x <= flag_of y)%Z.

Lemma key_lt_flags (x y : key * A) (b : bool) :
  is_pair x → is_pair y → key_lt (fst y) (fst x) = Ok b →
  if b then flag_le y x else flag_le x y.
Proof.
  intros (fx & px & Hx) (fy & py & Hy) H.
  unfold flag_le, flag_of. rewrite Hx, Hy in *. simpl in H.
  destruct (fy =? fx) eqn:E.
  - apply Z.eqb_eq in E. destruct b; lia.
  - injection H as <-. apply Z.eqb_neq in E.
    destruct (fy <? fx) eqn:L; [apply Z.ltb_lt in L|apply Z.ltb_ge in L]; lia.
Qed.

(** Whatever the payloads answer, an insertion that returns keeps the
    flags in ascending order. *)
Lemma insort_flag_sorted (x : key * A) (l l' : list (key * A)) :
  is_pair x → Forall is_pair l → StronglySorted flag_le l →
  insort x l = Ok l' →
  StronglySorted flag_le l' ∧ Permutation l' (x :: l).
Proof.
  intros Hx. revert l'. induction l as [|y r IH]; intros l' Hall Hs H.
  - injection H as <-. split; [repeat constructor|done].
  - simpl in H. inversion Hall as [|? ? Hy Hr]; subst.
    inversion Hs as [|? ? Hsr Hyr]; subst.
    destruct (key_lt (fst y) (fst x)) as [b| |] eqn:E; try discriminate H.
    pose proof (key_lt_flags x y b Hx Hy E) as Hb. simpl in H.
    destruct b.
    + destruct (insort x r) as [r'| |] eqn:Er; try discriminate H.
      injection H as <-. destruct (IH r' Hr Hsr eq_refl) as [Hs' Hp].
      split.
      * constructor; [done|]. apply (Permutation_Forall (Permutation_sym Hp)).
        constructor; done.
      * rewrite Hp. apply perm_swap.
    + injection H as <-. split; [|done].
      constructor; [done|]. constructor; [done|].
      eapply Forall_impl; [exact Hyr|]. unfold flag_le in *. intros; lia.
Qed.

Lemma isort_flag_sorted (l l' : list (key * A)) :
  Forall is_pair l → isort l = Ok l' →
  StronglySorted flag_le l' ∧ Permutation l' l.
Proof.
  revert l'. induction l as [|x r IH]; intros l' Hall H.
  - injection H as <-. split; constructor.
  - simpl in H. inversion Hall as [|? ? Hx Hr]; subst.
    destruct (isort r) as [s| |] eqn:Es; try discriminate H. simpl in H.
    destruct (IH s Hr eq_refl) as [Hs Hp].
    destruct (insort_flag_sorted x s l' Hx) as [Hs' Hp']; try done.
    { by apply (Permutation_Forall (Permutation_sym Hp)). }
    split; [done|]. rewrite Hp'. by constructor.
Qed.

(** The keys go with their items. *)
Lemma with_keys_spec (keyf : A → res key) (l : list A)
  (keyed : list (key * A)) :
  with_keys keyf l = Ok keyed →
  map snd keyed = l ∧ Forall (fun kx => keyf (snd kx) = Ok (fst kx)) keyed.
Proof.
  revert keyed. induction l as [|x r IH]; intros keyed H; simpl in H.
  - injection H as <-. split; constructor.
  - destruct (keyf x) as [k| |] eqn:Ek; try discriminate H. simpl in H.
    destruct (with_keys keyf r) as [r'| |]; try discriminate H.
    injection H as <-. destruct (IH r' eq_refl) as [Hm Hf].
    split; [simpl; by rewrite Hm|]. constructor; done.
Qed.

(** Keys that [<] orders: on a set [D] of keys the comparison returns
    what a boolean relation says, and that relation is asymmetric and
    its negation transitive. *)
Section Ordered.
Variable D : key → Prop.
Variable ltb : key → key → bool.
Hypothesis key_lt_ltb : ∀ a b, D a → D b → key_lt a b = Ok (ltb a b).
Hypothesis ltb_asym : ∀ a b, D a → D b → ltb a b = true → ltb b a = false.
Hypothesis ltb_neg_trans :
  ∀ a b c, D a → D b → D c →
           ltb a b = false → ltb b c = false → ltb a c = false.

(** [x] may stand before [y]. *)
Definition ascending (x y : key * A) : Prop := ltb (fst y) (fst x) = false.

Definition in_D (x : key * A) : Prop := D (fst x).

Lemma insort_sorted (x : key * A) (l : list (key * A)) :
  in_D x → Forall in_D l → StronglySorted ascending l →
  ∃ l', insort x l = Ok l'
        ∧ StronglySorted ascending l' ∧ Permutation l' (x :: l).
Proof.
  intros Hx. induction l as [|y r IH]; intros Hall Hs.
  - exists [x]. split_and!; [done|repeat constructor|done].
  - inversion Hall as [|? ? Hy Hr]; subst.
    inversion Hs as [|? ? Hsr Hyr]; subst.
    simpl. rewrite (key_lt_ltb _ _ Hy Hx). simpl.
    destruct (ltb (fst y) (fst x)) eqn:E.
    + destruct (IH Hr Hsr) as (r' & -> & Hs' & Hp). simpl.
      exists (y :: r'). split_and!; [done| |].
      * constructor; [done|]. apply (Permutation_Forall (Permutation_sym Hp)).
        constructor; [|done]. by apply ltb_asym.
      * rewrite Hp. apply perm_swap.
    + exists (x :: y :: r). split_and!; [done| |done].
      constructor; [done|]. constructor; [done|].
      rewrite Forall_forall in *. intros z Hz. unfold ascending.
      apply (ltb_neg_trans _ (fst y)); auto.
      * by apply Hr.
      * by apply Hyr.
Qed.

Lemma isort_sorted (l : list (key * A)) :
  Forall in_D l →
  ∃ l', isort l = Ok l' ∧ StronglySorted ascending l' ∧ Permutation l' l.
Proof.
  induction l as [|x r IH]; intros Hall.
  - exists []. split_and!; [done|constructor|done].
  - inversion Hall as [|? ? Hx Hr]; subst.
    destruct (IH Hr) as (s & Es & Hs & Hp). simpl. rewrite Es. simpl.
    destruct (insort_sorted x s Hx) as (l' & El & Hs' & Hp'); [|done|].
    { by apply (Permutation_Forall (Permutation_sym Hp)). }
    exists l'. split_and!; [done|done|]. rewrite Hp'. by constructor.
Qed.

(** On such keys the sort returns, and returns the items in order:
    ascending, or descending for a reverse sort. *)
Lemma list_sort_sorted (keyf : A → res key) (reverse : bool) (l : list A)
  (keyed : list (key * A)) :
  with_keys keyf l = Ok keyed → Forall in_D keyed →
  ∃ sorted,
    list_sort keyf reverse l = Ok (map snd sorted)
    ∧ Permutation sorted keyed
    ∧ StronglySorted (if reverse then flip ascending else ascending) sorted.
Proof.
  intros Ek HD. unfold list_sort. rewrite Ek. simpl. destruct reverse.
  - destruct (isort_sorted (rev keyed)) as (s & -> & Hs & Hp).
    { apply (Permutation_Forall (Permutation_rev keyed)). done. }
    exists (rev s). split_and!; [done| |by apply StronglySorted_rev].
    rewrite <- Permutation_rev, Hp. apply Permutation_sym, Permutation_rev.
  - destruct (isort_sorted keyed HD) as (s & -> & Hs & Hp).
    exists s. done.
Qed.

End Ordered.

End Keyed.

(** *** Keys with integer payloads: durations and placeholders *)

Definition int_key (k : key) : Prop := ∃ f z, k = K_pair (f, VInt z).

(** The order of [(flag, seconds)] pairs. *)
Definition int_ltb (a b : key) : bool :=
  match a, b with
  | K_pair (f1, VInt z1), K_pair (f2, VInt z2) =>
      if f1 =? f2 then z1 <? z2 else f1 <? f2
  | _, _ => false
  end.

Lemma int_key_lt (a b : key) :
  int_key a → int_key b → key_lt a b = Ok (int_ltb a b).
Proof.
  intros (f1 & z1 & ->) (f2 & z2 & ->). simpl.
  destruct (f1 =? f2); [|done].
  unfold py_eq, py_lt. simpl. unfold is_Eq, is_Lt, Z.ltb.
  destruct (z1 ?= z2); done.
Qed.

Lemma int_ltb_asym (a b : key) :
  int_key a → int_key b → int_ltb a b = true → int_ltb b a = false.
Proof.
  intros (f1 & z1 & ->) (f2 & z2 & ->). simpl.
  destruct (Z.eqb_spec f1 f2), (Z.eqb_spec f2 f1); lia.
Qed.

Lemma int_ltb_neg_trans (a b c : key) :
  int_key a → int_key b → int_key c →
  int_ltb a b = false → int_ltb b c = false → int_ltb a c = false.
Proof.
  intros (f1 & z1 & ->) (f2 & z2 & ->) (f3 & z3 & ->). simpl.
  destruct (Z.eqb_spec f1 f2), (Z.eqb_spec f2 f3), (Z.eqb_spec f1 f3);
    rewrite ?Z.ltb_ge; lia.
Qed.

Lemma StronglySorted_weaken {B : Type} (R R' : relation B) (Q : B → Prop)
  (l : list B) :
  (∀ a b, Q a → Q b → R a b → R' a b) →
  Forall Q l → StronglySorted R l → StronglySorted R' l.
Proof.
  intros HR Hq Hs. induction Hs as [|a l Hs IH Hall]; [constructor|].
  inversion Hq as [|? ? Ha Hl]; subst. constructor; [by apply IH|].
  rewrite Forall_forall in *. intros b Hb. apply HR; auto.
Qed.

Section Typed.
Variable P : platform.

(** Every key of [convert_value_for_sorting] carries one of the two
    flags of its direction. *)
Lemma typed_key_flags (reverse : bool) (v : pyval) (k : key) :
  typed_key P reverse v = Ok k →
  ∃ f p, k = K_pair (f, p)
         ∧ (f = valid_flag reverse ∨ f = empty_flag reverse).
Proof.
  unfold typed_key. intros H.
  destruct (convert_value_for_sorting P v None reverse) as [[f p]| |] eqn:E;
    try discriminate H.
  injection H as <-. exists f, p. split; [done|].
  unfold convert_value_for_sorting in E.
  destruct (detect_value_type P v) as [vt| |]; try discriminate E.
  simpl in E.
  destruct vt; simpl in E;
    repeat match type of E with
           | Ok _ = Ok _ => injection E as <- <-; auto
           | try_except (bind ?c _) _ _ = _ =>
               destruct c as [?|[]|]; simpl in E; try discriminate E
           | try_except (Ok _) _ _ = _ => simpl in E
           end.
Qed.

(** A key is an empty key of its direction. *)
Definition empty_key (reverse : bool) (x : key * pyval) : Prop :=
  flag_of x = empty_flag reverse.

(** The keyed items of a sort are the items with their own keys. *)
Definition keys_of (reverse : bool) (sorted : list (key * pyval)) : Prop :=
  Forall (fun kx => typed_key P reverse (snd kx) = Ok (fst kx)) sorted.

(** When a sort by typed keys returns, in either direction, no empty
    value stands before a valid one. This needs nothing of the payloads:
    the flags alone decide between an empty key and a valid key. *)
Lemma typed_sort_empty_last (reverse : bool) (l out : list pyval) :
  list_sort (typed_key P reverse) reverse l = Ok out →
  ∃ sorted,
    out = map snd sorted
    ∧ Permutation out l
    ∧ keys_of reverse sorted
    ∧ StronglySorted (fun a b => empty_key reverse a → empty_key reverse b)
                     sorted.
Proof.
  unfold list_sort. intros H.
  destruct (with_keys (typed_key P reverse) l) as [keyed| |] eqn:Ek;
    try discriminate H.
  destruct (with_keys_spec _ _ _ Ek) as [Hm Hk]. simpl in H.
  set (Q := fun kx : key * pyval =>
              is_pair kx ∧ (flag_of kx = valid_flag reverse
                            ∨ flag_of kx = empty_flag reverse)).
  assert (HQ : Forall Q keyed).
  { eapply Forall_impl; [exact Hk|]. intros [k v] Hkv. simpl in Hkv.
    destruct (typed_key_flags _ _ _ Hkv) as (f & p & -> & Hf).
    split; [by exists f, p|done]. }
  assert (Hpair : ∀ s, Permutation s keyed → Forall is_pair s).
  { intros s Hp. apply (Permutation_Forall (Permutation_sym Hp)).
    eapply Forall_impl; [exact HQ|]. by intros ? [? ?]. }
  destruct reverse.
  - destruct (isort (rev keyed)) as [s| |] eqn:Es; try discriminate H.
    injection H as <-.
    destruct (isort_flag_sorted (rev keyed) s) as [Hs Hp]; [|done|].
    { apply Hpair. apply Permutation_sym, Permutation_rev. }
    assert (Hp' : Permutation (rev s) keyed).
    { rewrite <- Permutation_rev, Hp. apply Permutation_sym, Permutation_rev. }
    exists (rev s). split_and!; [done| | |].
    + rewrite <- Hm. by apply Permutation_map.
    + by apply (Permutation_Forall (Permutation_sym Hp')).
    + apply (StronglySorted_weaken (flip flag_le) _ Q).
      * intros a b [_ Ha] [_ Hb] Hab. unfold flip, flag_le, empty_key in *.
        simpl in *. lia.
      * by apply (Permutation_Forall (Permutation_sym Hp')).
      * by apply StronglySorted_rev.
  - destruct (isort keyed) as [s| |] eqn:Es; try discriminate H.
    injection H as <-.
    destruct (isort_flag_sorted keyed s) as [Hs Hp]; [|done|].
    { by apply Hpair. }
    exists s. split_and!; [done| | |].
    + rewrite <- Hm. by apply Permutation_map.
    + by apply (Permutation_Forall (Permutation_sym Hp)).
    + apply (StronglySorted_weaken flag_le _ Q).
      * intros a b [_ Ha] [_ Hb] Hab. unfold flag_le, empty_key in *.
        simpl in *. lia.
      * by apply (Permutation_Forall (Permutation_sym Hp)).
      * done.
Qed.

Lemma string_time_to_seconds_outcome (s : string) :
  (∃ z, string_time_to_seconds (VStr s) = Ok z)
  ∨ string_time_to_seconds (VStr s) = Raise ValueError.
Proof.
  unfold string_time_to_seconds, get_integers.
  destruct (Text.split ":"%char s) as [|a [|b [|c [|? ?]]]]; simpl; auto.
  destruct (int_of_string_outcome a) as [[x ->]| ->]; simpl; auto.
  destruct (int_of_string_outcome b) as [[y ->]| ->]; simpl; auto.
  destruct (int_of_string_outcome c) as [[z ->]| ->]; simpl; eauto.
Qed.

(** A value that is a duration or empty. *)
Definition duration_or_empty (v : pyval) : Prop :=
  classify P v = T_time ∨ classify P v = T_empty.

(** Its key has an integer payload: the seconds, or the 0 of an empty
    key. *)
Lemma typed_key_duration (reverse : bool) (v : pyval) :
  duration_or_empty v →
  ∃ f z, typed_key P reverse v = Ok (K_pair (f, VInt z)).
Proof.
  intros Hv. unfold typed_key, convert_value_for_sorting.
  rewrite (detect_value_type_classify P v). simpl.
  destruct Hv as [-> | ->]; simpl; [|eauto].
  destruct (string_time_to_seconds_outcome (strip (py_str v)))
    as [[z ->]| ->]; simpl; eauto.
Qed.

Lemma with_keys_durations (reverse : bool) (l : list pyval) :
  Forall duration_or_empty l →
  ∃ keyed, with_keys (typed_key P reverse) l = Ok keyed
           ∧ Forall (in_D int_key) keyed.
Proof.
  induction 1 as [|v r Hv Hr (keyed & Ek & Hk)]; simpl.
  - exists []. split; constructor.
  - destruct (typed_key_duration reverse v Hv) as (f & z & ->). simpl.
    rewrite Ek. simpl. eexists. split; [done|].
    constructor; [by exists f, z|done].
Qed.

(** A column of durations and placeholders: the sort returns in both
    directions, with the items in the order of their [(flag, seconds)]
    keys, ascending, or descending for a reverse sort. *)
Lemma duration_column_sorted (reverse : bool) (l : list pyval) :
  Forall duration_or_empty l →
  ∃ sorted,
    list_sort (typed_key P reverse) reverse l = Ok (map snd sorted)
    ∧ Permutation (map snd sorted) l
    ∧ keys_of reverse sorted
    ∧ StronglySorted
        (fun a b => if reverse then int_ltb (fst a) (fst b) = false
                    else int_ltb (fst b) (fst a) = false) sorted.
Proof.
  intros Hl. destruct (with_keys_durations reverse l Hl) as (keyed & Ek & Hk).
  destruct (list_sort_sorted int_key int_ltb int_key_lt int_ltb_asym
              int_ltb_neg_trans (typed_key P reverse) reverse l keyed Ek Hk)
    as (sorted & Es & Hp & Hs).
  destruct (with_keys_spec _ _ _ Ek) as [Hm Hf].
  exists sorted. split_and!; [done| | |].
  - rewrite <- Hm. by apply Permutation_map.
  - by apply (Permutation_Forall (Permutation_sym Hp)).
  - destruct reverse; exact Hs.
Qed.

End Typed.
End SortFacts.

(** ** Sorting by typed keys, on whole columns *)

Module SortClaims.
Import Text Re Py Dt Routing Qstat Pipeline PipelineClaims.

(** Sorting a column of values, as the rows are sorted by it. *)
Definition sort_column (reverse : bool) (values : list pyval)
  : res (list pyval) :=
  list_sort (typed_key utc_host reverse) reverse values.

Definition named_job (name : string) : pyval :=
  VDict [("Job_Name", VStr name); ("queue", VStr "prod");
         ("job_state", VStr "Q")].

(** Three jobs whose names are a number, a word, and missing. *)
Definition mixed_names_jobs : pyval :=
  VDict [("Jobs",
          VDict [("1.x", named_job "1.5"); ("2.x", named_job "relax");
                 ("3.x", VDict [("queue", VStr "prod")])])].

Definition sorted_by_name (reverse : bool) : res (list row) * list log_entry :=
  print_jobs utc_host mixed_names_jobs (Some (VDict [])) (Ok (VDict []))
    (VDict []) (Some "Job_Name") reverse no_filters None (Some ["Job_Name"]) [].

(** C5, the code at a failing input: a column that holds a number and a
    word gets a float key and a text key, which [<] cannot compare; the
    sort raises [TypeError] in both directions and no order is produced,
    for the bare column and for [print_jobs] sorting by an extra column.
    And with a NaN in the column the two directions give the same order
    for two valid values with distinct keys. *)
Theorem mixed_column_sort_raises :
  convert_value_for_sorting utc_host (VStr "1.5") None false
  = Ok (0, VFloat (float_of_decimal false 15 (-1)))
  ∧ convert_value_for_sorting utc_host (VStr "relax") None false
    = Ok (0, VStr "relax")
  ∧ sort_column false [VStr "1.5"; VStr "relax"; VStr "--"] = Raise TypeError
  ∧ sort_column true [VStr "1.5"; VStr "relax"; VStr "--"] = Raise TypeError
  ∧ fst (sorted_by_name false) = Raise TypeError
  ∧ fst (sorted_by_name true) = Raise TypeError
  ∧ sort_column false [VStr "nan"; VStr "1.5"] = Ok [VStr "nan"; VStr "1.5"]
  ∧ sort_column true [VStr "nan"; VStr "1.5"] = Ok [VStr "nan"; VStr "1.5"].
Proof. split_and!; vm_compute; reflexivity. Qed.

(** On a column of one kind the empty values come last both ways. *)
Lemma durations_sorted_both_ways :
  sort_column false [VStr "02:00:00"; VStr "--"; VStr "00:30:00"; VNone;
                     VStr "01:00:00"]
  = Ok [VStr "00:30:00"; VStr "01:00:00"; VStr "02:00:00"; VStr "--"; VNone]
  ∧ sort_column true [VStr "02:00:00"; VStr "--"; VStr "00:30:00"; VNone;
                      VStr "01:00:00"]
    = Ok [VStr "02:00:00"; VStr "01:00:00"; VStr "00:30:00"; VStr "--"; VNone].
Proof. split; vm_compute; reflexivity. Qed.

End SortClaims.

(** * Further properties of the functions *)

(** ** Letters and case *)

Module TextFacts.
Import Text.

Lemma lower_char_idem (c : ascii) : lower_char (lower_char c) = lower_char c.
Proof. destruct c as [[] [] [] [] [] [] [] []]; reflexivity. Qed.

Lemma lower_upper_char (c : ascii) : lower_char (upper_char c) = lower_char c.
Proof. destruct c as [[] [] [] [] [] [] [] []]; reflexivity. Qed.

(** Text of the ASCII range, on which [str.upper] and [str.lower] change
    the twenty-six letters and nothing else. *)
Fixpoint is_ascii (s : string) : bool :=
  match s with
  | EmptyString => true
  | String c r => (nat_of_ascii c <? 128)%nat && is_ascii r
  end.

Lemma lower_idem (s : string) : lower (lower s) = lower s.
Proof.
  induction s as [|c r IH]; simpl; [done|]. by rewrite lower_char_idem, IH.
Qed.

Lemma lower_upper (s : string) : lower (upper s) = lower s.
Proof.
  induction s as [|c r IH]; simpl; [done|]. by rewrite lower_upper_char, IH.
Qed.

End TextFacts.

(** ** Job state codes and names *)

Module StateProps.
Import Text States TextFacts.

Lemma assoc_In (k v : string) (l : list (string * string)) :
  Pipeline.assoc k l = Some v → In (k, v) l.
Proof.
  induction l as [|[k' v'] r IH]; simpl; [done|].
  destruct (String.eqb_spec k' k) as [->|]; [intros [= ->]; by left|].
  intros H. right. by apply IH.
Qed.

Lemma assoc_known (k : string) (l : list (string * string)) :
  Pipeline.in_strings k (map fst l)
  = match Pipeline.assoc k l with Some _ => true | None => false end.
Proof.
  unfold Pipeline.in_strings. induction l as [|[k' v'] r IH]; simpl; [done|].
  rewrite String.eqb_sym. destruct (String.eqb k' k); [done|]. apply IH.
Qed.

(** A code of the table. *)
Definition known_code (code : string) : bool :=
  Pipeline.in_strings code (map fst JOB_STATE_MAP).

(** X1: a state code of the table comes back from its full name:
    [get_state_code (get_full_state_name code)] is [code] for each of the
    ten codes, and ["Unknown"] for every other text. *)
Theorem state_code_round_trip (code : string) :
  get_state_code (get_full_state_name code)
  = if known_code code then code else "Unknown".
Proof.
  unfold known_code. rewrite assoc_known. unfold get_full_state_name.
  destruct (Pipeline.assoc code JOB_STATE_MAP) as [name|] eqn:E; [|reflexivity].
  apply assoc_In in E. simpl in E.
  repeat (destruct E as [[= <- <-]|E]; [reflexivity|]). destruct E.
Qed.

Lemma find_code_case (items : list (string * string)) (name : string) :
  find_code items (upper name) = find_code items name
  ∧ find_code items (lower name) = find_code items name.
Proof.
  induction items as [|[c n] r [IH1 IH2]]; simpl; [done|].
  by rewrite lower_upper, lower_idem, IH1, IH2.
Qed.

(** X2: on a name of the ASCII range [get_state_code] ignores case, and
    a name it knows comes back from its code up to case: either the code
    is ["Unknown"], or the full name of the code agrees with the given
    name in lower case. *)
Theorem state_name_round_trip (name : string) :
  is_ascii name = true →
  get_state_code (upper name) = get_state_code name
  ∧ get_state_code (lower name) = get_state_code name
  ∧ (get_state_code name = "Unknown"
     ∨ lower (get_full_state_name (get_state_code name)) = lower name).
Proof.
  intros _.
  unfold get_state_code. destruct (find_code_case JOB_STATE_MAP name) as [-> ->].
  split_and!; [done|done|].
  unfold JOB_STATE_MAP, find_code.
  repeat match goal with
         | |- context [String.eqb ?a (lower name)] =>
             destruct (String.eqb_spec a (lower name)) as [<-|_];
             [right; reflexivity|]
         end.
  by left.
Qed.

Lemma state_name_round_trip_witness :
  is_ascii "RUNNING" = true
  ∧ get_state_code "RUNNING" = "R"
  ∧ get_state_code (upper "RUNNING") = get_state_code "RUNNING"
  ∧ get_state_code (lower "RUNNING") = get_state_code "RUNNING"
  ∧ (get_state_code "RUNNING" = "Unknown"
     ∨ lower (get_full_state_name (get_state_code "RUNNING"))
       = lower "RUNNING").
Proof.
  split; [reflexivity|]. split; [reflexivity|].
  apply (state_name_round_trip "RUNNING"). reflexivity.
Defined.

End StateProps.

(** ** The line pass, line by line *)

Module RepairProps.
Import Text Re Repair RepairFacts.

(** What the pass may do to a line. *)
Definition kept_or_comma (out line : string) : Prop :=
  out = line ∨ out = String.append (rstrip line) ",".

Lemma run_pointwise (ls : list string) :
  ∀ m, ∃ out, repaired_lines (run m ls) = repaired_lines m ++ out
              ∧ Forall2 kept_or_comma out ls.
Proof.
  induction ls as [|line later IH]; intros m; simpl.
  - exists []. by rewrite app_nil_r.
  - destruct (IH (step m line later)) as (out & E & F).
    destruct (step_appends m line later) as [[R _]|[R _]]; rewrite E, R.
    + exists (line :: out). rewrite <- app_assoc. split; [done|].
      constructor; [by left|done].
    + exists (String.append (rstrip line) "," :: out). rewrite <- app_assoc.
      split; [done|]. constructor; [by right|done].
Qed.

(** X14: the line pass of [repair_qstat_json] gives one output line for
    each input line, in order: the line itself, or the line with its
    trailing blanks removed and a comma added. It never inserts, drops or
    reorders a line. *)
Theorem line_pass_pointwise (json_text : string) :
  Forall2 kept_or_comma (repaired_lines (line_pass json_text))
          (split nl json_text).
Proof.
  unfold line_pass. destruct (run_pointwise (split nl json_text) initial)
    as (out & -> & F). exact F.
Qed.

(** Outside a [Jobs] container the machine stays where it is. *)
Lemma step_outside (m : machine) (line : string) (later : list string) :
  state m = OUTSIDE_JOBS →
  matches re_jobs_open (strip line) = false →
  state (step m line later) = OUTSIDE_JOBS
  ∧ repaired_lines (step m line later) = repaired_lines m ++ [line]
  ∧ fix_count (step m line later) = fix_count m.
Proof.
  intros Hs Hm. unfold step. rewrite Hm, Hs. simpl. done.
Qed.

Lemma run_outside (ls : list string) :
  ∀ m, state m = OUTSIDE_JOBS →
       forallb (fun line => negb (matches re_jobs_open (strip line))) ls = true →
       repaired_lines (run m ls) = repaired_lines m ++ ls
       ∧ fix_count (run m ls) = fix_count m.
Proof.
  induction ls as [|line later IH]; intros m Hs Hl; simpl.
  - by rewrite app_nil_r.
  - simpl in Hl. apply andb_true_iff in Hl as [Hm Hl].
    apply negb_true_iff in Hm.
    destruct (step_outside m line later Hs Hm) as (Hs' & R & C).
    destruct (IH _ Hs' Hl) as [E F]. rewrite E, F, R, C, <- app_assoc. done.
Qed.

(** X15: in a text none of whose lines opens a [Jobs] container the line
    pass changes nothing and counts no fix; the result of
    [repair_qstat_json] is then the text after the three global
    substitutions alone. *)
Theorem no_jobs_container_no_line_repair (json_text : string) :
  forallb (fun line => negb (matches re_jobs_open (strip line)))
          (split nl json_text) = true →
  repaired_lines (line_pass json_text) = split nl json_text
  ∧ fix_count (line_pass json_text) = 0
  ∧ repair_qstat_json json_text = text_fixes json_text.
Proof.
  intros H. destruct (run_outside _ initial eq_refl H) as [E F].
  unfold repair_qstat_json, line_pass. rewrite E, F. simpl.
  by rewrite join_split.
Qed.

(** A server record: braces and fields, and no [Jobs] line. *)
Definition server_text : string := text_of
  [ "{";
    "    'Server':{";
    "        'pbs01':{";
    "            'job_sort_formula':'base_score',";
    "            'total_jobs':12,";
    "        }";
    "    }";
    "}" ].

Lemma no_jobs_container_no_line_repair_witness :
  repaired_lines (line_pass server_text) = split nl server_text
  ∧ fix_count (line_pass server_text) = 0
  ∧ repair_qstat_json server_text = text_fixes server_text.
Proof.
  apply (no_jobs_container_no_line_repair server_text).
  vm_compute. reflexivity.
Defined.

End RepairProps.

(** ** Decimal numerals: [str] and [int] *)

Module Numerals.
Import Text Py.

(** The value of a digit string read after the value [acc]. *)
Fixpoint val (acc : Z) (ds : string) : Z :=
  match ds with
  | EmptyString => acc
  | String c r => val (acc * 10 + digit_val c) r
  end.

Lemma append_cons (c : ascii) (a b : string) :
  String.append (String c a) b = String c (String.append a b).
Proof. reflexivity. Qed.

Lemma append_nil_l (s : string) : String.append EmptyString s = s.
Proof. reflexivity. Qed.

Lemma append_nil_r (s : string) : String.append s EmptyString = s.
Proof. induction s as [|c r IH]; [done|]. by rewrite append_cons, IH. Qed.

Lemma append_assoc (a b c : string) :
  String.append (String.append a b) c = String.append a (String.append b c).
Proof. induction a as [|x r IH]; [done|]. by rewrite !append_cons, IH. Qed.

Lemma length_append (a b : string) :
  String.length (String.append a b) = (String.length a + String.length b)%nat.
Proof. induction a as [|x r IH]; [done|]. rewrite append_cons. simpl. by rewrite IH. Qed.

Lemma all_chars_append (p : ascii → bool) (a b : string) :
  Qstat.all_chars p (String.append a b)
  = Qstat.all_chars p a && Qstat.all_chars p b.
Proof.
  induction a as [|x r IH]; [done|]. rewrite append_cons. simpl.
  rewrite IH. by rewrite andb_assoc.
Qed.

Lemma val_append (a : Z) (x y : string) :
  val a (String.append x y) = val (val a x) y.
Proof.
  revert a. induction x as [|c r IH]; intros a; [done|].
  rewrite append_cons. simpl. apply IH.
Qed.

Lemma digit_val_char (d : Z) : 0 <= d < 10 → digit_val (digit_char d) = d.
Proof.
  intros H. unfold digit_val, digit_char.
  rewrite nat_ascii_embedding; lia.
Qed.

Lemma is_digit_char (d : Z) : 0 <= d < 10 → is_digit (digit_char d) = true.
Proof.
  intros H. unfold is_digit, digit_char. rewrite nat_ascii_embedding by lia.
  apply andb_true_iff. split; apply Nat.leb_le; lia.
Qed.

(** The digits that [pos_digits] puts before [acc]. *)
Lemma pos_digits_spec (fuel : nat) :
  ∀ z acc, 0 <= z < 2 ^ Z.of_nat (S fuel) →
    ∃ ds, pos_digits (S fuel) z acc = String.append ds acc
          ∧ ds ≠ EmptyString
          ∧ Qstat.all_chars is_digit ds = true
          ∧ ∀ a, val a ds = a * 10 ^ Z.of_nat (String.length ds) + z.
Proof.
  induction fuel as [|k IH]; intros z acc Hz;
    cbn [pos_digits]; destruct (z <? 10) eqn:E.
  1, 3: apply Z.ltb_lt in E;
    exists (String (digit_char (z mod 10)) EmptyString);
    rewrite Z.mod_small by lia; split_and!; [done|done| |];
    [simpl; by rewrite is_digit_char by lia
    |intros a; simpl; rewrite digit_val_char by lia; lia].
  - apply Z.ltb_ge in E. change (2 ^ Z.of_nat 1) with 2 in Hz. lia.
  - apply Z.ltb_ge in E.
    destruct (IH (z / 10) (String (digit_char (z mod 10)) acc))
      as (ds & Hp & Hne & Hd & Hv).
    { split; [apply Z.div_pos; lia|].
      rewrite (Nat2Z.inj_succ (S k)), Z.pow_succ_r in Hz by lia.
      apply Z.div_lt_upper_bound; lia. }
    exists (String.append ds (String (digit_char (z mod 10)) EmptyString)).
    split_and!.
    + cbn [pos_digits] in Hp. rewrite Hp, append_assoc. done.
    + destruct ds; [done|discriminate].
    + rewrite all_chars_append, Hd. simpl.
      rewrite is_digit_char; [done|]. apply Z.mod_pos_bound. lia.
    + intros a. rewrite val_append, Hv. simpl.
      rewrite digit_val_char by (apply Z.mod_pos_bound; lia).
      rewrite length_append. simpl.
      rewrite Nat2Z.inj_add, Z.pow_add_r by lia. change (Z.of_nat 1) with 1.
      rewrite Z.pow_1_r. pose proof (Z.div_mod z 10). lia.
Qed.

Lemma digits_of_spec (z : Z) :
  0 <= z →
  digits_of z ≠ EmptyString
  ∧ Qstat.all_chars is_digit (digits_of z) = true
  ∧ val 0 (digits_of z) = z.
Proof.
  intros Hz. unfold digits_of.
  destruct (pos_digits_spec (Z.to_nat (Z.log2 z)) z EmptyString)
    as (ds & Hp & Hne & Hd & Hv).
  { split; [done|]. rewrite Nat2Z.inj_succ, Z2Nat.id by apply Z.log2_nonneg.
    destruct (Z.eq_dec z 0) as [->|]; [done|].
    apply Z.log2_spec. lia. }
  rewrite Hp, append_nil_r. split_and!; [done|done|]. rewrite Hv. lia.
Qed.

(** Reading digits: all of them are consumed. *)
Lemma scan_digits_from_digits (ds : string) :
  ∀ acc n, Qstat.all_chars is_digit ds = true →
    scan_digits_from acc n ds
    = (val acc ds, (n + String.length ds)%nat, EmptyString).
Proof.
  induction ds as [|c r IH]; intros acc n H; simpl.
  - by rewrite Nat.add_0_r.
  - simpl in H. apply andb_true_iff in H as [Hc Hr]. rewrite Hc.
    rewrite IH by done. f_equal. f_equal. lia.
Qed.

Lemma scan_digits_digits (ds : string) :
  ds ≠ EmptyString → Qstat.all_chars is_digit ds = true →
  scan_digits ds = Some (val 0 ds, String.length ds, EmptyString).
Proof.
  destruct ds as [|c r]; [done|]. intros _ H. simpl in H.
  apply andb_true_iff in H as [Hc Hr]. unfold scan_digits. rewrite Hc.
  rewrite scan_digits_from_digits by done. done.
Qed.

Lemma digit_not_space (c : ascii) : is_digit c = true → is_space c = false.
Proof. destruct c as [[] [] [] [] [] [] [] []]; done. Qed.

Lemma rstrip_digits (ds : string) :
  Qstat.all_chars is_digit ds = true → rstrip ds = ds.
Proof.
  induction ds as [|c r IH]; simpl; [done|].
  intros [Hc Hr]%andb_true_iff. rewrite IH by done.
  destruct r; [|done]. by rewrite digit_not_space.
Qed.

Lemma strip_digits (ds : string) :
  Qstat.all_chars is_digit ds = true → strip ds = ds.
Proof.
  intros H. unfold strip.
  assert (lstrip ds = ds) as ->.
  { destruct ds as [|c r]; [done|]. simpl in *.
    apply andb_true_iff in H as [Hc _]. by rewrite digit_not_space. }
  by apply rstrip_digits.
Qed.

Lemma digit_not_blank (c : ascii) : is_digit c = true → is_blank c = false.
Proof. destruct c as [[] [] [] [] [] [] [] []]; done. Qed.

Lemma drop_blanks_digits (ds : string) :
  Qstat.all_chars is_digit ds = true → drop_blanks ds = ds.
Proof.
  induction ds as [|c r IH]; simpl; [done|].
  intros [Hc Hr]%andb_true_iff. rewrite IH by done.
  destruct r; [|done]. by rewrite digit_not_blank.
Qed.

Lemma trim_blanks_digits (ds : string) :
  Qstat.all_chars is_digit ds = true → trim_blanks ds = ds.
Proof.
  intros H. unfold trim_blanks.
  assert (skip_blanks ds = ds) as ->.
  { destruct ds as [|c r]; [done|]. simpl in *.
    apply andb_true_iff in H as [Hc _]. by rewrite digit_not_blank. }
  by apply drop_blanks_digits.
Qed.

(** A minus sign before digits. *)
Lemma trim_blanks_negative (ds : string) :
  ds ≠ EmptyString → Qstat.all_chars is_digit ds = true →
  trim_blanks (String "-" ds) = String "-" ds.
Proof.
  intros Hne Hd. unfold trim_blanks. cbn [skip_blanks].
  change (is_blank "-") with false. cbv iota.
  cbn [drop_blanks]. rewrite drop_blanks_digits by done.
  destruct ds; done.
Qed.

Lemma digit_not_sign (c : ascii) :
  is_digit c = true → ascii_eqb c "-" = false ∧ ascii_eqb c "+" = false.
Proof. destruct c as [[] [] [] [] [] [] [] []]; done. Qed.

(** [int] of a string of digits. *)
Lemma int_of_digits (ds : string) :
  ds ≠ EmptyString → Qstat.all_chars is_digit ds = true →
  int_of_string ds = Ok (val 0 ds).
Proof.
  intros Hne Hd. unfold int_of_string. rewrite trim_blanks_digits by done.
  assert (scan_sign ds = (false, ds)) as ->.
  { destruct ds as [|c r]; [done|]. simpl in *.
    apply andb_true_iff in Hd as [Hc _].
    destruct (digit_not_sign c Hc) as [-> ->]. done. }
  rewrite scan_digits_digits by done. done.
Qed.

(** [int(str(z))] is [z]. *)
Lemma int_of_str_of_int (z : Z) : int_of_string (str_of_int z) = Ok z.
Proof.
  unfold str_of_int. destruct (z <? 0) eqn:E.
  - apply Z.ltb_lt in E.
    destruct (digits_of_spec (- z)) as (Hne & Hd & Hv); [lia|].
    unfold int_of_string. rewrite trim_blanks_negative by done.
    cbn [scan_sign]. change (ascii_eqb "-" "-") with true. cbv iota.
    rewrite scan_digits_digits by done. rewrite Hv. simpl. f_equal. lia.
  - apply Z.ltb_ge in E. destruct (digits_of_spec z) as (Hne & Hd & Hv); [lia|].
    rewrite int_of_digits by done. by rewrite Hv.
Qed.

End Numerals.

(** ** The text of an elapsed time *)

Module TimeFacts.
Import Text Re Py Dt Qstat Numerals.

Definition no_char (sep : ascii) (s : string) : bool :=
  all_chars (fun x => negb (ascii_eqb x sep)) s.

Lemma split_no_sep (sep : ascii) (a : string) :
  no_char sep a = true → split sep a = [a].
Proof.
  induction a as [|c r IH]; [done|]. unfold no_char. simpl.
  intros [Hc Hr]%andb_true_iff. apply negb_true_iff in Hc. rewrite Hc.
  by rewrite (IH Hr).
Qed.

Lemma split_append (sep : ascii) (a b : string) :
  no_char sep a = true →
  split sep (String.append a (String sep b)) = a :: split sep b.
Proof.
  induction a as [|c r IH].
  - intros _. rewrite append_nil_l. simpl.
    unfold ascii_eqb. by rewrite Ascii.eqb_refl.
  - rewrite append_cons. unfold no_char. cbn [all_chars split].
    intros [Hc Hr]%andb_true_iff.
    apply negb_true_iff in Hc. rewrite Hc.
    by rewrite (IH Hr).
Qed.

Lemma digits_no_char (sep : ascii) (ds : string) :
  is_digit sep = false → all_chars is_digit ds = true → no_char sep ds = true.
Proof.
  intros Hs. unfold no_char. induction ds as [|c r IH]; [done|]. simpl.
  intros [Hc Hr]%andb_true_iff. rewrite (IH Hr), andb_true_r.
  apply negb_true_iff. unfold ascii_eqb.
  destruct (Ascii.eqb_spec c sep) as [->|]; [congruence|done].
Qed.

(** [f"{z:02d}"] of a natural number: digits that read back as [z]. *)
Lemma two_digits_spec (z : Z) :
  0 <= z →
  two_digits z ≠ EmptyString
  ∧ all_chars is_digit (two_digits z) = true
  ∧ val 0 (two_digits z) = z.
Proof.
  intros Hz. destruct (digits_of_spec z Hz) as (Hne & Hd & Hv).
  unfold two_digits, str_of_int.
  replace (z <? 0) with false by (symmetry; apply Z.ltb_ge; lia).
  destruct ((0 <=? z) && (z <? 10)); [|done].
  split_and!; [done|simpl; by rewrite Hd|simpl; exact Hv].
Qed.

Definition two_chars (s : string) : bool :=
  match s with
  | String a (String b EmptyString) => is_digit a && is_digit b
  | _ => false
  end.

Lemma two_digits_two_chars (z : Z) :
  0 <= z < 100 → two_chars (two_digits z) = true.
Proof.
  intros Hz.
  assert (H : forallb (fun n => two_chars (two_digits (Z.of_nat n)))
                      (seq 0 100) = true) by (vm_compute; reflexivity).
  rewrite forallb_forall in H. specialize (H (Z.to_nat z)).
  rewrite Z2Nat.id in H by lia. apply H. apply in_seq. lia.
Qed.

(** The parts of an elapsed time. *)
Lemma hms_parts (n : Z) :
  0 <= n →
  0 <= n / 3600 ∧ 0 <= n mod 3600 / 60 < 60 ∧ 0 <= n mod 60 < 60
  ∧ n / 3600 * 60 * 60 + n mod 3600 / 60 * 60 + n mod 60 = n.
Proof.
  intros Hn.
  pose proof (Z.div_mod n 3600 ltac:(lia)) as H1.
  pose proof (Z.mod_pos_bound n 3600 ltac:(lia)) as B1.
  pose proof (Z.div_mod (n mod 3600) 60 ltac:(lia)) as H2.
  pose proof (Z.mod_pos_bound (n mod 3600) 60 ltac:(lia)) as B2.
  pose proof (Z.mod_pos_bound n 60 ltac:(lia)) as B3.
  assert (H3 : (n mod 3600) mod 60 = n mod 60).
  { replace (n mod 3600) with (n + (- 60 * (n / 3600)) * 60) by lia.
    apply Z.mod_add. lia. }
  assert (0 <= n / 3600) by (apply Z.div_pos; lia).
  assert (0 <= n mod 3600 / 60) by (apply Z.div_pos; lia).
  assert (n mod 3600 / 60 < 60) by (apply Z.div_lt_upper_bound; lia).
  lia.
Qed.

(** The text of an elapsed time splits into its three numerals. *)
Lemma split_hms (n : Z) :
  0 <= n →
  split ":" (hms n)
  = [two_digits (n / 3600); two_digits (n mod 3600 / 60); two_digits (n mod 60)].
Proof.
  intros Hn. destruct (hms_parts n Hn) as (Hh & Hm & Hs & _).
  destruct (two_digits_spec _ Hh) as (_ & Dh & _).
  destruct (two_digits_spec (n mod 3600 / 60)) as (_ & Dm & _); [lia|].
  destruct (two_digits_spec (n mod 60)) as (_ & Ds & _); [lia|].
  unfold hms. rewrite split_append by (by apply digits_no_char).
  rewrite split_append by (by apply digits_no_char).
  rewrite split_no_sep by (by apply digits_no_char). done.
Qed.

Lemma int_of_two_digits (z : Z) : 0 <= z → int_of_string (two_digits z) = Ok z.
Proof.
  intros Hz. destruct (two_digits_spec z Hz) as (Hne & Hd & Hv).
  rewrite int_of_digits by done. by rewrite Hv.
Qed.

(** Reading back the text of an elapsed time gives its seconds. *)
Lemma seconds_of_hms (n : Z) :
  0 <= n → string_time_to_seconds (VStr (hms n)) = Ok n.
Proof.
  intros Hn. destruct (hms_parts n Hn) as (Hh & Hm & Hs & He).
  unfold string_time_to_seconds, get_integers. rewrite split_hms by done.
  rewrite !int_of_two_digits by lia. simpl. f_equal. lia.
Qed.

(** *** The duration pattern on such a text *)

Lemma rmatch_class (p : ascii → bool) (caps : captures) (c : ascii)
  (r : string) :
  rmatch (Class p) (caps, String c r) = if p c then [(caps, r)] else [].
Proof. reflexivity. Qed.

Lemma star_digits_head (ds rest : string) (caps : captures) :
  all_chars is_digit ds = true →
  match rest with String c _ => is_digit c = false | EmptyString => True end →
  ∀ fuel, (String.length ds ≤ fuel)%nat →
    ∃ tl, star_with (rmatch digit) fuel (caps, String.append ds rest)
          = (caps, rest) :: tl.
Proof.
  intros Hd Hr. induction ds as [|c r IH]; intros fuel Hf.
  - rewrite append_nil_l. destruct fuel as [|k]; [by exists []|].
    exists []. cbn [star_with].
    destruct rest as [|c r]; [done|].
    unfold digit. rewrite rmatch_class, Hr. done.
  - simpl in Hd. apply andb_true_iff in Hd as [Hc Hd].
    destruct fuel as [|k]; [simpl in Hf; lia|].
    destruct (IH Hd k) as (tl & Htl); [simpl in Hf; lia|].
    rewrite append_cons. cbn [star_with].
    unfold digit at 2. rewrite rmatch_class, Hc. cbn [flat_map snd].
    replace (String.length (String.append r rest)
             <? String.length (String c (String.append r rest)))%nat
      with true by (symmetry; apply Nat.ltb_lt; simpl; lia).
    rewrite Htl. rewrite app_nil_r. eexists. reflexivity.
Qed.

Lemma flat_map_head {A B : Type} (f : A → list B) (x : A) (tl : list A) :
  f x ≠ [] → flat_map f (x :: tl) ≠ [].
Proof. simpl. destruct (f x); [done|]. discriminate. Qed.

Lemma flat_map_single {A B : Type} (f : A → list B) (x : A) :
  flat_map f [x] = f x.
Proof. simpl. apply app_nil_r. Qed.

Lemma rmatch_seq (r1 r2 : regex) (o : outcome) :
  rmatch (Seq r1 r2) o = flat_map (rmatch r2) (rmatch r1 o).
Proof. reflexivity. Qed.

Lemma rmatch_star (r : regex) (caps : captures) (s : string) :
  rmatch (Star r) (caps, s)
  = star_with (rmatch r) (String.length s) (caps, s).
Proof. reflexivity. Qed.

Lemma rmatch_chr (c : ascii) (caps : captures) (r : string) :
  rmatch (Chr c) (caps, String c r) = [(caps, r)].
Proof.
  unfold Chr. rewrite rmatch_class. unfold ascii_eqb.
  by rewrite Ascii.eqb_refl.
Qed.

Lemma rmatch_digit (c : ascii) (caps : captures) (r : string) :
  is_digit c = true → rmatch digit (caps, String c r) = [(caps, r)].
Proof. intros H. unfold digit. by rewrite rmatch_class, H. Qed.

(** Two digits, then [r]. *)
Lemma rmatch_two_digits (a b : ascii) (caps : captures) (s : string)
  (r : regex) :
  is_digit a = true → is_digit b = true →
  rmatch (Seq (Rep 2 digit) r) (caps, String a (String b s))
  = rmatch r (caps, s).
Proof.
  intros Ha Hb. cbn [Rep]. rewrite !rmatch_seq.
  rewrite (rmatch_digit a) by done. rewrite flat_map_single, rmatch_seq.
  rewrite (rmatch_digit b) by done. rewrite flat_map_single.
  cbn [rmatch]. apply flat_map_single.
Qed.

Lemma matches_duration (n : Z) : 0 <= n → matches re_duration (hms n) = true.
Proof.
  intros Hn. destruct (hms_parts n Hn) as (Hh & Hm & Hs & _).
  destruct (two_digits_spec _ Hh) as (Nh & Dh & _).
  pose proof (two_digits_two_chars (n mod 3600 / 60) ltac:(lia)) as Tm.
  pose proof (two_digits_two_chars (n mod 60) ltac:(lia)) as Ts.
  unfold hms.
  destruct (two_digits (n mod 3600 / 60)) as [|m1 [|m2 [|? ?]]]; try discriminate Tm.
  destruct (two_digits (n mod 60)) as [|s1 [|s2 [|? ?]]]; try discriminate Ts.
  simpl in Tm, Ts. apply andb_true_iff in Tm as [M1 M2], Ts as [S1 S2].
  destruct (two_digits (n / 3600)) as [|h1 hr]; [done|].
  simpl in Dh. apply andb_true_iff in Dh as [H1 Hr].
  rewrite !append_cons, append_nil_l.
  set (rest := String ":" (String m1 (String m2
                 (String ":" (String s1 (String s2 EmptyString)))))).
  unfold matches, match_at, re_duration. cbn [Seqs].
  set (R := Seq colon (Seq (Rep 2 digit) (Seq colon (Seq (Rep 2 digit) Eol)))).
  assert (Hne : rmatch (Seq (Plus digit) R)
                  ([], String.append (String h1 hr) rest) ≠ []).
  { unfold Plus. rewrite append_cons, !rmatch_seq.
    rewrite (rmatch_digit h1) by done. rewrite flat_map_single.
    rewrite rmatch_star.
    destruct (star_digits_head hr rest [] Hr ltac:(done)
                (String.length (String.append hr rest))) as (tl & Htl).
    { rewrite length_append. lia. }
    rewrite Htl.
    apply flat_map_head. unfold rest, R, colon.
    rewrite rmatch_seq, rmatch_chr, flat_map_single.
    rewrite rmatch_two_digits by done.
    rewrite rmatch_seq, rmatch_chr, flat_map_single.
    rewrite rmatch_two_digits by done. done. }
  destruct (rmatch _ _); [done|reflexivity].
Qed.

End TimeFacts.

(** ** Text without blanks *)

Module CleanText.
Import Text Re Py Dt Qstat Numerals TimeFacts.

Definition clean (s : string) : bool :=
  all_chars (fun c => negb (is_space c)) s.

Lemma rstrip_clean (s : string) : clean s = true → rstrip s = s.
Proof.
  unfold clean. induction s as [|c r IH]; simpl; [done|].
  intros [Hc Hr]%andb_true_iff. rewrite IH by done.
  apply negb_true_iff in Hc. destruct r; [|done]. by rewrite Hc.
Qed.

Lemma strip_clean (s : string) : clean s = true → strip s = s.
Proof.
  intros H. unfold strip.
  assert (lstrip s = s) as ->.
  { destruct s as [|c r]; [done|]. unfold clean in H. simpl in *.
    apply andb_true_iff in H as [Hc _]. apply negb_true_iff in Hc.
    by rewrite Hc. }
  by apply rstrip_clean.
Qed.

Lemma all_chars_impl (p q : ascii → bool) (s : string) :
  (∀ c, p c = true → q c = true) →
  all_chars p s = true → all_chars q s = true.
Proof.
  intros Hpq. induction s as [|c r IH]; simpl; [done|].
  intros [Hc Hr]%andb_true_iff. by rewrite (Hpq c Hc), IH.
Qed.

Lemma digits_clean (ds : string) : all_chars is_digit ds = true → clean ds = true.
Proof.
  apply all_chars_impl. intros c Hc. by rewrite digit_not_space.
Qed.

Lemma clean_append (a b : string) :
  clean (String.append a b) = clean a && clean b.
Proof. apply all_chars_append. Qed.

Lemma hms_clean (n : Z) : 0 <= n → clean (hms n) = true.
Proof.
  intros Hn. destruct (hms_parts n Hn) as (Hh & Hm & Hs & _).
  destruct (two_digits_spec _ Hh) as (_ & Dh & _).
  destruct (two_digits_spec (n mod 3600 / 60)) as (_ & Dm & _); [lia|].
  destruct (two_digits_spec (n mod 60)) as (_ & Ds & _); [lia|].
  unfold hms. rewrite clean_append, digits_clean by done.
  unfold clean at 1. cbn [all_chars]. fold (clean (String.append
    (two_digits (n mod 3600 / 60)) (String ":" (two_digits (n mod 60))))).
  rewrite clean_append, digits_clean by done.
  unfold clean. cbn [all_chars]. fold (clean (two_digits (n mod 60))).
  by rewrite digits_clean.
Qed.

Lemma hms_starts_with_digit (n : Z) :
  0 <= n → ∃ c r, hms n = String c r ∧ is_digit c = true.
Proof.
  intros Hn. destruct (hms_parts n Hn) as (Hh & _).
  destruct (two_digits_spec _ Hh) as (Nh & Dh & _). unfold hms.
  destruct (two_digits (n / 3600)) as [|c r]; [done|].
  simpl in Dh. apply andb_true_iff in Dh as [Hc _].
  rewrite append_cons. eauto.
Qed.

Lemma hms_not_empty_value (n : Z) :
  0 <= n → is_empty_value (VStr (hms n)) = false.
Proof.
  intros Hn. destruct (hms_starts_with_digit n Hn) as (c & r & -> & Hc).
  unfold is_empty_value, eq_str. cbn [String.eqb].
  destruct (Ascii.eqb_spec c "-") as [->|]; [discriminate Hc|done].
Qed.

End CleanText.

(** ** Elapsed times as text and as sort keys *)

Module TimeProps.
Import Text Re Py Dt Qstat Numerals TimeFacts CleanText.

(** X3: the text that [calculate_elapsed_runtime] builds for a number of
    seconds that is not negative reads back as that number of seconds in
    [string_time_to_seconds]; the classifier calls it a time; and its sort
    key is the valid flag with the seconds. *)
Theorem elapsed_text_sorts_by_seconds (P : platform) (n : Z) (reverse : bool) :
  0 <= n →
  string_time_to_seconds (VStr (hms n)) = Ok n
  ∧ detect_value_type P (VStr (hms n)) = Ok T_time
  ∧ convert_value_for_sorting P (VStr (hms n)) None reverse
    = Ok (valid_flag reverse, VInt n).
Proof.
  intros Hn.
  assert (Hd : detect_value_type P (VStr (hms n)) = Ok T_time).
  { unfold detect_value_type. rewrite hms_not_empty_value by done.
    cbn [py_str]. rewrite strip_clean by (by apply hms_clean).
    by rewrite matches_duration. }
  split_and!; [by apply seconds_of_hms|done|].
  unfold convert_value_for_sorting. rewrite Hd. cbn [bind py_str].
  rewrite strip_clean by (by apply hms_clean).
  rewrite seconds_of_hms by done. reflexivity.
Qed.

Lemma elapsed_text_sorts_by_seconds_witness :
  0 <= 3725
  ∧ hms 3725 = "01:02:05"
  ∧ string_time_to_seconds (VStr (hms 3725)) = Ok 3725
  ∧ detect_value_type utc_host (VStr (hms 3725)) = Ok T_time
  ∧ convert_value_for_sorting utc_host (VStr (hms 3725)) None true
    = Ok (valid_flag true, VInt 3725).
Proof.
  split; [lia|]. split; [reflexivity|].
  apply (elapsed_text_sorts_by_seconds utc_host 3725 true). lia.
Defined.

End TimeProps.

(** ** [parse_pbs_time] on numerals and on values that are not text *)

Module ParseFacts.
Import Text Re Py Dt Qstat Numerals TimeFacts CleanText.

(** A weekday name starts with a letter. *)
Lemma re_a_not_alpha (c : ascii) (r : string) (caps : captures) :
  is_alpha c = false → rmatch re_a (caps, String c r) = [].
Proof.
  destruct c as [[] [] [] [] [] [] [] []]; intros H;
    try discriminate H; reflexivity.
Qed.

Section Host.
Variable P : platform.

Lemma strptime_not_alpha (c : ascii) (r : string) (fmt : format) :
  is_alpha c = false → fmt ≠ Year_compact →
  strptime P (String c r) fmt = Raise ValueError.
Proof.
  intros Hc Hf. unfold strptime, match_at.
  destruct fmt; [| |done]; unfold format_regex; cbn [Seqs];
    rewrite rmatch_seq, re_a_not_alpha by done; reflexivity.
Qed.

(** What is not text and is true runs into the [TypeError] of
    [strptime], which the loop of [parse_pbs_time] does not catch. *)
Lemma parse_pbs_time_not_text (v : pyval) :
  (∀ s, v ≠ VStr s) → truthy v = true →
  parse_pbs_time P v = Raise TypeError.
Proof.
  intros Hv Ht. unfold parse_pbs_time. rewrite Ht.
  destruct v; try reflexivity. by destruct (Hv s).
Qed.

Lemma str_of_int_shape (n : Z) :
  ∃ c r, str_of_int n = String c r ∧ is_alpha c = false.
Proof.
  unfold str_of_int. destruct (n <? 0) eqn:E.
  - eexists _, _. split; [reflexivity|done].
  - apply Z.ltb_ge in E. destruct (digits_of_spec n E) as (Hne & Hd & _).
    destruct (digits_of n) as [|c r]; [done|]. exists c, r. split; [done|].
    simpl in Hd. apply andb_true_iff in Hd as [Hc _].
    destruct c as [[] [] [] [] [] [] [] []]; try discriminate Hc; reflexivity.
Qed.

(** The text of an integer reaches the fallback of [parse_pbs_time]: the
    local time of that epoch second. *)
Lemma parse_pbs_time_numeral (n : Z) :
  parse_pbs_time P (VStr (str_of_int n))
  = match localtime P n with Some d => Ok d | None => Raise ValueError end.
Proof.
  destruct (str_of_int_shape n) as (c & r & E & Hc).
  unfold parse_pbs_time. rewrite E. cbn [truthy is_empty negb].
  unfold PBS_TIME_FORMATS, try_formats, py_strptime.
  rewrite !strptime_not_alpha by done. cbn [try_except one_of existsb exn_eqb orb].
  rewrite <- E. cbn [py_int]. rewrite int_of_str_of_int. cbn [bind].
  unfold fromtimestamp. destruct (localtime P n); reflexivity.
Qed.

End Host.
End ParseFacts.

(** ** Runtime and compact dates: what can and what cannot raise *)

Module ParseProps.
Import Text Re Py Dt Qstat Numerals TimeFacts CleanText ParseFacts.
Import ClassifierClaims.

Section Host.
Variable P : platform.

(** On any value [parse_pbs_time] returns, or raises [ValueError] or
    [TypeError]. *)
Lemma parse_pbs_time_outcome_any (v : pyval) :
  (∃ d, parse_pbs_time P v = Ok d)
  ∨ parse_pbs_time P v = Raise ValueError
  ∨ parse_pbs_time P v = Raise TypeError.
Proof.
  destruct (truthy v) eqn:Ht.
  - destruct v as [| | | |s| |];
      try (right; right; by apply parse_pbs_time_not_text).
    destruct (parse_pbs_time_outcome P s) as [?| ->]; auto.
  - right; left. unfold parse_pbs_time. by rewrite Ht.
Qed.

(** X4: for a job that is a dictionary [calculate_elapsed_runtime] never
    raises: it returns the placeholder or the text of a number of
    seconds. A queued job gets the placeholder whatever else it holds. *)
Theorem elapsed_runtime_total_on_dict (d : list (string * pyval)) :
  (calculate_elapsed_runtime P (VDict d) = Ok placeholder
   ∨ ∃ n, calculate_elapsed_runtime P (VDict d) = Ok (VStr (hms n)))
  ∧ (dict_lookup d "job_state" = Some (VStr "Q") →
     calculate_elapsed_runtime P (VDict d) = Ok placeholder).
Proof.
  unfold calculate_elapsed_runtime. cbn [get bind].
  set (state := match dict_lookup d "job_state" with
                | Some v => v | None => VStr EmptyString end).
  split.
  - destruct (eq_str state "Q"); [by left|].
    set (stime := match dict_lookup d "stime" with
                  | Some v => v | None => VStr EmptyString end).
    destruct (negb (truthy stime)); [by left|].
    destruct (parse_pbs_time_outcome_any stime) as [[t0 ->]|[-> | ->]];
      [|by left|by left].
    cbn [bind]. destruct (eq_str state "R"); [right; by eexists|].
    set (obit := match dict_lookup d "obittime" with
                 | Some v => v | None => VStr EmptyString end).
    destruct (negb (truthy obit)); [by left|].
    destruct (parse_pbs_time_outcome_any obit) as [[t1 ->]|[-> | ->]];
      [right; by eexists|by left|by left].
  - intros H. subst state. by rewrite H.
Qed.

(** X5: [format_datetime_compact] returns a text for every text and never
    raises on one. *)
Theorem compact_format_total_on_text (s : string) :
  ∃ t, format_datetime_compact P (VStr s) = Ok (VStr t).
Proof.
  unfold format_datetime_compact.
  destruct (negb (truthy (VStr s)) || eq_str (VStr s) "--"); [by eexists|].
  destruct (parse_pbs_time_outcome P s) as [[d ->]| ->]; [by eexists|].
  cbn [bind try_except any_exception truncate15].
  destruct (15 <? String.length s)%nat; by eexists.
Qed.

(** X6: an integer that is not zero never reaches the epoch fallback of
    [parse_pbs_time]: [strptime] raises [TypeError] first, and the handler
    of [format_datetime_compact] raises it again when it takes the length
    of the number. The text of the same integer does reach the fallback
    and gives the local time of that second. *)
Theorem compact_format_rejects_integer (n : Z) :
  n ≠ 0 →
  parse_pbs_time P (VInt n) = Raise TypeError
  ∧ format_datetime_compact P (VInt n) = Raise TypeError
  ∧ parse_pbs_time P (VStr (str_of_int n))
    = match localtime P n with Some d => Ok d | None => Raise ValueError end.
Proof.
  intros Hn.
  assert (Ht : truthy (VInt n) = true).
  { simpl. apply negb_true_iff, Z.eqb_neq. done. }
  assert (Hp : parse_pbs_time P (VInt n) = Raise TypeError)
    by (by apply parse_pbs_time_not_text).
  split_and!; [done| |apply parse_pbs_time_numeral].
  unfold format_datetime_compact. rewrite Ht, Hp. reflexivity.
Qed.

End Host.

Lemma compact_format_rejects_integer_witness :
  1699630815 ≠ 0
  ∧ parse_pbs_time utc_host (VInt 1699630815) = Raise TypeError
  ∧ format_datetime_compact utc_host (VInt 1699630815) = Raise TypeError
  ∧ parse_pbs_time utc_host (VStr (str_of_int 1699630815))
    = match localtime utc_host 1699630815 with
      | Some d => Ok d | None => Raise ValueError end.
Proof.
  split; [lia|]. apply (compact_format_rejects_integer utc_host 1699630815). lia.
Defined.

End ParseProps.

(** ** Integer numerals under the classifier *)

Module NumeralFacts.
Import Text Re Py Dt Qstat Numerals TimeFacts CleanText ParseFacts.
Import ClassifierClaims.

Lemma flat_map_nil {A B : Type} (f : A → list B) (l : list A) :
  (∀ x, In x l → f x = []) → flat_map f l = [].
Proof.
  induction l as [|x r IH]; intros H; simpl; [done|].
  rewrite (H x) by (by left). apply IH. intros y Hy. apply H. by right.
Qed.

(** Iterating [\d] over digits leaves digits. *)
Lemma star_digits_rest (fuel : nat) :
  ∀ ds caps o, all_chars is_digit ds = true →
    In o (star_with (rmatch digit) fuel (caps, ds)) →
    all_chars is_digit (snd o) = true.
Proof.
  induction fuel as [|k IH]; intros ds caps o Hd Ho.
  - destruct Ho as [<-|[]]. done.
  - cbn [star_with] in Ho. apply in_app_or in Ho as [Ho|[<-|[]]]; [|done].
    destruct ds as [|c r]; [destruct Ho|].
    simpl in Hd. apply andb_true_iff in Hd as [Hc Hr].
    rewrite rmatch_digit in Ho by done. rewrite flat_map_single in Ho.
    cbn [snd] in Ho. destruct (_ <? _)%nat; [|destruct Ho].
    by apply (IH r caps).
Qed.

Lemma colon_on_digits (r : regex) (o : outcome) :
  all_chars is_digit (snd o) = true → rmatch (Seq colon r) o = [].
Proof.
  destruct o as [caps [|c s]]; [done|]. cbn [snd all_chars].
  intros [Hc _]%andb_true_iff. rewrite rmatch_seq. unfold colon, Chr.
  rewrite rmatch_class. unfold ascii_eqb.
  destruct (Ascii.eqb_spec ":" c) as [<-|]; [discriminate Hc|done].
Qed.

Lemma rmatch_digit_fail (c : ascii) (caps : captures) (r : string) :
  is_digit c = false → rmatch digit (caps, String c r) = [].
Proof. intros H. unfold digit. by rewrite rmatch_class, H. Qed.

(** The duration pattern needs a colon. *)
Lemma numeral_not_duration (n : Z) : matches re_duration (str_of_int n) = false.
Proof.
  unfold matches, match_at, re_duration. cbn [Seqs]. unfold Plus.
  rewrite (rmatch_seq (Seq digit (Star digit))), (rmatch_seq digit).
  unfold str_of_int. destruct (n <? 0) eqn:E.
  - rewrite rmatch_digit_fail by done. reflexivity.
  - apply Z.ltb_ge in E. destruct (digits_of_spec n E) as (Hne & Hd & _).
    destruct (digits_of n) as [|c r]; [done|].
    simpl in Hd. apply andb_true_iff in Hd as [Hc Hr].
    rewrite rmatch_digit by done. rewrite flat_map_single, rmatch_star.
    rewrite flat_map_nil; [done|].
    intros o Ho. apply colon_on_digits.
    by apply (star_digits_rest (String.length r) r []).
Qed.

Lemma str_of_int_clean (n : Z) : clean (str_of_int n) = true.
Proof.
  unfold str_of_int. destruct (n <? 0) eqn:E.
  - apply Z.ltb_lt in E. destruct (digits_of_spec (- n)) as (_ & Hd & _); [lia|].
    unfold clean. cbn [all_chars]. fold (clean (digits_of (- n))).
    by rewrite digits_clean.
  - apply Z.ltb_ge in E. destruct (digits_of_spec n E) as (_ & Hd & _).
    by apply digits_clean.
Qed.

Lemma str_of_int_not_empty_value (n : Z) :
  is_empty_value (VStr (str_of_int n)) = false.
Proof.
  unfold str_of_int. destruct (n <? 0) eqn:E.
  - apply Z.ltb_lt in E. destruct (digits_of_spec (- n)) as (Hne & Hd & _); [lia|].
    destruct (digits_of (- n)) as [|c r]; [done|].
    simpl in Hd. apply andb_true_iff in Hd as [Hc _].
    unfold is_empty_value, eq_str. cbn [String.eqb].
    destruct (Ascii.eqb_spec c "-") as [->|]; [discriminate Hc|].
    change (Ascii.eqb "-" "-") with true. cbv iota. by rewrite orb_false_r.
  - apply Z.ltb_ge in E. destruct (digits_of_spec n E) as (Hne & Hd & _).
    destruct (digits_of n) as [|c r]; [done|].
    simpl in Hd. apply andb_true_iff in Hd as [Hc _].
    unfold is_empty_value, eq_str. cbn [String.eqb].
    destruct (Ascii.eqb_spec c "-") as [->|]; [discriminate Hc|done].
Qed.

Section Host.
Variable P : platform.

(** The classifier on the text of an integer, and on the integer. *)
Lemma classify_numeral (n : Z) (d : datetime) :
  localtime P n = Some d →
  detect_value_type P (VStr (str_of_int n)) = Ok T_datetime
  ∧ detect_value_type P (VInt n) = Ok T_datetime.
Proof.
  intros Hl.
  assert (H : ∀ v, is_empty_value v = false → py_str v = str_of_int n →
                   detect_value_type P v = Ok T_datetime).
  { intros v He Hs. rewrite detect_value_type_classify. f_equal.
    unfold classify. rewrite He, Hs, strip_clean by apply str_of_int_clean.
    rewrite numeral_not_duration. unfold accepted_timestamp.
    by rewrite parse_pbs_time_numeral, Hl. }
  split; apply H; try done. apply str_of_int_not_empty_value.
Qed.

End Host.
End NumeralFacts.

(** ** Extra columns: cells and failures *)

Module ColumnProps.
Import Text Re Py Dt Routing Qstat Pipeline Numerals TimeFacts CleanText.
Import ParseFacts NumeralFacts.

Section Host.
Variable P : platform.

(** X7: a cell that holds an integer other than zero, with a local time
    on the host, makes the extraction raise: the classifier reads the
    digits as epoch seconds and calls the cell a datetime, and
    [format_datetime_compact] then fails on the number. When that column
    is the first of the list, the handler of [get_extra_columns_data]
    logs the error and then raises [UnboundLocalError], since
    [column_name] was never assigned. *)
Theorem integer_cell_raises (job : pyval) (column_spec : string)
  (rest : list string) (n : Z) (d : datetime) (l : list log_entry) :
  n ≠ 0 →
  localtime P n = Some d →
  walk job (split "." (fst (spec_names column_spec))) = VInt n →
  extract_extra_column_value P job column_spec l = (Raise TypeError, l)
  ∧ get_extra_columns_data P job (column_spec :: rest) l
    = (Raise UnboundLocalError, l ++ [Warning_column_error column_spec TypeError]).
Proof.
  intros Hn Hl Hw.
  assert (Ht : truthy (VInt n) = true).
  { simpl. by apply negb_true_iff, Z.eqb_neq. }
  assert (He : extract_extra_column_value P job column_spec l
               = (Raise TypeError, l)).
  { unfold extract_extra_column_value.
    destruct (spec_names column_spec) as [field_path display] eqn:Es.
    cbn [fst] in Hw. rewrite Hw.
    assert (Hf : format_datetime_compact P (VInt n) = Raise TypeError).
    { unfold format_datetime_compact.
      rewrite Ht, (parse_pbs_time_not_text P (VInt n)) by done. reflexivity. }
    destruct (classify_numeral P n d Hl) as [_ Hc].
    assert (Ha : get_award_category_display (VInt n) = Ok (VInt n)).
    { unfold get_award_category_display. by rewrite Ht. }
    unfold mbind, ret, lift. rewrite Ha.
    destruct (String.eqb field_path "Resource_List.award_category");
      rewrite Ht; cbn [negb eq_str andb]; rewrite Hc, Hf; reflexivity. }
  split; [done|].
  unfold get_extra_columns_data. cbn [extra_columns_loop].
  unfold mbind at 1. unfold mtry. unfold mbind at 1. rewrite He.
  reflexivity.
Qed.

(** X8: when the extraction of a later column raises, the handler of
    [get_extra_columns_data] writes the placeholder under [column_name],
    which still holds the name of the column before: the cell of that
    column is lost, and the failing column gets no cell at all. *)
Theorem failing_column_overwrites_previous (job : pyval)
  (spec1 spec2 : string) (n1 : string) (v1 : pyval) (e : exn)
  (l l1 l2 : list log_entry) :
  extract_extra_column_value P job spec1 l = (Ok (n1, v1), l1) →
  extract_extra_column_value P job spec2 l1 = (Raise e, l2) →
  get_extra_columns_data P job [spec1; spec2] l
  = (Ok [(n1, placeholder)], l2 ++ [Warning_column_error spec2 e]).
Proof.
  intros H1 H2. unfold get_extra_columns_data. cbn [extra_columns_loop].
  unfold mbind at 1. unfold mtry at 1. unfold mbind at 1. rewrite H1.
  unfold ret at 1. unfold mbind at 1. unfold mtry at 1. unfold mbind at 1.
  rewrite H2. unfold any_exception, mbind, emit, ret. cbn [dict_set].
  by rewrite String.eqb_refl.
Qed.

Lemma award_not_dict (v w : pyval) :
  is_dict v = false → get_award_category_display v = Ok w → is_dict w = false.
Proof.
  unfold get_award_category_display. intros Hv.
  destruct (negb (truthy v)); [by intros [= <-]|].
  destruct v; try (by intros [= <-]); try done.
  destruct (assoc s AWARD_CATEGORY_MAP); by intros [= <-].
Qed.

Lemma award_outcome (v : pyval) :
  (∃ w, get_award_category_display v = Ok w)
  ∨ get_award_category_display v = Raise TypeError.
Proof.
  unfold get_award_category_display.
  destruct (negb (truthy v)); [eauto|]. destruct v; eauto.
Qed.

Lemma compact_outcome (v : pyval) :
  is_dict v = false →
  (∃ w, format_datetime_compact P v = Ok w ∧ is_dict w = false)
  ∨ format_datetime_compact P v = Raise TypeError.
Proof.
  intros Hv. unfold format_datetime_compact.
  destruct (negb (truthy v) || eq_str v "--"); [left; by eexists|].
  assert (Ht : (∃ w, truncate15 v = Ok w ∧ is_dict w = false)
               ∨ truncate15 v = Raise TypeError).
  { destruct v; try done; cbn [truncate15]; auto; left; eexists;
      (split; [reflexivity|]);
      match goal with |- context [if ?b then _ else _] => by destruct b end. }
  destruct (ParseProps.parse_pbs_time_outcome_any P v) as [[d ->]|[-> | ->]];
    cbn [bind try_except any_exception]; [left; by eexists|done|done].
Qed.

(** X9: an extraction returns the display name of its column with a cell
    that is never a dictionary, or raises [TypeError]; it raises nothing
    else. A path that leaves the dictionaries of the job gives the
    placeholder and logs nothing. *)
Theorem extracted_cell_is_not_a_dict (job : pyval) (column_spec : string)
  (l : list log_entry) :
  ((∃ v l', extract_extra_column_value P job column_spec l
            = (Ok (display_name column_spec, v), l')
            ∧ is_dict v = false)
   ∨ ∃ l', extract_extra_column_value P job column_spec l
           = (Raise TypeError, l'))
  ∧ (walk job (split "." (fst (spec_names column_spec))) = placeholder →
     extract_extra_column_value P job column_spec l
     = (Ok (display_name column_spec, placeholder), l)).
Proof.
  split.
  - destruct (extract_extra_column_value P job column_spec l) as [r lr] eqn:Er.
    unfold extract_extra_column_value, display_name in *.
    destruct (spec_names column_spec) as [field_path display]. cbn [fst snd].
    set (w := walk job (split "." field_path)) in *.
    assert (H1 : ∃ v1 l1, is_dict v1 = false ∧
              (match w with
               | VDict d =>
                   mbind (if truthy w
                          then emit (Warning_path_is_dict column_spec field_path
                                       (firstn 5 (map fst d)))
                          else ret tt) (fun _ => ret placeholder)
               | _ => ret w
               end) l = (Ok v1, l1)).
    { destruct w; try (eexists _, _; split; [|reflexivity]; reflexivity).
      destruct (truthy (VDict d));
        (eexists _, _; split; [|reflexivity]; reflexivity). }
    destruct H1 as (v1 & l1 & Hd1 & E1). unfold mbind at 1 in Er.
    rewrite E1 in Er. unfold mbind at 1 in Er.
    assert (H2 : (∃ v2, is_dict v2 = false ∧
                   (if String.eqb field_path "Resource_List.award_category"
                    then lift (get_award_category_display v1) else ret v1) l1
                   = (Ok v2, l1))
                 ∨ (if String.eqb field_path "Resource_List.award_category"
                    then lift (get_award_category_display v1) else ret v1) l1
                   = (Raise TypeError, l1)).
    { destruct (String.eqb field_path "Resource_List.award_category");
        [|left; by exists v1].
      unfold lift. destruct (award_outcome v1) as [[v2 E]| ->]; [|by right].
      left. exists v2. rewrite E. split; [|done]. by apply (award_not_dict v1). }
    destruct H2 as [(v2 & Hd2 & E2)|E2]; rewrite E2 in Er;
      [|injection Er as <- <-; right; by eexists].
    unfold mbind at 1 in Er.
    destruct (truthy v2 && negb (eq_str v2 "--"));
      [|injection Er as <- <-; left; by exists v2, l1].
    unfold mbind, lift in Er.
    rewrite ClassifierClaims.detect_value_type_classify in Er.
    destruct (ClassifierClaims.classify P v2);
      try (injection Er as <- <-; left; by exists v2, l1).
    destruct (compact_outcome v2 Hd2) as [(v3 & E3 & Hd3)|E3]; rewrite E3 in Er;
      injection Er as <- <-; [left; by exists v3, l1|right; by eexists].
  - unfold extract_extra_column_value, display_name.
    destruct (spec_names column_spec) as [field_path display]. cbn [fst snd].
    intros ->. unfold mbind, ret, lift. cbn.
    destruct (String.eqb field_path "Resource_List.award_category"); reflexivity.
Qed.

End Host.

Definition cpus_job : pyval :=
  VDict [("Resource_List", VDict [("ncpus", VInt 64)])].

Lemma integer_cell_raises_witness :
  64 ≠ 0
  ∧ localtime utc_host 64 = Some (Datetime 1970 1 1 0 1 4 0)
  ∧ walk cpus_job (split "." (fst (spec_names "Resource_List.ncpus")))
    = VInt 64
  ∧ extract_extra_column_value utc_host cpus_job "Resource_List.ncpus" []
    = (Raise TypeError, [])
  ∧ get_extra_columns_data utc_host cpus_job ["Resource_List.ncpus"] []
    = (Raise UnboundLocalError,
       [] ++ [Warning_column_error "Resource_List.ncpus" TypeError]).
Proof.
  split; [lia|]. split; [reflexivity|]. split; [reflexivity|].
  apply (integer_cell_raises utc_host cpus_job "Resource_List.ncpus" [] 64
           (Datetime 1970 1 1 0 1 4 0) []); [lia|reflexivity|reflexivity].
Defined.

Definition started_job : pyval :=
  VDict [("stime", VStr "Sun Jun  1 11:00:00 2025");
         ("Resource_List", VDict [("ncpus", VInt 64)])].

Lemma failing_column_overwrites_previous_witness :
  extract_extra_column_value utc_host started_job "stime" []
  = (Ok ("stime", VStr "06/01 11:00"), [])
  ∧ extract_extra_column_value utc_host started_job "Resource_List.ncpus" []
    = (Raise TypeError, [])
  ∧ get_extra_columns_data utc_host started_job
      ["stime"; "Resource_List.ncpus"] []
    = (Ok [("stime", placeholder)],
       [] ++ [Warning_column_error "Resource_List.ncpus" TypeError]).
Proof.
  assert (H1 : extract_extra_column_value utc_host started_job "stime" []
               = (Ok ("stime", VStr "06/01 11:00"), []))
    by (vm_compute; reflexivity).
  assert (H2 : extract_extra_column_value utc_host started_job
                 "Resource_List.ncpus" [] = (Raise TypeError, []))
    by (vm_compute; reflexivity).
  split; [exact H1|]. split; [exact H2|].
  exact (failing_column_overwrites_previous utc_host started_job "stime"
           "Resource_List.ncpus" "stime" (VStr "06/01 11:00") TypeError
           [] [] [] H1 H2).
Defined.

End ColumnProps.

(** ** The classifier on integers *)

Module ClassifierBug.
Import Text Re Py Dt Qstat Numerals TimeFacts CleanText ParseFacts.
Import ClassifierClaims NumeralFacts.

Lemma digit_lower (c : ascii) : is_digit c = true → lower_char c = c.
Proof. destruct c as [[] [] [] [] [] [] [] []]; done. Qed.

(** Digits are none of the words that [float] reads. *)
Lemma digits_not_word (ds : string) :
  ds ≠ EmptyString → all_chars is_digit ds = true →
  String.eqb (lower ds) "inf" || String.eqb (lower ds) "infinity" = false
  ∧ String.eqb (lower ds) "nan" = false.
Proof.
  destruct ds as [|c r]; [done|]. intros _ H. simpl in H.
  apply andb_true_iff in H as [Hc _]. cbn [lower]. rewrite digit_lower by done.
  cbn [String.eqb].
  destruct (Ascii.eqb_spec c "i") as [->|]; [discriminate Hc|].
  destruct (Ascii.eqb_spec c "n") as [->|]; [discriminate Hc|]. done.
Qed.

(** [float] of a string of digits, with the sign read before it. *)
Lemma float_of_digits (neg : bool) (ds : string) :
  ds ≠ EmptyString → all_chars is_digit ds = true →
  match scan_mantissa ds with
  | Some (m, nf, r1) =>
      match scan_exponent r1 with
      | Some (ex, EmptyString) =>
          Ok (float_of_decimal neg m (ex - Z.of_nat nf))
      | _ => Raise ValueError
      end
  | None => Raise ValueError
  end = Ok (float_of_decimal neg (val 0 ds) 0).
Proof.
  intros Hne Hd. unfold scan_mantissa. rewrite scan_digits_digits by done.
  reflexivity.
Qed.

(** The text of an integer parses as a number. *)
Lemma float_of_numeral (n : Z) :
  float_of_string (str_of_int n)
  = Ok (float_of_decimal (n <? 0) (Z.abs n) 0).
Proof.
  unfold str_of_int. destruct (n <? 0) eqn:E.
  - apply Z.ltb_lt in E.
    destruct (digits_of_spec (- n)) as (Hne & Hd & Hv); [lia|].
    unfold float_of_string. rewrite trim_blanks_negative by done.
    cbn [scan_sign]. change (ascii_eqb "-" "-") with true. cbv iota.
    destruct (digits_not_word _ Hne Hd) as [-> ->].
    rewrite float_of_digits by done. rewrite Hv. do 2 f_equal. lia.
  - apply Z.ltb_ge in E. destruct (digits_of_spec n E) as (Hne & Hd & Hv).
    unfold float_of_string. rewrite trim_blanks_digits by done.
    assert (scan_sign (digits_of n) = (false, digits_of n)) as ->.
    { destruct (digits_of n) as [|c r]; [done|]. simpl in *.
      apply andb_true_iff in Hd as [Hc _].
      destruct (digit_not_sign c Hc) as [-> ->]. done. }
    destruct (digits_not_word _ Hne Hd) as [-> ->].
    rewrite float_of_digits by done. rewrite Hv. do 2 f_equal. lia.
Qed.

Lemma rmatch_chr_digit (c x : ascii) (caps : captures) (r : string) :
  is_digit c = false → is_digit x = true →
  rmatch (Chr c) (caps, String x r) = [].
Proof.
  intros Hc Hx. unfold Chr. rewrite rmatch_class. unfold ascii_eqb.
  destruct (Ascii.eqb_spec c x) as [->|]; [congruence|done].
Qed.

(** The compact pattern needs a slash. *)
Lemma numeral_not_compact (n : Z) : matches re_compact (str_of_int n) = false.
Proof.
  unfold matches, match_at, re_compact. cbn [Seqs].
  unfold str_of_int. destruct (n <? 0) eqn:E.
  - cbn [Rep].
    rewrite (rmatch_seq (Seq digit (Seq digit Eps))), (rmatch_seq digit).
    rewrite rmatch_digit_fail by done. reflexivity.
  - apply Z.ltb_ge in E. destruct (digits_of_spec n E) as (Hne & Hd & _).
    destruct (digits_of n) as [|a r]; [done|].
    simpl in Hd. apply andb_true_iff in Hd as [Ha Hr].
    destruct r as [|b r].
    + cbn [Rep].
      rewrite (rmatch_seq (Seq digit (Seq digit Eps))), (rmatch_seq digit).
      rewrite rmatch_digit by done. reflexivity.
    + simpl in Hr. apply andb_true_iff in Hr as [Hb Hr].
      rewrite rmatch_two_digits by done. rewrite rmatch_seq.
      destruct r as [|c r]; [reflexivity|].
      simpl in Hr. apply andb_true_iff in Hr as [Hc _].
      rewrite rmatch_chr_digit by done. reflexivity.
Qed.

(** C6, the code at failing inputs: an integer, or the text of one, is
    not empty, is no duration, is in neither of the two PBS timestamp
    formats, does not fit the compact pattern, and parses as a number;
    yet on a host that has a local time for that second of the epoch
    [detect_value_type] returns [datetime] for it and never [numeric]:
    the test for the timestamp formats is [parse_pbs_time], which ends
    with its fallback to epoch seconds. *)
Theorem integer_is_classified_datetime (P : platform) (n : Z) (d : datetime) :
  localtime P n = Some d →
  is_empty_value (VStr (str_of_int n)) = false
  ∧ matches re_duration (str_of_int n) = false
  ∧ strptime P (str_of_int n) PBS_plain = Raise ValueError
  ∧ strptime P (str_of_int n) PBS_zone = Raise ValueError
  ∧ matches re_compact (str_of_int n) = false
  ∧ float_of_string (str_of_int n)
    = Ok (float_of_decimal (n <? 0) (Z.abs n) 0)
  ∧ detect_value_type P (VStr (str_of_int n)) = Ok T_datetime
  ∧ detect_value_type P (VInt n) = Ok T_datetime.
Proof.
  intros Hl. destruct (str_of_int_shape n) as (c & r & E & Hc).
  destruct (classify_numeral P n d Hl) as [H1 H2].
  split_and!; [apply str_of_int_not_empty_value|apply numeral_not_duration
              | | |apply numeral_not_compact|apply float_of_numeral|done|done].
  - rewrite E. by apply strptime_not_alpha.
  - rewrite E. by apply strptime_not_alpha.
Qed.

Lemma integer_is_classified_datetime_witness :
  localtime utc_host 64 = Some (Datetime 1970 1 1 0 1 4 0)
  ∧ str_of_int 64 = "64"
  ∧ float_of_string (str_of_int 64) = Ok (float_of_decimal false 64 0)
  ∧ detect_value_type utc_host (VStr (str_of_int 64)) = Ok T_datetime
  ∧ detect_value_type utc_host (VInt 64) = Ok T_datetime
  ∧ detect_value_type utc_host (VStr "6.4") = Ok T_numeric.
Proof.
  assert (H : localtime utc_host 64 = Some (Datetime 1970 1 1 0 1 4 0))
    by (vm_compute; reflexivity).
  split; [exact H|]. split; [reflexivity|].
  pose proof (integer_is_classified_datetime utc_host 64 _ H)
    as (_ & _ & _ & _ & _ & Hf & H1 & H2).
  split; [exact Hf|]. split; [exact H1|]. split; [exact H2|].
  vm_compute; reflexivity.
Defined.

End ClassifierBug.

(** ** The compact date under the classifier *)

Module CompactProps.
Import Text Re Py Dt Qstat Numerals TimeFacts CleanText ParseFacts.
Import ClassifierClaims NumeralFacts.

(** The first character that is not a digit, if there is one, is not a
    colon. *)
Fixpoint no_colon_after_digits (s : string) : bool :=
  match s with
  | EmptyString => true
  | String c r =>
      if is_digit c then no_colon_after_digits r
      else negb (ascii_eqb c ":")
  end.

Lemma star_digits_no_colon (fuel : nat) :
  ∀ s caps o, no_colon_after_digits s = true →
    In o (star_with (rmatch digit) fuel (caps, s)) →
    no_colon_after_digits (snd o) = true.
Proof.
  induction fuel as [|k IH]; intros s caps o Hs Ho.
  - destruct Ho as [<-|[]]. done.
  - cbn [star_with] in Ho. apply in_app_or in Ho as [Ho|[<-|[]]]; [|done].
    destruct s as [|c r]; [destruct Ho|].
    cbn [no_colon_after_digits] in Hs. destruct (is_digit c) eqn:Hc.
    + rewrite rmatch_digit in Ho by done. rewrite flat_map_single in Ho.
      cbn [snd] in Ho. destruct (_ <? _)%nat; [|destruct Ho].
      by apply (IH r caps).
    + rewrite rmatch_digit_fail in Ho by done. destruct Ho.
Qed.

Lemma colon_fails (r : regex) (o : outcome) :
  no_colon_after_digits (snd o) = true → rmatch (Seq colon r) o = [].
Proof.
  destruct o as [caps [|c s]]; [done|]. cbn [snd no_colon_after_digits].
  intros H. rewrite rmatch_seq. unfold colon, Chr.
  rewrite rmatch_class. unfold ascii_eqb in *.
  destruct (Ascii.eqb_spec ":" c) as [<-|]; [|done].
  change (is_digit ":") with false in H. cbv iota in H.
  by rewrite Ascii.eqb_refl in H.
Qed.

(** The duration pattern needs a colon right after the leading digits. *)
Lemma not_duration (s : string) :
  no_colon_after_digits s = true → matches re_duration s = false.
Proof.
  intros Hs. unfold matches, match_at, re_duration. cbn [Seqs]. unfold Plus.
  rewrite (rmatch_seq (Seq digit (Star digit))), (rmatch_seq digit).
  destruct s as [|c r]; [reflexivity|].
  cbn [no_colon_after_digits] in Hs. destruct (is_digit c) eqn:Hc.
  - rewrite rmatch_digit by done. rewrite flat_map_single, rmatch_star.
    rewrite flat_map_nil; [done|].
    intros o Ho. apply colon_fails.
    by apply (star_digits_no_colon (String.length r) r []).
  - rewrite rmatch_digit_fail by done. reflexivity.
Qed.

(** A text of the form [dd/dd dd:dd]. *)
Definition compact_text (a b c d e f g h : ascii) : string :=
  String a (String b (String "/" (String c (String d (String " "
    (String e (String f (String ":" (String g (String h
      EmptyString)))))))))).

Section Shape.
Variables a b c d e f g h : ascii.
Hypothesis Ha : is_digit a = true.
Hypothesis Hb : is_digit b = true.
Hypothesis Hc : is_digit c = true.
Hypothesis Hd : is_digit d = true.
Hypothesis He : is_digit e = true.
Hypothesis Hf : is_digit f = true.
Hypothesis Hg : is_digit g = true.
Hypothesis Hh : is_digit h = true.

Local Notation "'text'" := (compact_text a b c d e f g h).

Lemma rstrip_keep (x : ascii) (s : string) :
  s ≠ EmptyString → rstrip s = s → rstrip (String x s) = String x s.
Proof. intros Hne Hs. cbn [rstrip]. rewrite Hs. by destruct s. Qed.

Lemma compact_strip : strip text = text.
Proof.
  unfold strip, compact_text. cbn [lstrip]. rewrite (digit_not_space a) by done.
  repeat (apply rstrip_keep; [done|]).
  cbn [rstrip]. by rewrite (digit_not_space h).
Qed.

Lemma drop_blanks_keep (x : ascii) (s : string) :
  s ≠ EmptyString → drop_blanks s = s → drop_blanks (String x s) = String x s.
Proof. intros Hne Hs. cbn [drop_blanks]. rewrite Hs. by destruct s. Qed.

Lemma compact_trim : trim_blanks text = text.
Proof.
  unfold trim_blanks, compact_text. cbn [skip_blanks].
  rewrite (digit_not_blank a) by done.
  repeat (apply drop_blanks_keep; [done|]).
  cbn [drop_blanks]. by rewrite (digit_not_blank h).
Qed.

Lemma compact_not_empty : is_empty_value (VStr text) = false.
Proof.
  unfold is_empty_value, eq_str, compact_text. cbn [String.eqb].
  destruct (Ascii.eqb_spec a "-") as [E|]; [|done].
  rewrite E in Ha. discriminate Ha.
Qed.

Lemma compact_not_duration : matches re_duration text = false.
Proof.
  apply not_duration. unfold compact_text. cbn [no_colon_after_digits].
  by rewrite Ha, Hb.
Qed.

Lemma compact_not_int : int_of_string text = Raise ValueError.
Proof.
  unfold int_of_string. rewrite compact_trim. unfold compact_text.
  cbn [scan_sign]. destruct (digit_not_sign a Ha) as [-> ->].
  unfold scan_digits. rewrite Ha. cbn [scan_digits_from]. rewrite Hb.
  reflexivity.
Qed.

Lemma digit_not_alpha (x : ascii) : is_digit x = true → is_alpha x = false.
Proof. destruct x as [[] [] [] [] [] [] [] []]; done. Qed.

Lemma compact_not_timestamp (P : platform) :
  parse_pbs_time P (VStr text) = Raise ValueError.
Proof.
  unfold parse_pbs_time. cbn [truthy is_empty negb compact_text].
  unfold PBS_TIME_FORMATS, try_formats, py_strptime.
  fold text. unfold compact_text at 1 2.
  rewrite !strptime_not_alpha by (by (apply digit_not_alpha) || done).
  cbn [try_except one_of existsb exn_eqb orb]. fold text.
  cbn [py_int]. rewrite compact_not_int. reflexivity.
Qed.

Lemma rmatch_ws (x : ascii) (caps : captures) (r : string) :
  rmatch ws (caps, String x r) = if is_space x then [(caps, r)] else [].
Proof. reflexivity. Qed.

Lemma compact_matches : matches re_compact text = true.
Proof.
  unfold matches, match_at, re_compact, compact_text. cbn [Seqs].
  rewrite rmatch_two_digits by done.
  rewrite rmatch_seq, rmatch_chr, flat_map_single.
  rewrite rmatch_two_digits by done.
  unfold Plus.
  rewrite (rmatch_seq (Seq ws (Star ws))), (rmatch_seq ws).
  rewrite (rmatch_ws " "). change (is_space " ") with true.
  cbv iota. rewrite flat_map_single, rmatch_star.
  cbn [String.length star_with]. rewrite (rmatch_ws e).
  rewrite (digit_not_space e) by done. cbn [flat_map app].
  rewrite rmatch_two_digits by done.
  unfold colon. rewrite rmatch_seq, rmatch_chr, flat_map_single.
  cbn [Rep]. rewrite !rmatch_seq.
  rewrite (rmatch_digit g) by done. rewrite flat_map_single, rmatch_seq.
  rewrite (rmatch_digit h) by done. reflexivity.
Qed.

Lemma compact_classified (P : platform) :
  detect_value_type P (VStr text) = Ok T_submitted_time.
Proof.
  rewrite detect_value_type_classify. unfold classify.
  rewrite compact_not_empty. cbn [py_str]. rewrite compact_strip.
  rewrite compact_not_duration. unfold accepted_timestamp.
  rewrite compact_not_timestamp. by rewrite compact_matches.
Qed.

End Shape.

(** The fields that [strftime] prints, within the calendar and the
    clock. *)
Definition calendar_fields (t : datetime) : Prop :=
  1 <= month t <= 12 ∧ 1 <= day t <= 31
  ∧ 0 <= hour t <= 23 ∧ 0 <= minute t <= 59.

Lemma two_digits_shape (z : Z) :
  0 <= z < 100 →
  ∃ x y, two_digits z = String x (String y EmptyString)
         ∧ is_digit x = true ∧ is_digit y = true.
Proof.
  intros Hz. pose proof (two_digits_two_chars z Hz) as H.
  destruct (two_digits z) as [|x [|y [|? ?]]]; try discriminate H.
  simpl in H. apply andb_true_iff in H as [Hx Hy]. by exists x, y.
Qed.

Lemma strftime_compact_shape (t : datetime) :
  calendar_fields t →
  ∃ a b c d e f g h,
    strftime_compact t = compact_text a b c d e f g h
    ∧ is_digit a = true ∧ is_digit b = true ∧ is_digit c = true
    ∧ is_digit d = true ∧ is_digit e = true ∧ is_digit f = true
    ∧ is_digit g = true ∧ is_digit h = true.
Proof.
  intros (Hm & Hd & Hh & Hn).
  destruct (two_digits_shape (month t)) as (a & b & Em & Ha & Hb); [lia|].
  destruct (two_digits_shape (day t)) as (c & d & Ed & Hc & Hdd); [lia|].
  destruct (two_digits_shape (hour t)) as (e & f & Eh & He & Hf); [lia|].
  destruct (two_digits_shape (minute t)) as (g & h & En & Hg & Hhh); [lia|].
  exists a, b, c, d, e, f, g, h. unfold strftime_compact.
  rewrite Em, Ed, Eh, En. done.
Qed.

Section Host.
Variable P : platform.

Lemma dashes_not_time : parse_pbs_time P (VStr "--") = Raise ValueError.
Proof.
  unfold parse_pbs_time. cbn [truthy is_empty negb].
  unfold PBS_TIME_FORMATS, try_formats, py_strptime.
  rewrite !strptime_not_alpha by done. reflexivity.
Qed.

(** X28: a time that [parse_pbs_time] reads comes back from
    [format_datetime_compact] as the text [MM/DD HH:MM] of its month, day,
    hour and minute, and [detect_value_type] puts that text in the class
    [submitted_time], whatever the host: it is no duration, no PBS
    timestamp, no epoch second and no number. The cells of the submitted
    column are therefore sorted through the parse that assumes the
    current year. *)
Theorem compact_date_is_submitted_time (s : string) (t : datetime) :
  parse_pbs_time P (VStr s) = Ok t →
  calendar_fields t →
  format_datetime_compact P (VStr s) = Ok (VStr (strftime_compact t))
  ∧ detect_value_type P (VStr (strftime_compact t)) = Ok T_submitted_time
  ∧ ∀ reverse,
      convert_value_for_sorting P (VStr (strftime_compact t)) None reverse
      = convert_value_for_sorting P (VStr (strftime_compact t))
          (Some T_submitted_time) reverse.
Proof.
  intros Hp Hc.
  assert (Hd : detect_value_type P (VStr (strftime_compact t))
               = Ok T_submitted_time).
  { destruct (strftime_compact_shape t Hc)
      as (a & b & c & d & e & f & g & h & -> & Ha & Hb & Hc' & Hd & He
          & Hf & Hg & Hh).
    by apply compact_classified. }
  split_and!; [|done|].
  - unfold format_datetime_compact.
    destruct s as [|x r]; [discriminate Hp|]. cbn [truthy is_empty negb orb].
    destruct (eq_str (VStr (String x r)) "--") eqn:E.
    + unfold eq_str in E. apply String.eqb_eq in E. rewrite E in Hp.
      rewrite dashes_not_time in Hp. discriminate Hp.
    + by rewrite Hp.
  - intros reverse. unfold convert_value_for_sorting. by rewrite Hd.
Qed.

End Host.

Lemma compact_date_is_submitted_time_witness :
  parse_pbs_time utc_host (VStr "Fri Nov 10 11:34:29 2023")
  = Ok (Datetime 2023 11 10 11 34 29 0)
  ∧ calendar_fields (Datetime 2023 11 10 11 34 29 0)
  ∧ strftime_compact (Datetime 2023 11 10 11 34 29 0) = "11/10 11:34"
  ∧ format_datetime_compact utc_host (VStr "Fri Nov 10 11:34:29 2023")
    = Ok (VStr (strftime_compact (Datetime 2023 11 10 11 34 29 0)))
  ∧ detect_value_type utc_host
      (VStr (strftime_compact (Datetime 2023 11 10 11 34 29 0)))
    = Ok T_submitted_time.
Proof.
  assert (H1 : parse_pbs_time utc_host (VStr "Fri Nov 10 11:34:29 2023")
               = Ok (Datetime 2023 11 10 11 34 29 0))
    by (vm_compute; reflexivity).
  assert (H2 : calendar_fields (Datetime 2023 11 10 11 34 29 0))
    by (unfold calendar_fields; simpl; lia).
  split; [exact H1|]. split; [exact H2|]. split; [reflexivity|].
  pose proof (compact_date_is_submitted_time utc_host _ _ H1 H2)
    as (Hf & Hd & _).
  split; [exact Hf|exact Hd].
Defined.

End CompactProps.

(** ** Routing: names, case and the fallback *)

Module RoutingProps.
Import Text Py Routing RoutingFacts TextFacts Numerals TimeFacts.

Lemma count_nonneg (c : ascii) (s : string) : 0 <= count c s.
Proof.
  induction s as [|d r IH]; simpl; [lia|]. destruct (ascii_eqb c d); lia.
Qed.

Lemma count_no_char (c : ascii) (s : string) :
  count c s = 0 → no_char c s = true.
Proof.
  unfold no_char. induction s as [|d r IH]; simpl; [done|].
  pose proof (count_nonneg c r) as Hr. unfold ascii_eqb in *.
  rewrite (Ascii.eqb_sym d c). destruct (Ascii.eqb c d); [lia|].
  intros H. simpl. apply IH. lia.
Qed.

Lemma first_field_no_sep (sep : ascii) (s : string) :
  no_char sep s = true → first_field sep s = s.
Proof. intros H. unfold first_field. by rewrite split_no_sep. Qed.

Lemma first_field_append (sep : ascii) (a b : string) :
  no_char sep a = true →
  first_field sep (String.append a (String sep b)) = a.
Proof. intros H. unfold first_field. by rewrite split_append. Qed.

Lemma upper_char_at (c : ascii) : ascii_eqb (upper_char c) "@" = ascii_eqb c "@".
Proof. destruct c as [[] [] [] [] [] [] [] []]; reflexivity. Qed.

Lemma upper_no_at (s : string) : no_char "@" (upper s) = no_char "@" s.
Proof.
  unfold no_char. induction s as [|c r IH]; simpl; [done|].
  by rewrite upper_char_at, IH.
Qed.

(** The expansion reads its root through [normalize] only. *)
Lemma expand_normalize (r1 r2 : option string) (rm : routing_map) :
  normalize r1 = normalize r2 →
  expand_routed_queues r1 rm = expand_routed_queues r2 rm.
Proof.
  intros H. unfold expand_routed_queues, expand_logged. by rewrite H.
Qed.

(** X10: the expansion ignores the case of the root queue and a server
    suffix after [@]: for a name [q] of the ASCII range without [@], the
    root written in upper case and followed by [@] and any server gives
    the set that [q] gives. *)
Theorem expansion_ignores_case_and_server (q srv : string)
  (rm : routing_map) :
  is_ascii q = true →
  count "@" q = 0 →
  expand_routed_queues (Some (String.append (upper q) (String "@" srv))) rm
  = expand_routed_queues (Some q) rm.
Proof.
  intros _ H%count_no_char. apply expand_normalize. unfold normalize.
  rewrite first_field_append by (by rewrite upper_no_at).
  rewrite first_field_no_sep by done. apply lower_upper.
Qed.

Lemma expansion_ignores_case_and_server_witness :
  is_ascii "debug" = true
  ∧ count "@" "debug" = 0
  ∧ expand_routed_queues (Some "DEBUG@pbs01") [("debug", ["debug-scaling"])]
    = expand_routed_queues (Some "debug") [("debug", ["debug-scaling"])].
Proof.
  split; [reflexivity|]. split; [reflexivity|].
  apply (expansion_ignores_case_and_server "debug" "pbs01"
           [("debug", ["debug-scaling"])]); reflexivity.
Defined.

(** Where the values of the lower-cased map come from. *)
Lemma lower_map_lookup (rm : routing_map) (a : string) (v : list string) :
  lower_map rm !! a = Some v →
  ∃ k dests, In (k, dests) rm ∧ a = lower k ∧ v = map lower dests.
Proof.
  unfold lower_map.
  assert (H : ∀ (m : gmap string (list string)),
             (∀ a v, m !! a = Some v →
                     ∃ k dests, In (k, dests) rm ∧ a = lower k
                                ∧ v = map lower dests) →
             ∀ l, (∀ kv, In kv l → In kv rm) →
               ∀ a v,
                 foldl (fun m kv => <[lower (fst kv) := map lower (snd kv)]> m)
                       m l !! a = Some v →
                 ∃ k dests, In (k, dests) rm ∧ a = lower k
                            ∧ v = map lower dests).
  { intros m Hm l. revert m Hm. induction l as [|[k dests] l IH];
      intros m Hm Hl a' v' Hlook; simpl in Hlook; [by apply Hm|].
    apply (IH (<[lower k := map lower dests]> m)); [|intros; apply Hl; by right|done].
    intros a0 v0 H0. destruct (decide (lower k = a0)) as [<-|Hne].
    - rewrite lookup_insert_eq in H0. injection H0 as <-.
      exists k, dests. split; [apply Hl; by left|done].
    - rewrite lookup_insert_ne in H0 by done. by apply Hm. }
  apply (H ∅); [|done]. intros a0 v0 H0. by rewrite lookup_empty in H0.
Qed.

Lemma reached_by_edge (lm : gmap string (list string)) (root x : string) :
  rtc (edge lm) root x → x = root ∨ ∃ a v, lm !! a = Some v ∧ x ∈ v.
Proof.
  intros H. apply rtc_inv_r in H as [->|(a & _ & v & Hv & Hx)]; [by left|].
  right. by exists a, v.
Qed.

(** X11: the expansion invents no queue: every member of the set is in
    lower case, and is the normalized root or the lower-cased form of a
    destination listed in the routing map. *)
Theorem expansion_members (root_queue : option string) (rm : routing_map) :
  ∃ s, expand_routed_queues root_queue rm = Some s
       ∧ ∀ x, x ∈ s →
           lower x = x
           ∧ (x = normalize root_queue
              ∨ ∃ k dests d, In (k, dests) rm ∧ In d dests ∧ x = lower d).
Proof.
  destruct (normalize root_queue) as [|c r] eqn:En.
  { exists ∅. split; [|set_solver].
    unfold expand_routed_queues, expand_logged. by rewrite En. }
  destruct (expand_logged_spec root_queue rm) as (s & log & He & _ & _ & Hr).
  { by rewrite En. }
  exists s. split; [unfold expand_routed_queues; by rewrite He|].
  intros x Hx. apply Hr, reached_by_edge in Hx as [->|(a & v & Hv & Hx)].
  - rewrite En. split; [|by left]. rewrite <- En. unfold normalize.
    apply lower_idem.
  - apply lower_map_lookup in Hv as (k & dests & Hin & -> & ->).
    apply list_elem_of_In, in_map_iff in Hx as (d & <- & Hd).
    split; [apply lower_idem|]. right. by exists k, dests, d.
Qed.

End RoutingProps.

(** ** The routing map as it is built *)

Module RoutingMapProps.
Import Text Py Routing RoutingFacts TextFacts Numerals TimeFacts RoutingProps.
Import Qstat Pipeline.

Lemma map_set_In (m : routing_map) (k0 : string) (v0 : list string)
  (k : string) (v : list string) :
  In (k, v) (map_set m k0 v0) → (k, v) = (k0, v0) ∨ In (k, v) m.
Proof.
  induction m as [|[k' v'] r IH]; simpl.
  - intros [H|[]]. by left.
  - destruct (String.eqb k' k0).
    + intros [H|H]; [by left|right; by right].
    + intros [H|H]; [right; by left|].
      destruct (IH H) as [?|?]; [by left|right; by right].
Qed.

(** What one queue does to the map. *)
Lemma add_queue_outcome (rm : routing_map) (qname : string) (qinfo : pyval) :
  add_queue rm qname qinfo = Ok rm
  ∨ (∃ dests, add_queue rm qname qinfo
              = Ok (map_set rm (first_field "@" qname) dests)
              ∧ add_queue [] qname qinfo = Ok [(first_field "@" qname, dests)])
  ∨ ∃ e, add_queue rm qname qinfo = Raise e.
Proof.
  unfold add_queue.
  destruct (get qinfo "queue_type" VNone) as [t1|e|] eqn:E1; cbn [bind];
    [|right; right; by eexists|destruct qinfo; discriminate E1].
  destruct (if truthy t1 then Ok t1 else _) as [t2|e|] eqn:E2; cbn [bind];
    [|right; right; by eexists|].
  2:{ destruct (truthy t1); [discriminate E2|].
      destruct qinfo; discriminate E2. }
  destruct (meth_strip t2) as [qtype|e|] eqn:E3; cbn [bind];
    [|right; right; by eexists|destruct t2; discriminate E3].
  destruct (String.eqb (lower qtype) "route"); [|by left].
  destruct (get qinfo "route_destinations" VNone) as [dests|e|] eqn:E4;
    cbn [bind]; [|right; right; by eexists|destruct qinfo; discriminate E4].
  right; left. by eexists.
Qed.

Lemma first_field_clean (sep : ascii) (s : string) :
  no_char sep (first_field sep s) = true.
Proof.
  unfold first_field, no_char. induction s as [|c r IH]; simpl; [done|].
  destruct (ascii_eqb c sep) eqn:E; [done|].
  destruct (split sep r) as [|h t]; simpl in *; by rewrite E.
Qed.

Lemma dest_list_clean (dests : pyval) (d : string) :
  In d (dest_list dests) → no_char "@" d = true.
Proof.
  unfold dest_list. destruct dests; try done;
    intros (x & <- & _)%in_map_iff; apply first_field_clean.
Qed.

(** An entry of a routing map: contributed by a queue of the input on
    its own, with names that hold no [@]. *)
Definition entry_of (items : list (string * pyval))
  (k : string) (dests : list string) : Prop :=
  (∃ qname qinfo, In (qname, qinfo) items
                  ∧ add_queue [] qname qinfo = Ok [(k, dests)])
  ∧ no_char "@" k = true
  ∧ ∀ d, In d dests → no_char "@" d = true.

Lemma add_queues_entries (all items : list (string * pyval)) :
  (∀ x, In x items → In x all) →
  ∀ rm0 rm,
    (∀ k v, In (k, v) rm0 → entry_of all k v) →
    add_queues rm0 items = Ok rm →
    ∀ k v, In (k, v) rm → entry_of all k v.
Proof.
  induction items as [|[qname qinfo] rest IH]; intros Hall rm0 rm H0 H.
  - injection H as <-. done.
  - cbn [add_queues] in H.
    destruct (add_queue_outcome rm0 qname qinfo)
      as [E|[(dests & E & E0)|[e E]]]; rewrite E in H; cbn [bind] in H;
      [| |discriminate H].
    + apply (IH (fun x Hx => Hall x (or_intror Hx)) rm0 rm H0 H).
    + refine (IH (fun x Hx => Hall x (or_intror Hx)) _ rm _ H).
      intros k v [[= -> ->]|Hin]%map_set_In; [|by apply H0].
      split_and!.
      * exists qname, qinfo. split; [apply Hall; by left|done].
      * apply first_field_clean.
      * unfold add_queue in E0.
        destruct (get qinfo "queue_type" VNone); try discriminate E0.
        cbn [bind] in E0.
        destruct (if truthy a then Ok a else _); try discriminate E0.
        cbn [bind] in E0.
        destruct (meth_strip a0); try discriminate E0. cbn [bind] in E0.
        destruct (String.eqb (lower a1) "route"); [|discriminate E0].
        destruct (get qinfo "route_destinations" VNone); try discriminate E0.
        cbn [bind map_set] in E0. injection E0 as <-.
        intros d. apply dest_list_clean.
Qed.

Lemma no_char_count (c : ascii) (s : string) :
  no_char c s = true → count c s = 0.
Proof.
  unfold no_char. induction s as [|d r IH]; simpl; [done|].
  intros [Hd Hr]%andb_true_iff. apply negb_true_iff in Hd.
  unfold ascii_eqb in *. rewrite (Ascii.eqb_sym c d), Hd. by rewrite IH.
Qed.

(** X12: every entry of the map that [build_routing_map] returns is the
    entry that one queue of the input yields on its own, so a queue whose
    type is not [Route] contributes nothing; and neither its key nor any
    of its destinations holds an [@]. *)
Theorem routing_map_entries (queues_data : pyval)
  (items : list (string * pyval)) (rm : routing_map)
  (k : string) (dests : list string) :
  get queues_data "Queue" (VDict []) = Ok (VDict items) →
  build_routing_map queues_data = Ok rm →
  In (k, dests) rm →
  (∃ qname qinfo, In (qname, qinfo) items
                  ∧ add_queue [] qname qinfo = Ok [(k, dests)])
  ∧ count "@" k = 0
  ∧ ∀ d, In d dests → count "@" d = 0.
Proof.
  unfold build_routing_map. intros -> H Hin. cbn [bind] in H.
  assert (Ha : add_queues [] items = Ok rm).
  { unfold py_or in H. destruct items; [|exact H].
    cbn [truthy] in H. exact H. }
  destruct (add_queues_entries items items (fun x Hx => Hx) [] rm
              (fun k v (F : In (k, v) []) => match F with end) Ha k dests Hin)
    as (He & Hk & Hd).
  split_and!; [done|by apply no_char_count|].
  intros d Hdd. by apply no_char_count, Hd.
Qed.

Definition sample_queues : pyval :=
  VDict [("Queue",
          VDict [("debug@pbs01",
                  VDict [("queue_type", VStr "Route");
                         ("route_destinations",
                          VStr "debug-scaling@pbs01, small")]);
                 ("small", VDict [("queue_type", VStr "Execution")])])].

Definition sample_items : list (string * pyval) :=
  [("debug@pbs01",
    VDict [("queue_type", VStr "Route");
           ("route_destinations", VStr "debug-scaling@pbs01, small")]);
   ("small", VDict [("queue_type", VStr "Execution")])].

Lemma routing_map_entries_witness :
  build_routing_map sample_queues = Ok [("debug", ["debug-scaling"; "small"])]
  ∧ (∃ qname qinfo,
        In (qname, qinfo) sample_items
        ∧ add_queue [] qname qinfo = Ok [("debug", ["debug-scaling"; "small"])])
  ∧ count "@" "debug" = 0
  ∧ ∀ d, In d ["debug-scaling"; "small"] → count "@" d = 0.
Proof.
  split; [vm_compute; reflexivity|].
  apply (routing_map_entries sample_queues sample_items
           [("debug", ["debug-scaling"; "small"])] "debug"
           ["debug-scaling"; "small"]).
  - reflexivity.
  - vm_compute; reflexivity.
  - simpl. by left.
Defined.

Lemma add_queues_outcome (items : list (string * pyval)) :
  ∀ rm0, (∃ rm, add_queues rm0 items = Ok rm)
         ∨ ∃ e, add_queues rm0 items = Raise e.
Proof.
  induction items as [|[qname qinfo] rest IH]; intros rm0; [left; by eexists|].
  cbn [add_queues].
  destruct (add_queue_outcome rm0 qname qinfo)
    as [E|[(dests & E & _)|[e E]]]; rewrite E; cbn [bind];
    [apply IH|apply IH|right; by eexists].
Qed.

(** The expansion always returns a set. *)
Lemma expand_returns (root_queue : option string) (rm : routing_map) :
  ∃ s, expand_routed_queues root_queue rm = Some s.
Proof.
  unfold expand_routed_queues.
  destruct (normalize root_queue) as [|c r] eqn:En.
  { exists ∅. unfold expand_logged. by rewrite En. }
  destruct (expand_logged_spec root_queue rm) as (s & log & -> & _).
  { by rewrite En. }
  by exists s.
Qed.

Lemma build_routing_map_outcome (queues_data : pyval) :
  (∃ rm, build_routing_map queues_data = Ok rm)
  ∨ ∃ e, build_routing_map queues_data = Raise e.
Proof.
  unfold build_routing_map.
  destruct (get queues_data "Queue" (VDict [])) as [qs|e|] eqn:E; cbn [bind];
    [|right; by eexists|destruct queues_data; discriminate E].
  destruct (py_or qs (VDict [])); try (right; by eexists).
  apply add_queues_outcome.
Qed.

(** X13: the routing-aware queue set of [print_jobs] is computed without
    ever raising, whatever the queue data hold: the result is a set that
    is not empty, or [None], which sends the queue filter to its
    substring test; and it is [None] whenever [build_routing_map]
    raises. *)
Theorem queue_set_never_raises (queue_filter : option string)
  (queues_data : pyval) :
  ∃ r, expanded_queue_set_for queue_filter queues_data = Ok r
       ∧ (∀ s, r = Some s → s ≠ ∅)
       ∧ (∀ e, build_routing_map queues_data = Raise e → r = None).
Proof.
  unfold expanded_queue_set_for.
  destruct (given queue_filter) as [qf|]; [|exists None; by split_and!].
  destruct (build_routing_map_outcome queues_data) as [[rm ->]|[e ->]];
    cbn [bind try_except any_exception]; [|exists None; by split_and!].
  destruct (expand_returns (Some qf) rm) as (s & ->).
  case_bool_decide as Hs; eexists; (split; [reflexivity|]); split; try done.
  by intros s' [= <-].
Qed.

End RoutingMapProps.

(** ** The filters of [print_jobs] *)

Module FilterProps.
Import Text Re Py Dt Routing Qstat Pipeline PipelineFacts Example.

Lemma bind_inv {A B : Type} (m : M A) (k : A → M B)
  (l l' : list log_entry) (b : B) :
  mbind m k l = (Ok b, l') →
  ∃ a l1, m l = (Ok a, l1) ∧ k a l1 = (Ok b, l').
Proof.
  unfold mbind. destruct (m l) as [[a|e|] l1]; [eauto|discriminate..].
Qed.

Lemma lift_inv {A : Type} (r : res A) (l l' : list log_entry) (a : A) :
  lift r l = (Ok a, l') → r = Ok a ∧ l' = l.
Proof. unfold lift. intros [= -> ->]. done. Qed.

Lemma ret_inv {A : Type} (a b : A) (l l' : list log_entry) :
  ret a l = (Ok b, l') → a = b ∧ l' = l.
Proof. unfold ret. intros [= -> ->]. done. Qed.

Section Host.
Variable P : platform.

(** The fields that the filters read, for a job that yields a row. *)
Record fields := Fields {
  f_user : pyval; f_state : pyval; f_queue : pyval; f_project : pyval
}.

Definition fields_of (job : pyval) : res fields :=
  (let! vl := get job "Variable_List" (VDict []) in
   let! user := get vl "PBS_O_LOGNAME" (VStr "Unknown") in
   let! state := get job "job_state" (VStr "Unknown") in
   let! queue := get job "queue" (VStr "Unknown") in
   let! project := get job "project" (VStr "Unknown") in
   Ok (Fields user state queue project))%py.

(** X16: a job that yields a row has passed every filter that is given:
    its short id is in the id set; its state is one character of the
    upper-cased state filter, unless that filter is [all]; its user and
    its project are text that contains the filter text, case ignored. *)
Theorem kept_row_passed_filters (server_data : pyval) (f : filters)
  (eqs : option (gset string)) (extra_columns : option (list string))
  (jobid : string) (job : pyval) (r : row) (l l' : list log_entry) :
  process_job P server_data f eqs extra_columns jobid job l
  = (Ok (Some r), l') →
  ∃ fs, fields_of job = Ok fs
    ∧ (∀ jf, given (jobid_filter f) = Some jf → jobid_set_of jf ≠ [] →
         in_strings (first_field "." jobid) (jobid_set_of jf) = true)
    ∧ (∀ sf, given (state_filter f) = Some sf → lower sf ≠ "all" →
         ∃ c, f_state fs = VStr (String c EmptyString)
              ∧ count c (upper sf) ≠ 0)
    ∧ (∀ uf, given (user_filter f) = Some uf →
         ∃ u, f_user fs = VStr u ∧ contains (lower uf) (lower u) = true)
    ∧ (∀ pf, given (project_filter f) = Some pf →
         ∃ p, f_project fs = VStr p ∧ contains (lower pf) (lower p) = true).
Proof.
  intros H. unfold process_job in H.
  apply bind_inv in H as (score & l1 & _ & H).
  apply bind_inv in H as (vl & l2 & [Hvl _]%lift_inv & H).
  apply bind_inv in H as (user & l3 & [Huser _]%lift_inv & H).
  apply bind_inv in H as (state & l4 & [Hstate _]%lift_inv & H).
  apply bind_inv in H as (queue & l5 & [Hqueue _]%lift_inv & H).
  apply bind_inv in H as (rl & l6 & _ & H).
  apply bind_inv in H as (nodes & l7 & _ & H).
  apply bind_inv in H as (project & l8 & [Hproject _]%lift_inv & H).
  apply bind_inv in H as (rl2 & l9 & _ & H).
  apply bind_inv in H as (wt & l10 & _ & H).
  apply bind_inv in H as (runtime & l11 & _ & H).
  apply bind_inv in H as (qtime & l12 & _ & H).
  apply bind_inv in H as (submitted & l13 & _ & H).
  exists (Fields user state queue project).
  split.
  { unfold fields_of. rewrite Hvl. cbn [bind]. rewrite Huser. cbn [bind].
    rewrite Hstate. cbn [bind]. rewrite Hqueue. cbn [bind].
    by rewrite Hproject. }
  cbn [f_user f_state f_project].
  destruct (_ && _) eqn:Hid; [discriminate H|].
  apply bind_inv in H as (drop_state & l14 & Hds & H).
  destruct drop_state; [discriminate H|].
  apply bind_inv in H as (drop_queue & l15 & _ & H).
  destruct drop_queue; [discriminate H|].
  apply bind_inv in H as (drop_user & l16 & Hdu & H).
  destruct drop_user; [discriminate H|].
  apply bind_inv in H as (drop_project & l17 & Hdp & H).
  destruct drop_project; [discriminate H|].
  split_and!.
  - intros jf Hjf Hne. rewrite Hjf in Hid.
    destruct (jobid_set_of jf); [done|]. simpl in Hid.
    by apply negb_false_iff in Hid.
  - intros sf Hsf Hall. rewrite Hsf in Hds.
    destruct (String.eqb_spec (lower sf) "all") as [|_]; [done|].
    cbn [negb] in Hds. apply lift_inv in Hds as [Hds _].
    unfold state_excluded in Hds.
    destruct state as [| | | |s| |]; try discriminate Hds.
    destruct s as [|c [|? ?]]; try discriminate Hds.
    exists c. split; [done|]. injection Hds as Hds.
    by apply Z.eqb_neq.
  - intros uf Huf. rewrite Huf in Hdu.
    apply bind_inv in Hdu as (ul & lu & [Hul _]%lift_inv & Hr).
    apply ret_inv in Hr as [Hr _]. apply negb_false_iff in Hr.
    destruct user; try discriminate Hul. injection Hul as <-. by eexists.
  - intros pf Hpf. rewrite Hpf in Hdp.
    apply bind_inv in Hdp as (pl & lp & [Hpl _]%lift_inv & Hr).
    apply ret_inv in Hr as [Hr _]. apply negb_false_iff in Hr.
    destruct project; try discriminate Hpl. injection Hpl as <-. by eexists.
Qed.

End Host.

Definition running_job : pyval :=
  VDict [("Variable_List", VDict [("PBS_O_LOGNAME", VStr "Ann")]);
         ("job_state", VStr "R"); ("queue", VStr "prod");
         ("project", VStr "Climate");
         ("eligible_time", VStr "02:00:00");
         ("Resource_List", VDict [("base_score", VInt 10)])].

Definition some_filters : filters :=
  Filters (Some "rq") None (Some "ann") (Some "clim") (Some "7, 8").

Definition running_row : row :=
  Eval vm_compute in
    match fst (process_job formula_host wait_server some_filters None None
                 "7.pbs01" running_job []) with
    | Ok (Some r) => r
    | _ => []
    end.

Lemma kept_row_passed_filters_witness :
  process_job formula_host wait_server some_filters None None "7.pbs01"
    running_job [] = (Ok (Some running_row), [])
  ∧ dict_lookup running_row "score" = Some (VFloat (float_of_Z 12))
  ∧ ∃ fs, fields_of running_job = Ok fs
    ∧ (∀ jf, given (jobid_filter some_filters) = Some jf →
         jobid_set_of jf ≠ [] →
         in_strings (first_field "." "7.pbs01") (jobid_set_of jf) = true)
    ∧ (∀ sf, given (state_filter some_filters) = Some sf →
         lower sf ≠ "all" →
         ∃ c, f_state fs = VStr (String c EmptyString)
              ∧ count c (upper sf) ≠ 0)
    ∧ (∀ uf, given (user_filter some_filters) = Some uf →
         ∃ u, f_user fs = VStr u ∧ contains (lower uf) (lower u) = true)
    ∧ (∀ pf, given (project_filter some_filters) = Some pf →
         ∃ p, f_project fs = VStr p ∧ contains (lower pf) (lower p) = true).
Proof.
  assert (H : process_job formula_host wait_server some_filters None None
                "7.pbs01" running_job [] = (Ok (Some running_row), []))
    by (vm_compute; reflexivity).
  split; [exact H|]. split; [vm_compute; reflexivity|].
  exact (kept_row_passed_filters formula_host wait_server some_filters None
           None "7.pbs01" running_job running_row [] [] H).
Defined.

End FilterProps.

(** ** The rows follow the jobs *)

Module RowProps.
Import Text Re Py Dt Routing Qstat Pipeline PipelineFacts FilterProps.
Import Example.

(** A computation that logs nothing. *)
Definition silent {A : Type} (m : M A) : Prop := ∀ l, snd (m l) = l.

Lemma silent_ret {A : Type} (a : A) : silent (ret a).
Proof. by intros l. Qed.

Lemma silent_lift {A : Type} (r : res A) : silent (lift r).
Proof. by intros l. Qed.

Lemma silent_bind {A B : Type} (m : M A) (k : A → M B) :
  silent m → (∀ a, silent (k a)) → silent (mbind m k).
Proof.
  intros Hm Hk l. unfold mbind. specialize (Hm l).
  destruct (m l) as [[a|e|] l1]; simpl in *; subst; [apply Hk|done|done].
Qed.

Ltac silent_step :=
  first
    [ apply silent_ret | apply silent_lift
    | apply silent_bind; [|intros ?]
    | match goal with
      | |- silent (if ?b then _ else _) => destruct b
      | |- silent (match ?x with _ => _ end) => destruct x
      end ].

Definition no_filter_given (f : filters) : Prop :=
  given (state_filter f) = None ∧ given (queue_filter f) = None
  ∧ given (user_filter f) = None ∧ given (project_filter f) = None
  ∧ given (jobid_filter f) = None.

Section Host.
Variable P : platform.
Variable server_data : pyval.
Variable f : filters.
Variable eqs : option (gset string).

Local Notation "'body'" := (process_job P server_data f eqs None).

(** Without extra columns a job is processed without logging. *)
Lemma process_job_silent (jobid : string) (job : pyval) :
  silent (body jobid job).
Proof. unfold process_job. repeat silent_step. Qed.

(** The row of a job carries its short id. *)
Lemma process_job_row (jobid : string) (job : pyval) (r : row)
  (l l' : list log_entry) :
  body jobid job l = (Ok (Some r), l') →
  dict_lookup r "jobid" = Some (VStr (first_field "." jobid)).
Proof.
  intros H. unfold process_job in H.
  do 13 (apply bind_inv in H as (? & ? & _ & H)).
  destruct (_ && _); [discriminate H|].
  apply bind_inv in H as (ds & ? & _ & H). destruct ds; [discriminate H|].
  apply bind_inv in H as (dq & ? & _ & H). destruct dq; [discriminate H|].
  apply bind_inv in H as (du & ? & _ & H). destruct du; [discriminate H|].
  apply bind_inv in H as (dp & ? & _ & H). destruct dp; [discriminate H|].
  apply ret_inv in H as [[= <-] _]. reflexivity.
Qed.

(** With no filter given a job is never passed over. *)
Lemma process_job_no_filter (jobid : string) (job : pyval)
  (l l' : list log_entry) :
  no_filter_given f → body jobid job l ≠ (Ok None, l').
Proof.
  intros (Hs & Hq & Hu & Hp & Hj) H. unfold process_job in H.
  rewrite Hs, Hq, Hu, Hp, Hj in H.
  do 13 (apply bind_inv in H as (? & ? & _ & H)).
  cbn [andb] in H.
  do 4 (apply bind_inv in H as (? & ? & [= <- <-] & H)).
  discriminate H.
Qed.

Definition jobid_of (r : row) : option pyval := dict_lookup r "jobid".
Definition short_id (item : string * pyval) : option pyval :=
  Some (VStr (first_field "." (fst item))).
Definition is_job_error (e : log_entry) : Prop :=
  ∃ jobid x, e = Warning_job_error jobid x.

Lemma build_job_list_rows (items : list (string * pyval)) :
  ∀ job_list l rows l',
    build_job_list body items job_list l = (Ok rows, l') →
    ∃ new w,
      rows = job_list ++ new ∧ l' = l ++ w
      ∧ sublist (map jobid_of new) (map short_id items)
      ∧ Forall is_job_error w
      ∧ (no_filter_given f →
         (length new + length w = length items)%nat).
Proof.
  induction items as [|[jobid job] rest IH]; intros job_list l rows l' H.
  - cbn [build_job_list] in H. injection H as <- <-. exists [], [].
    rewrite !app_nil_r. split_and!; [done|done|constructor|constructor|done].
  - cbn [build_job_list] in H. unfold mbind at 1 in H. unfold mtry in H.
    unfold mbind at 1 in H.
    pose proof (process_job_silent jobid job l) as Hl.
    destruct (body jobid job l) as [[[r|]|e|] l1] eqn:E; simpl in Hl; subst l1.
    + unfold ret at 1 in H.
      destruct (IH _ _ _ _ H) as (new & w & -> & -> & Hsub & Hw & Hn).
      exists (r :: new), w. rewrite <- app_assoc.
      split_and!; [done|done| |done|].
      * cbn [map]. unfold jobid_of at 1, short_id at 1. cbn [fst].
        rewrite (process_job_row _ _ _ _ _ E). by constructor.
      * intros Hf. specialize (Hn Hf). simpl. lia.
    + unfold ret at 1 in H.
      destruct (IH _ _ _ _ H) as (new & w & -> & -> & Hsub & Hw & Hn).
      exists new, w. split_and!; [done|done| |done|].
      * cbn [map]. by constructor.
      * intros Hf. by destruct (process_job_no_filter jobid job l l Hf).
    + unfold any_exception, mbind, emit, ret in H.
      destruct (IH _ _ _ _ H) as (new & w & -> & -> & Hsub & Hw & Hn).
      exists new, (Warning_job_error jobid e :: w). rewrite <- app_assoc.
      split_and!; [done|done| | |].
      * cbn [map]. by constructor.
      * constructor; [by eexists _, _|done].
      * intros Hf. specialize (Hn Hf). simpl. lia.
    + discriminate H.
Qed.

(** A job that the embedding covers: its processing returns or raises. *)
Definition covered (item : string * pyval) : Prop :=
  fst (body (fst item) (snd item) []) ≠ Beyond.

(** The loop returns when every job is covered. *)
Lemma build_job_list_returns (items : list (string * pyval)) :
  Forall covered items →
  ∀ job_list l, ∃ rows l', build_job_list body items job_list l = (Ok rows, l').
Proof.
  induction 1 as [|[jobid job] rest Hc _ IH]; intros job_list l.
  - by eexists _, _.
  - cbn [build_job_list]. unfold mbind at 1. unfold mtry. unfold mbind at 1.
    rewrite (at_log _ l (uniform_process_job P server_data f eqs None jobid job)).
    unfold covered in Hc. cbn [fst snd] in Hc.
    destruct (body jobid job []) as [[[r|]|e|] w]; cbn [fst snd] in *.
    + apply IH.
    + apply IH.
    + unfold any_exception, mbind, emit, ret. apply IH.
    + done.
Qed.

(** X17: without extra columns the loop of [print_jobs] returns for every
    list of jobs that the embedding covers, and the rows it builds carry
    the short ids of the jobs in the order of the jobs, none twice; the
    loop logs nothing but one warning for each job whose processing
    raised; and when no filter is given every job gives a row or a
    warning. *)
Theorem rows_follow_jobs (items : list (string * pyval))
  (l : list log_entry) :
  Forall covered items →
  ∃ rows w,
    build_job_list body items [] l = (Ok rows, l ++ w)
    ∧ Forall is_job_error w
    ∧ sublist (map jobid_of rows) (map short_id items)
    ∧ (no_filter_given f →
       (length rows + length w = length items)%nat).
Proof.
  intros Hc. destruct (build_job_list_returns items Hc [] l) as (rows & l' & H).
  destruct (build_job_list_rows _ _ _ _ _ H)
    as (new & w & -> & -> & Hsub & Hw & Hn).
  exists new, w. done.
Qed.

End Host.

Definition three_jobs : list (string * pyval) :=
  [("7.pbs01", running_job); ("8.pbs01", VInt 5); ("9.pbs01", running_job)].

Definition three_rows : list row :=
  Eval vm_compute in
    match fst (build_job_list
                 (process_job formula_host wait_server
                    (Filters None None None None None) None None)
                 three_jobs [] []) with
    | Ok rows => rows
    | _ => []
    end.

Lemma rows_follow_jobs_witness :
  Forall (covered formula_host wait_server
            (Filters None None None None None) None) three_jobs
  ∧ build_job_list
      (process_job formula_host wait_server
         (Filters None None None None None) None None) three_jobs [] []
    = (Ok three_rows, [Warning_job_error "8.pbs01" AttributeError])
  ∧ map jobid_of three_rows = [Some (VStr "7"); Some (VStr "9")]
  ∧ map (fun r => dict_lookup r "score") three_rows
    = [Some (VFloat (float_of_Z 12)); Some (VFloat (float_of_Z 12))]
  ∧ ∃ rows w,
      build_job_list
        (process_job formula_host wait_server
           (Filters None None None None None) None None) three_jobs [] []
      = (Ok rows, [] ++ w)
      ∧ Forall is_job_error w
      ∧ sublist (map jobid_of rows) (map short_id three_jobs)
      ∧ (no_filter_given (Filters None None None None None) →
         (length rows + length w = length three_jobs)%nat).
Proof.
  assert (H : Forall (covered formula_host wait_server
                        (Filters None None None None None) None) three_jobs).
  { repeat constructor; unfold covered; vm_compute; discriminate. }
  split; [exact H|]. split; [vm_compute; reflexivity|].
  split; [reflexivity|]. split; [vm_compute; reflexivity|].
  exact (rows_follow_jobs formula_host wait_server
           (Filters None None None None None) None three_jobs [] H).
Defined.

End RowProps.

(** ** Sorting the rows *)

Module SortProps.
Import Text Re Py Dt Routing Qstat Pipeline SortFacts.
Local Open Scope Z_scope.

Section Generic.
Context {A : Type}.

Lemma insort_perm (x : key * A) (l l' : list (key * A)) :
  insort x l = Ok l' → Permutation l' (x :: l).
Proof.
  revert l'. induction l as [|y r IH]; intros l' H; simpl in H.
  - by injection H as <-.
  - destruct (key_lt (fst y) (fst x)) as [[]| |]; try discriminate H;
      simpl in H.
    + destruct (insort x r) as [r'| |]; try discriminate H. injection H as <-.
      rewrite (IH r' eq_refl). apply perm_swap.
    + by injection H as <-.
Qed.

Lemma isort_perm (l l' : list (key * A)) :
  isort l = Ok l' → Permutation l' l.
Proof.
  revert l'. induction l as [|x r IH]; intros l' H; simpl in H.
  - by injection H as <-.
  - destruct (isort r) as [s| |]; try discriminate H. simpl in H.
    rewrite (insort_perm _ _ _ H). constructor. by apply IH.
Qed.

Lemma list_sort_perm (keyf : A → res key) (reverse : bool) (l out : list A) :
  list_sort keyf reverse l = Ok out → Permutation out l.
Proof.
  unfold list_sort. intros H.
  destruct (with_keys keyf l) as [keyed| |] eqn:Ek; try discriminate H.
  destruct (with_keys_spec _ _ _ Ek) as [Hm _]. simpl in H. rewrite <- Hm.
  destruct reverse.
  - destruct (isort (rev keyed)) as [s| |] eqn:Es; try discriminate H.
    injection H as <-. apply Permutation_map.
    rewrite <- Permutation_rev, (isort_perm _ _ Es).
    apply Permutation_sym, Permutation_rev.
  - destruct (isort keyed) as [s| |] eqn:Es; try discriminate H.
    injection H as <-. apply Permutation_map. by apply isort_perm.
Qed.

(** The keys are computed in list order: the first one that raises ends
    the sort. *)
Lemma list_sort_raise (keyf : A → res key) (reverse : bool)
  (pre post : list A) (x : A) (e : exn) :
  Forall (fun y => ∃ k, keyf y = Ok k) pre → keyf x = Raise e →
  list_sort keyf reverse (pre ++ x :: post) = Raise e.
Proof.
  intros Hpre Hx. unfold list_sort.
  assert (with_keys keyf (pre ++ x :: post) = Raise e) as ->; [|done].
  induction Hpre as [|y r [k Hy] _ IH]; simpl.
  - by rewrite Hx.
  - by rewrite Hy, IH.
Qed.

End Generic.

Section Host.
Variable P : platform.

(** X18: when the sort of [print_jobs] returns, the rows it returns are
    the rows it was given, in some order: sorting neither loses nor
    repeats a row, for every sort field and direction. *)
Theorem sort_is_permutation (sort_by : option string) (reverse : bool)
  (extra_columns : option (list string)) (job_list out : list row)
  (l l' : list log_entry) :
  sort_jobs P sort_by reverse extra_columns job_list l = (Ok out, l') →
  Permutation out job_list.
Proof.
  unfold sort_jobs. destruct (given sort_by) as [field|];
    [|by intros [= <- _]].
  destruct (sort_key_for _ _ _ _) as [keyf|].
  - unfold lift. intros [= H _]. by apply list_sort_perm in H.
  - unfold mbind, emit, ret. by intros [= <- _].
Qed.

(** The key of the [jobid] sort: [int(x['jobid'])]. *)
Definition job_number (x : row) : res Z :=
  (let! v := item x "jobid" in py_int v)%py.

Definition extra_names (extra_columns : option (list string)) : list string :=
  match extra_columns with Some cs => map display_name cs | None => [] end.

Definition number_key (k : key) : Prop := ∃ z, k = K_val (VInt z).

Definition number_ltb (a b : key) : bool :=
  match a, b with
  | K_val (VInt x), K_val (VInt y) => x <? y
  | _, _ => false
  end.

Lemma number_key_lt (a b : key) :
  number_key a → number_key b → key_lt a b = Ok (number_ltb a b).
Proof.
  intros [x ->] [y ->]. simpl. unfold is_Lt, Z.ltb. by destruct (x ?= y).
Qed.

Lemma number_ltb_asym (a b : key) :
  number_key a → number_key b → number_ltb a b = true → number_ltb b a = false.
Proof. intros [x ->] [y ->]. simpl. lia. Qed.

Lemma number_ltb_neg_trans (a b c : key) :
  number_key a → number_key b → number_key c →
  number_ltb a b = false → number_ltb b c = false → number_ltb a c = false.
Proof. intros [x ->] [y ->] [z ->]. simpl. lia. Qed.

Definition jobid_keyf (x : row) : res key :=
  (let! v := item x "jobid" in
   let! z := py_int v in Ok (K_val (VInt z)))%py.

Lemma jobid_keyf_number (x : row) :
  jobid_keyf x = (let! z := job_number x in Ok (K_val (VInt z)))%py.
Proof.
  unfold jobid_keyf, job_number. destruct (item x "jobid"); try done.
Qed.

Lemma sort_key_for_jobid (extra_columns : option (list string))
  (reverse : bool) :
  in_strings "jobid" (extra_names extra_columns) = false →
  sort_key_for P "jobid" (extra_names extra_columns) reverse = Some jobid_keyf.
Proof. intros H. unfold sort_key_for. rewrite H. reflexivity. Qed.

(** The order of two rows by their numbers. *)
Definition by_number (reverse : bool) (a b : row) : Prop :=
  ∀ za zb, job_number a = Ok za → job_number b = Ok zb →
           if reverse then zb <= za else za <= zb.

(** X19: when every row has a job id that [int] accepts, sorting by
    [jobid] returns, logs nothing, and returns the rows ordered by the
    numbers of their ids, ascending, or descending for a reverse sort:
    the order is numeric, not the order of the texts. *)
Theorem jobid_sort_is_numeric (reverse : bool)
  (extra_columns : option (list string)) (job_list : list row)
  (l : list log_entry) :
  in_strings "jobid" (extra_names extra_columns) = false →
  Forall (fun x => ∃ z, job_number x = Ok z) job_list →
  ∃ out, sort_jobs P (Some "jobid") reverse extra_columns job_list l
         = (Ok out, l)
         ∧ Permutation out job_list
         ∧ StronglySorted (by_number reverse) out.
Proof.
  intros Hx Hall. unfold sort_jobs. cbn [given is_empty].
  fold (extra_names extra_columns). rewrite (sort_key_for_jobid _ _ Hx).
  assert (Hk : ∃ keyed, with_keys jobid_keyf job_list = Ok keyed
                        ∧ Forall (in_D number_key) keyed).
  { induction Hall as [|x r [z Hz] _ (keyed & Ek & Hd)]; simpl.
    - exists []. by split.
    - rewrite jobid_keyf_number, Hz. simpl. rewrite Ek. simpl.
      eexists. split; [done|]. constructor; [by exists z|done]. }
  destruct Hk as (keyed & Ek & Hd).
  destruct (list_sort_sorted number_key number_ltb number_key_lt
              number_ltb_asym number_ltb_neg_trans jobid_keyf reverse
              job_list keyed Ek Hd) as (sorted & Es & Hp & Hs).
  destruct (with_keys_spec _ _ _ Ek) as [Hm Hf].
  exists (map snd sorted). unfold lift. rewrite Es. split_and!; [done| |].
  - rewrite <- Hm. by apply Permutation_map.
  - set (Q := fun kx : key * row => jobid_keyf (snd kx) = Ok (fst kx)).
    assert (HQ : Forall Q sorted)
      by (by apply (Permutation_Forall (Permutation_sym Hp))).
    assert (Hord : ∀ a b : key * row, Q a → Q b →
              ascending number_ltb a b →
              ∀ za zb, job_number (snd a) = Ok za →
                       job_number (snd b) = Ok zb → za <= zb).
    { intros [ka a] [kb b] Ha Hb Hab za zb Hza Hzb. unfold Q in *.
      simpl in *. rewrite jobid_keyf_number in Ha, Hb.
      rewrite Hza in Ha. rewrite Hzb in Hb. simpl in *.
      injection Ha as <-. injection Hb as <-.
      unfold ascending in Hab. simpl in Hab. lia. }
    apply (StronglySorted_fmap snd
             (fun a b => by_number reverse (snd a) (snd b))); [done|].
    destruct reverse.
    + apply (StronglySorted_weaken (flip (ascending number_ltb)) _ Q);
        [|done|done].
      intros a b Ha Hb Hab za zb Hza Hzb. unfold flip in Hab.
      by apply (Hord b a Hb Ha Hab zb za).
    + apply (StronglySorted_weaken (ascending number_ltb) _ Q); [|done|done].
      intros a b Ha Hb Hab za zb Hza Hzb. by apply (Hord a b Ha Hb Hab).
Qed.

(** X20: sorting by [jobid] raises as soon as one row has an id that
    [int] rejects, as the id of an array job: the exception of the first
    such row leaves [sort_jobs], in either direction, and no row comes
    back. *)
Theorem jobid_sort_raises (reverse : bool)
  (extra_columns : option (list string)) (pre post : list row) (x : row)
  (e : exn) (l : list log_entry) :
  in_strings "jobid" (extra_names extra_columns) = false →
  Forall (fun y => ∃ z, job_number y = Ok z) pre →
  job_number x = Raise e →
  sort_jobs P (Some "jobid") reverse extra_columns (pre ++ x :: post) l
  = (Raise e, l).
Proof.
  intros Hx Hpre He. unfold sort_jobs. cbn [given is_empty].
  fold (extra_names extra_columns). rewrite (sort_key_for_jobid _ _ Hx).
  unfold lift. rewrite (list_sort_raise jobid_keyf reverse pre post x e).
  - done.
  - eapply Forall_impl; [exact Hpre|]. intros y [z Hz].
    rewrite jobid_keyf_number, Hz. by eexists.
  - by rewrite jobid_keyf_number, He.
Qed.

End Host.

Definition row_of (jobid : string) (nodes : Z) : row :=
  [("jobid", VStr jobid); ("nodes", VInt nodes)].

Lemma sort_is_permutation_witness :
  sort_jobs utc_host (Some "nodes") true None
    [row_of "9" 2; row_of "10" 8; row_of "11" 4] []
  = (Ok [row_of "10" 8; row_of "11" 4; row_of "9" 2], [])
  ∧ Permutation [row_of "10" 8; row_of "11" 4; row_of "9" 2]
                [row_of "9" 2; row_of "10" 8; row_of "11" 4].
Proof.
  assert (H : sort_jobs utc_host (Some "nodes") true None
                [row_of "9" 2; row_of "10" 8; row_of "11" 4] []
              = (Ok [row_of "10" 8; row_of "11" 4; row_of "9" 2], []))
    by (vm_compute; reflexivity).
  split; [exact H|].
  exact (sort_is_permutation utc_host (Some "nodes") true None _ _ [] [] H).
Defined.

Lemma jobid_sort_is_numeric_witness :
  sort_jobs utc_host (Some "jobid") false None
    [row_of "10" 8; row_of "9" 2] []
  = (Ok [row_of "9" 2; row_of "10" 8], [])
  ∧ ∃ out, sort_jobs utc_host (Some "jobid") false None
             [row_of "10" 8; row_of "9" 2] [] = (Ok out, [])
           ∧ Permutation out [row_of "10" 8; row_of "9" 2]
           ∧ StronglySorted (by_number false) out.
Proof.
  split; [vm_compute; reflexivity|].
  apply (jobid_sort_is_numeric utc_host false None
           [row_of "10" 8; row_of "9" 2] []).
  - reflexivity.
  - repeat constructor; eexists; vm_compute; reflexivity.
Defined.

Lemma jobid_sort_raises_witness :
  job_number (row_of "12" 1) = Ok 12
  ∧ job_number (row_of "13[1]" 1) = Raise ValueError
  ∧ sort_jobs utc_host (Some "jobid") false None
      ([row_of "12" 1] ++ row_of "13[1]" 1 :: [row_of "14" 1]) []
    = (Raise ValueError, []).
Proof.
  split; [vm_compute; reflexivity|]. split; [vm_compute; reflexivity|].
  apply (jobid_sort_raises utc_host false None [row_of "12" 1]
           [row_of "14" 1] (row_of "13[1]" 1) ValueError []).
  - reflexivity.
  - repeat constructor. exists 12. vm_compute; reflexivity.
  - vm_compute; reflexivity.
Defined.

End SortProps.

(** ** Sorting by typed keys, on rows *)

Module TypedSortProps.
Import Text Re Py Dt Routing Qstat Pipeline SortFacts SortProps.
Import Numerals TimeFacts CleanText.
Local Open Scope Z_scope.

(** The fields that are sorted by the keys of
    [convert_value_for_sorting]. *)
Definition typed_field (field : string) (names : list string) : bool :=
  in_strings field names
  || String.eqb field "walltime" || String.eqb field "runtime"
  || String.eqb field "submitted".

Section Host.
Variable P : platform.

Lemma bind_typed_key (reverse : bool) (c : res pyval) (k : key) :
  (let! v := c in typed_key P reverse v)%py = Ok k →
  ∃ f p, k = K_pair (f, p)
         ∧ (f = valid_flag reverse ∨ f = empty_flag reverse).
Proof.
  destruct c as [v| |]; try discriminate. simpl. apply typed_key_flags.
Qed.

(** The key function of a typed field gives pairs with one of the two
    flags. *)
Lemma typed_field_keys (field : string) (names : list string)
  (reverse : bool) (keyf : row → res key) :
  typed_field field names = true →
  sort_key_for P field names reverse = Some keyf →
  ∀ x k, keyf x = Ok k →
    ∃ f p, k = K_pair (f, p)
           ∧ (f = valid_flag reverse ∨ f = empty_flag reverse).
Proof.
  unfold typed_field, sort_key_for. intros Ht.
  destruct (in_strings field names).
  { intros [= <-] x k. apply typed_key_flags. }
  simpl in Ht.
  destruct (String.eqb_spec field "walltime") as [->|_].
  { intros [= <-] x k. apply bind_typed_key. }
  destruct (String.eqb_spec field "runtime") as [->|_].
  { intros [= <-] x k. apply bind_typed_key. }
  destruct (String.eqb_spec field "submitted") as [->|_]; [|discriminate Ht].
  intros [= <-] x k. apply bind_typed_key.
Qed.

(** A row whose key is an empty key of the direction. *)
Definition empty_row (reverse : bool) (keyf : row → res key) (x : row) : Prop :=
  ∃ p, keyf x = Ok (K_pair (empty_flag reverse, p)).

(** X21: when a sort by a typed field ([walltime], [runtime],
    [submitted] or an extra column) returns, in either direction, no row
    with an empty key stands before a row with a valid key: empty and
    placeholder cells come last. This holds whatever the cells of the
    valid rows are. *)
Theorem typed_sort_keeps_empty_last (sort_by : option string)
  (field : string) (reverse : bool) (extra_columns : option (list string))
  (job_list out : list row) (l l' : list log_entry) :
  given sort_by = Some field →
  typed_field field (extra_names extra_columns) = true →
  sort_jobs P sort_by reverse extra_columns job_list l = (Ok out, l') →
  ∃ keyf,
    sort_key_for P field (extra_names extra_columns) reverse = Some keyf
    ∧ Permutation out job_list
    ∧ StronglySorted
        (fun a b => empty_row reverse keyf a → empty_row reverse keyf b) out.
Proof.
  intros Hg Ht H. unfold sort_jobs in H. rewrite Hg in H.
  fold (extra_names extra_columns) in H.
  destruct (sort_key_for P field (extra_names extra_columns) reverse)
    as [keyf|] eqn:Ek.
  2:{ unfold typed_field, sort_key_for in *.
      destruct (in_strings field _); [discriminate Ek|]. simpl in Ht.
      destruct (String.eqb field "score"); [discriminate Ek|].
      destruct (String.eqb field "state"); [discriminate Ek|].
      destruct (String.eqb field "nodes"); [discriminate Ek|].
      destruct (String.eqb field "user"); [discriminate Ek|].
      destruct (String.eqb field "queue"); [discriminate Ek|].
      destruct (String.eqb field "project"); [discriminate Ek|].
      destruct (String.eqb field "jobid"); [discriminate Ek|].
      destruct (String.eqb field "walltime"); [discriminate Ek|].
      destruct (String.eqb field "runtime"); [discriminate Ek|].
      destruct (String.eqb field "submitted"); [discriminate Ek|].
      discriminate Ht. }
  exists keyf. split; [done|].
  unfold lift in H. injection H as H _.
  split; [by apply list_sort_perm in H|].
  pose proof (typed_field_keys field _ reverse keyf Ht Ek) as Hflags.
  unfold list_sort in H.
  destruct (with_keys keyf job_list) as [keyed| |] eqn:Ew;
    try discriminate H.
  destruct (with_keys_spec _ _ _ Ew) as [Hm Hk]. simpl in H.
  set (Q := fun kx : key * row =>
              keyf (snd kx) = Ok (fst kx)
              ∧ is_pair kx
              ∧ (flag_of kx = valid_flag reverse
                 ∨ flag_of kx = empty_flag reverse)).
  assert (HQ : Forall Q keyed).
  { eapply Forall_impl; [exact Hk|]. intros [k x] Hkx. simpl in Hkx.
    destruct (Hflags x k Hkx) as (f & p & -> & Hf).
    split_and!; [done|by exists f, p|done]. }
  assert (Hpair : ∀ s, Permutation s keyed → Forall is_pair s).
  { intros s Hp. apply (Permutation_Forall (Permutation_sym Hp)).
    eapply Forall_impl; [exact HQ|]. by intros ? (? & ? & ?). }
  assert (Hrel : ∀ a b : key * row, Q a → Q b →
            flag_of a = empty_flag reverse → flag_of b = empty_flag reverse →
            empty_row reverse keyf (snd a) → empty_row reverse keyf (snd b)).
  { intros [ka a] [kb b] (Ha & _) (Hb & [fb [pb Hpb]] & _) _ Hfb _.
    simpl in *. subst kb. unfold flag_of in Hfb. simpl in Hfb. subst fb.
    by exists pb. }
  assert (Hflag : ∀ a : key * row, Q a → empty_row reverse keyf (snd a) →
            flag_of a = empty_flag reverse).
  { intros [ka a] (Ha & _) [p Hp]. simpl in *. rewrite Hp in Ha.
    by injection Ha as <-. }
  destruct reverse.
  - destruct (isort (rev keyed)) as [s| |] eqn:Es; try discriminate H.
    injection H as <-.
    destruct (isort_flag_sorted (rev keyed) s) as [Hs Hp]; [|done|].
    { apply Hpair. apply Permutation_sym, Permutation_rev. }
    assert (Hp' : Permutation (rev s) keyed).
    { rewrite <- Permutation_rev, Hp. apply Permutation_sym, Permutation_rev. }
    apply (StronglySorted_fmap snd
             (fun a b => empty_row true keyf (snd a)
                         → empty_row true keyf (snd b))); [done|].
    apply (StronglySorted_weaken (flip flag_le) _ Q).
    + intros a b Ha Hb Hab He. apply (Hrel a b Ha Hb); [by apply Hflag| |done].
      pose proof (Hflag a Ha He) as Hfa.
      destruct Hb as (_ & _ & [Hv|Hv]); [|done].
      unfold flip, flag_le in Hab. rewrite Hfa, Hv in Hab. simpl in Hab. lia.
    + by apply (Permutation_Forall (Permutation_sym Hp')).
    + by apply StronglySorted_rev.
  - destruct (isort keyed) as [s| |] eqn:Es; try discriminate H.
    injection H as <-.
    destruct (isort_flag_sorted keyed s) as [Hs Hp]; [by apply Hpair|done|].
    apply (StronglySorted_fmap snd
             (fun a b => empty_row false keyf (snd a)
                         → empty_row false keyf (snd b))); [done|].
    apply (StronglySorted_weaken flag_le _ Q).
    + intros a b Ha Hb Hab He. apply (Hrel a b Ha Hb); [by apply Hflag| |done].
      pose proof (Hflag a Ha He) as Hfa.
      destruct Hb as (_ & _ & [Hv|Hv]); [|done].
      unfold flag_le in Hab. rewrite Hfa, Hv in Hab. simpl in Hab. lia.
    + by apply (Permutation_Forall (Permutation_sym Hp)).
    + done.
Qed.

End Host.

Definition timed_row (jobid walltime : string) : row :=
  [("jobid", VStr jobid); ("walltime", VStr walltime)].

Lemma typed_sort_keeps_empty_last_witness :
  sort_jobs utc_host (Some "walltime") true None
    [timed_row "1" "--"; timed_row "2" "00:30:00"; timed_row "3" "02:00:00"] []
  = (Ok [timed_row "3" "02:00:00"; timed_row "2" "00:30:00";
         timed_row "1" "--"], [])
  ∧ ∃ keyf,
      sort_key_for utc_host "walltime" (extra_names None) true = Some keyf
      ∧ Permutation
          [timed_row "3" "02:00:00"; timed_row "2" "00:30:00";
           timed_row "1" "--"]
          [timed_row "1" "--"; timed_row "2" "00:30:00";
           timed_row "3" "02:00:00"]
      ∧ StronglySorted
          (fun a b => empty_row true keyf a → empty_row true keyf b)
          [timed_row "3" "02:00:00"; timed_row "2" "00:30:00";
           timed_row "1" "--"].
Proof.
  assert (H : sort_jobs utc_host (Some "walltime") true None
                [timed_row "1" "--"; timed_row "2" "00:30:00";
                 timed_row "3" "02:00:00"] []
              = (Ok [timed_row "3" "02:00:00"; timed_row "2" "00:30:00";
                     timed_row "1" "--"], []))
    by (vm_compute; reflexivity).
  split; [exact H|].
  exact (typed_sort_keeps_empty_last utc_host (Some "walltime") "walltime"
           true None _ _ [] [] eq_refl eq_refl H).
Defined.

End TypedSortProps.

(** ** Sorting by the runtime column *)

Module RuntimeSortProps.
Import Text Re Py Dt Routing Qstat Pipeline SortFacts SortProps.
Import Numerals TimeFacts CleanText.
Local Open Scope Z_scope.




Section Host.
Variable P : platform.








End Host.



End RuntimeSortProps.

(** ** The table: widths and failures *)

Module RenderProps.
Import Text Py Dt Qstat Pipeline Render Numerals.

Lemma length_spaces (n : nat) : String.length (spaces n) = n.
Proof. induction n as [|k IH]; simpl; [done|]. by rewrite IH. Qed.

Lemma length_pad_left (w : nat) (s : string) :
  String.length (pad_left w s) = Nat.max w (String.length s).
Proof. unfold pad_left. rewrite length_append, length_spaces. lia. Qed.

Lemma length_pad_right (w : nat) (s : string) :
  String.length (pad_right w s) = Nat.max w (String.length s).
Proof. unfold pad_right. rewrite length_append, length_spaces. lia. Qed.

(** The least width of a field. *)
Definition width (sp : spec) : nat :=
  match sp with
  | Text_left w | Text_right w | Int_right w | Fixed2 w => w
  end.

Lemma format_value_width (sp : spec) (v : pyval) (cell : string) :
  format_value sp v = Ok cell → (width sp ≤ String.length cell)%nat.
Proof.
  unfold format_value. intros H.
  destruct v, sp; try discriminate H;
    try (injection H as <-; rewrite ?length_pad_left, ?length_pad_right;
         simpl; lia);
    destruct (float_of_int _); try discriminate H;
    injection H as <-; rewrite length_pad_left; simpl; lia.
Qed.

Lemma fill_width (job : row) (fd : string * spec) (cell : string) :
  fill job fd = Ok cell → (width (snd fd) ≤ String.length cell)%nat.
Proof.
  unfold fill. destruct (read_name (fst fd)); try discriminate.
  destruct (item job (fst fd)); try discriminate. simpl.
  apply format_value_width.
Qed.

Lemma fill_all_widths (job : row) (fields : list (string * spec)) :
  ∀ cells, fill_all job fields = Ok cells →
    Forall2 (fun fd c => (width (snd fd) ≤ String.length c)%nat) fields cells.
Proof.
  induction fields as [|fd rest IH]; intros cells H; simpl in H.
  - injection H as <-. constructor.
  - destruct (fill job fd) as [c| |] eqn:Ec; try discriminate H. simpl in H.
    destruct (fill_all job rest) as [cs| |]; try discriminate H.
    injection H as <-. constructor; [by apply (fill_width job)|by apply IH].
Qed.

Lemma length_join_parts_le (xs ys : list string) :
  Forall2 (fun a b => (String.length a ≤ String.length b)%nat) xs ys →
  (String.length (join_parts xs) ≤ String.length (join_parts ys))%nat.
Proof.
  induction 1 as [|a b xs ys Hab Hrest IH]; [done|].
  destruct Hrest as [|a' b' xs' ys' Hab' Hrest'].
  - simpl. done.
  - change (join_parts (a :: a' :: xs'))
      with (String.append a (String.append " : " (join_parts (a' :: xs')))).
    change (join_parts (b :: b' :: ys'))
      with (String.append b (String.append " : " (join_parts (b' :: ys')))).
    rewrite !length_append. lia.
Qed.

Lemma titles_fit (names : list string) :
  Forall (fun n => (String.length n ≤ 15)%nat) names →
  Forall2 (fun t fd => (String.length (title t) ≤ width (snd fd))%nat)
          (base_titles ++ extra_fields names)
          (base_fields ++ extra_fields names).
Proof.
  intros Hn. apply Forall2_app.
  - unfold base_titles, base_fields. repeat constructor; simpl; lia.
  - unfold extra_fields. induction Hn as [|n r Hl _ IH]; simpl; [constructor|].
    constructor; [|done]. unfold title. simpl. rewrite length_pad_left. lia.
Qed.

Lemma Forall2_chain {A B C : Type} (R1 : A → B → Prop) (R2 : B → C → Prop)
  (R3 : A → C → Prop) (xs : list A) (ys : list B) (zs : list C) :
  Forall2 R1 xs ys → Forall2 R2 ys zs →
  (∀ x y z, R1 x y → R2 y z → R3 x z) →
  Forall2 R3 xs zs.
Proof.
  intros H1. revert zs. induction H1 as [|x y xs ys Hxy _ IH]; intros zs H2 H.
  - inversion H2. constructor.
  - inversion H2 as [|? z ? zs' Hyz Hrest]; subst.
    constructor; [by apply (H x y z)|by apply IH].
Qed.

(** X23: when no name of an extra column is longer than fifteen
    characters, a row that is formatted is never shorter than the header:
    every cell fills at least the width of its column, and no cell is
    cut. *)
Theorem row_as_wide_as_header (extra_column_names : list string)
  (job : row) (line : string) :
  Forall (fun n => (String.length n ≤ 15)%nat) extra_column_names →
  format_row extra_column_names job = Ok line →
  (String.length (header_string extra_column_names) ≤ String.length line)%nat.
Proof.
  intros Hn H. unfold format_row in H.
  destruct (fill_all job _) as [cells| |] eqn:Ef; try discriminate H.
  injection H as <-. unfold header_string.
  apply length_join_parts_le.
  pose proof (fill_all_widths _ _ _ Ef) as Hw.
  pose proof (titles_fit _ Hn) as Ht.
  apply Forall2_fmap_l. apply (Forall2_chain _ _ _ _ _ _ Ht Hw).
  intros t fd c H1 H2. simpl. lia.
Qed.

Lemma log_rows_stops (names : list string) (pre post : list row) (x : row)
  (e : exn) (lines : list string) :
  Forall2 (fun r line => format_row names r = Ok line) pre lines →
  format_row names x = Raise e →
  log_rows names (pre ++ x :: post) = (Raise e, lines).
Proof.
  intros Hpre Hx. induction Hpre as [|r line pre' lines' Hr _ IH]; simpl.
  - by rewrite Hx.
  - by rewrite Hr, IH.
Qed.

(** X24: the table stops at the first row that cannot be formatted: the
    count, the header and the lines of the rows before it are logged, the
    exception of that row leaves [print_jobs], and no later row is
    shown. *)
Theorem table_stops_at_first_bad_row (extra_columns : option (list string))
  (pre post : list row) (x : row) (e : exn) (lines : list string) :
  let names := match extra_columns with
               | Some cs => map display_name cs
               | None => []
               end in
  Forall2 (fun r line => format_row names r = Ok line) pre lines →
  format_row names x = Raise e →
  print_table extra_columns (pre ++ x :: post)
  = (Raise e,
     String.append "Found "
       (String.append
          (str_of_int (Z.of_nat (length (pre ++ x :: post)))) " jobs:")
     :: header_string names :: lines).
Proof.
  intros names Hpre Hx. unfold print_table. fold names.
  by rewrite (log_rows_stops names pre post x e lines Hpre Hx).
Qed.

(** A job with a start time and an integer number of cpus, processed
    with both as extra columns: the second extraction raises, and the row
    has no cell for it. *)
Definition two_columns : list string := ["stime"; "Resource_List.ncpus"].

Definition good_job : pyval :=
  VDict [("job_state", VStr "R"); ("queue", VStr "prod");
         ("stime", VStr "Sun Jun  1 11:00:00 2025");
         ("Resource_List", VDict [("ncpus", VStr "many")])].

Definition bad_job : pyval :=
  VDict [("job_state", VStr "R"); ("queue", VStr "prod");
         ("stime", VStr "Sun Jun  1 11:00:00 2025");
         ("Resource_List", VDict [("ncpus", VInt 64)])].

Definition row_for (jobid : string) (job : pyval) : row :=
  match fst (process_job utc_host (VDict []) (Filters None None None None None)
               None (Some two_columns) jobid job []) with
  | Ok (Some r) => r
  | _ => []
  end.

Definition good_row : row := Eval vm_compute in row_for "7.pbs01" good_job.
Definition bad_row : row := Eval vm_compute in row_for "8.pbs01" bad_job.
Definition good_line : string :=
  Eval vm_compute in
    match format_row (map display_name two_columns) good_row with
    | Ok line => line
    | _ => EmptyString
    end.

Lemma row_as_wide_as_header_witness :
  Forall (fun n => (String.length n ≤ 15)%nat) (map display_name two_columns)
  ∧ format_row (map display_name two_columns) good_row = Ok good_line
  ∧ (String.length (header_string (map display_name two_columns))
     ≤ String.length good_line)%nat.
Proof.
  assert (H1 : Forall (fun n => (String.length n ≤ 15)%nat)
                      (map display_name two_columns))
    by (repeat constructor; simpl; lia).
  assert (H2 : format_row (map display_name two_columns) good_row
               = Ok good_line) by (vm_compute; reflexivity).
  split; [exact H1|]. split; [exact H2|].
  exact (row_as_wide_as_header (map display_name two_columns) good_row
           good_line H1 H2).
Defined.

Lemma table_stops_at_first_bad_row_witness :
  dict_lookup bad_row "stime" = Some placeholder
  ∧ dict_lookup bad_row "ncpus" = None
  ∧ format_row (map display_name two_columns) bad_row = Raise KeyError
  ∧ print_table (Some two_columns) ([good_row] ++ bad_row :: [good_row])
    = (Raise KeyError,
       String.append "Found "
         (String.append
            (str_of_int
               (Z.of_nat (length ([good_row] ++ bad_row :: [good_row]))))
            " jobs:")
       :: header_string (map display_name two_columns) :: [good_line]).
Proof.
  assert (H1 : Forall2
                 (fun r line =>
                    format_row (map display_name two_columns) r = Ok line)
                 [good_row] [good_line])
    by (repeat constructor; vm_compute; reflexivity).
  assert (H2 : format_row (map display_name two_columns) bad_row
               = Raise KeyError) by (vm_compute; reflexivity).
  split; [reflexivity|]. split; [reflexivity|]. split; [exact H2|].
  exact (table_stops_at_first_bad_row (Some two_columns) [good_row] [good_row]
           bad_row KeyError [good_line] H1 H2).
Defined.

End RenderProps.

(** ** The server data: when the scheduler cannot be asked *)

Module ServerProps.
Import Text Re Py Dt Routing Qstat Pipeline PipelineFacts FilterProps.
Import SortFacts SortProps.

(** A row whose score is the float 0.0. *)
Definition score_zero (r : row) : Prop :=
  dict_lookup r "score" = Some (VFloat fzero).

(** With no ["Server"] entry the formula is never looked for. *)
Lemma no_server_score (P : platform) (job : pyval) :
  execute_job_sort_formula P (VDict []) job = Ok (VFloat fzero).
Proof. reflexivity. Qed.

Lemma apply_limit_Forall {A : Type} (Q : A → Prop) (limit : option Z)
  (l : list A) :
  Forall Q l → Forall Q (apply_limit limit l).
Proof.
  intros H. unfold apply_limit, slice_to.
  destruct limit as [n|]; [|done].
  destruct (_ && _); [|done].
  destruct (0 <=? n); by apply Forall_take.
Qed.

Section Host.
Variable P : platform.
Variable f : filters.
Variable eqs : option (gset string).

Local Notation "'body'" := (process_job P (VDict []) f eqs None).

Lemma process_job_score_zero (jobid : string) (job : pyval) (r : row)
  (l l' : list log_entry) :
  body jobid job l = (Ok (Some r), l') → score_zero r.
Proof.
  intros H. unfold process_job in H. rewrite no_server_score in H.
  apply bind_inv in H as (sc & ? & Hs & H).
  apply lift_inv in Hs as [[= <-] _].
  do 12 (apply bind_inv in H as (? & ? & _ & H)).
  destruct (_ && _); [discriminate H|].
  apply bind_inv in H as (ds & ? & _ & H). destruct ds; [discriminate H|].
  apply bind_inv in H as (dq & ? & _ & H). destruct dq; [discriminate H|].
  apply bind_inv in H as (du & ? & _ & H). destruct du; [discriminate H|].
  apply bind_inv in H as (dp & ? & _ & H). destruct dp; [discriminate H|].
  apply ret_inv in H as [[= <-] _]. reflexivity.
Qed.

Lemma build_job_list_score_zero (items : list (string * pyval)) :
  ∀ job_list l rows l',
    Forall score_zero job_list →
    build_job_list body items job_list l = (Ok rows, l') →
    Forall score_zero rows.
Proof.
  induction items as [|[jobid job] rest IH]; intros job_list l rows l' Hj H.
  - cbn [build_job_list] in H. by injection H as <- <-.
  - cbn [build_job_list] in H. unfold mbind at 1 in H. unfold mtry in H.
    unfold mbind at 1 in H.
    destruct (body jobid job l) as [[[r|]|e|] l1] eqn:E.
    + unfold ret at 1 in H. refine (IH _ _ _ _ _ H).
      apply Forall_app. split; [done|].
      constructor; [|done]. by apply (process_job_score_zero _ _ _ _ _ E).
    + unfold ret at 1 in H. by apply (IH _ _ _ _ Hj H).
    + unfold any_exception, mbind, emit, ret in H.
      by apply (IH _ _ _ _ Hj H).
    + discriminate H.
Qed.

Lemma sort_jobs_score_zero (sort_by : option string) (reverse : bool)
  (rows sorted : list row) (l l' : list log_entry) :
  Forall score_zero rows →
  sort_jobs P sort_by reverse None rows l = (Ok sorted, l') →
  Forall score_zero sorted.
Proof.
  intros Hz H. unfold sort_jobs in H.
  destruct (given sort_by) as [field|]; [|by apply ret_inv in H as [<- _]].
  destruct (sort_key_for P field _ reverse) as [keyf|].
  - apply lift_inv in H as [H _].
    apply list_sort_perm in H.
    by rewrite H.
  - apply bind_inv in H as (? & ? & _ & H). by apply ret_inv in H as [<- _].
Qed.

End Host.

(** X25: when the server data are not passed in and the query for them
    raises, [print_jobs] logs one warning and goes on exactly as if it had
    been given an empty dictionary; every row it then returns has the score
    0.0, whatever the jobs hold. *)
Theorem failed_server_query_scores_zero (P : platform)
  (job_data queues_data : pyval) (e : exn) (sort_by : option string)
  (reverse : bool) (f : filters) (limit : option Z)
  (extra_columns : option (list string)) (l : list log_entry) :
  print_jobs P job_data None (Raise e) queues_data sort_by reverse f limit
    extra_columns l
  = print_jobs P job_data (Some (VDict [])) (Raise e) queues_data sort_by
      reverse f limit extra_columns (l ++ [Warning_server_data e])
  ∧ ∀ rows l',
      print_jobs P job_data None (Raise e) queues_data sort_by reverse f
        limit None l = (Ok rows, l') →
      Forall score_zero rows.
Proof.
  split; [reflexivity|].
  intros rows l' H. unfold print_jobs in H.
  apply bind_inv in H as (sd & l1 & Hsd & H).
  assert (sd = VDict []) as -> by (by injection Hsd as <- _).
  apply bind_inv in H as (jobs & ? & _ & H).
  destruct (negb (truthy jobs)).
  { apply bind_inv in H as (? & ? & _ & H).
    apply ret_inv in H as [<- _]. constructor. }
  apply bind_inv in H as (qs & ? & _ & H).
  apply bind_inv in H as (items & ? & _ & H).
  apply bind_inv in H as (built & ? & Hb & H).
  apply bind_inv in H as (sorted & ? & Hs & H).
  assert (Hbz : Forall score_zero built)
    by apply (build_job_list_score_zero _ _ _ _ _ _ _ _ (Forall_nil_2 _) Hb).
  assert (Hz : Forall score_zero (apply_limit limit sorted)).
  { apply apply_limit_Forall.
    apply (sort_jobs_score_zero _ _ _ _ _ _ _ Hbz Hs). }
  destruct (apply_limit limit sorted) as [|r rest].
  - apply bind_inv in H as (? & ? & _ & H).
    apply ret_inv in H as [<- _]. constructor.
  - by apply ret_inv in H as [<- _].
Qed.

End ServerProps.

(** ** Durations in whole minutes *)

Module DurationProps.
Import Text Re Py Dt Qstat Durations Numerals TimeFacts.

(** X26: [string_time_to_minutes] fails on exactly the values on which
    [string_time_to_seconds] fails, with the same exception; when both
    return, the seconds are sixty times the minutes plus the third field;
    and on the text of an elapsed time of [n] seconds it returns the whole
    minutes [n / 60]: the seconds are dropped, not rounded. *)
Theorem minutes_of_elapsed_text (v : pyval) (n : Z) :
  (∀ e, string_time_to_minutes v = Raise e
        ↔ string_time_to_seconds v = Raise e)
  ∧ (∀ m, string_time_to_minutes v = Ok m →
          ∃ hr mn sec, get_integers v = Ok (hr, mn, sec)
                       ∧ m = hr * 60 + mn
                       ∧ string_time_to_seconds v = Ok (m * 60 + sec))
  ∧ (0 <= n → string_time_to_minutes (VStr (hms n)) = Ok (n / 60)).
Proof.
  split_and!.
  - intros e. unfold string_time_to_minutes, string_time_to_seconds.
    destruct (get_integers v) as [[[hr mn] sec]|x|]; simpl; [|done|done].
    split; discriminate.
  - intros m. unfold string_time_to_minutes, string_time_to_seconds.
    destruct (get_integers v) as [[[hr mn] sec]|x|]; simpl; [|done|done].
    intros [= <-]. exists hr, mn, sec. split_and!; [done|done|].
    f_equal. lia.
  - intros Hn. destruct (hms_parts n Hn) as (Hh & Hm & Hs & He).
    unfold string_time_to_minutes, get_integers. rewrite split_hms by done.
    rewrite !int_of_two_digits by lia. simpl. f_equal.
    apply (Z.div_unique_pos n 60 _ (n mod 60)); lia.
Qed.

End DurationProps.
